(** * Dollar-cost-averaging backtest: loader, resampler and ledger simulator

    A shallow embedding of the notebook's four functions ([load_data],
    [resample_data], [get_portfolio], [simulate_portfolio]) and of the
    helper [get_number_of_shares].

    Modelling conventions.
    - A pandas [Timestamp] at daily granularity is the number of days since
      1970-01-01, a [Z]; [day_of_month] is its [.day] attribute.
    - A Python [float] is an element of a carrier [num] with the operations
      the notebook uses ([Arith]).  Two carriers are provided: the
      kernel's binary64 floats, which evaluate the way CPython and numpy
      do, and exact rationals.  What holds of the code as it computes is
      proved for every carrier or on binary64; an algebraic property that
      rounding, overflow or NaN breaks is proved on exact rationals, and
      its statement says so.
    - A [DataFrame] is the list of its rows in index order; a row maps
      column names to cells.  Where a frame may hold missing observations
      (pandas' NaN) its cells are [option]s.
    - The [record] dictionary of [get_portfolio] is a heap object which the
      loop mutates in place; [copy] allocates a new object. *)

From Stdlib Require Import ZArith QArith Qround Qfield Lqa String Ascii.
From Stdlib Require Import PrimFloat.
From stdpp Require Import base option list sorting gmap strings.

Local Open Scope Z_scope.

(** Decimal literals such as [0.8] denote the nearest binary64 value, as
    they do in Python. *)
#[local] Set Warnings "-inexact-float".

(** ** Exceptions and the error monad *)

(** The two messages the notebook formats,
    ["tickers weights should sum up to 1"] and
    [f"{ticker} data only available from {first_date}"], and the one
    [pd.concat] has for an empty list. *)
Inductive message : Type :=
| tickers_weights_should_sum_up_to_1
| data_only_available_from (ticker : string) (first_date : Z)
| no_objects_to_concatenate.

(** What a [KeyError] reports: a dictionary key or column name, or a date
    label of an index. *)
Inductive key : Type :=
| name (s : string)
| label (day : Z).

(** Two outcomes are the model's own.  [SystemError] stands for reading a
    reference that was never allocated, which no run of the notebook does.
    [Unsupported] ends a run the model does not follow: on an index with a
    repeated date [df.loc[day]] hands back a frame, not a row. *)
Inductive exn : Type :=
| ValueError (m : message)
| IndexError
| KeyError (k : key)
| SystemError
| Unsupported.

Inductive result (A : Type) : Type :=
| Ok (a : A)
| Raise (e : exn).
Arguments Ok {A} a.
Arguments Raise {A} e.

#[export] Instance result_ret : MRet result := λ A a, Ok a.
#[export] Instance result_bind : MBind result := λ A B k m,
  match m with
  | Ok a => k a
  | Raise e => Raise e
  end.

(** A [for] loop that threads an accumulator and stops at the first
    exception. *)
Fixpoint foldM {A B} (f : B → A → result B) (b : B) (l : list A) : result B :=
  match l with
  | [] => Ok b
  | a :: l' => b' ← f b a; foldM f b' l'
  end.

(** A comprehension [[f(x) for x in l]]. *)
Fixpoint collect {A B} (f : A → result B) (l : list A) : result (list B) :=
  match l with
  | [] => Ok []
  | a :: l' => b ← f a; bs ← collect f l'; Ok (b :: bs)
  end.

Definition from_option {A} (e : exn) (o : option A) : result A :=
  match o with
  | Some a => Ok a
  | None => Raise e
  end.

(** The ways a look-up ends a run. *)
Definition lookup_error (e : exn) : Prop :=
  match e with
  | IndexError | KeyError _ | Unsupported => True
  | ValueError _ | SystemError => False
  end.

(** ** Arithmetic of Python floats

    The carrier of exact rationals idealises binary64: no rounding, no
    NaN and no infinity.  Its quotient by zero is zero, where numpy gives
    an infinity or NaN; the statements that divide by a price take the
    price to be positive or other than zero. *)

Class Arith (num : Type) : Type := {
  zero : num;                 (* the literal 0 *)
  one : num;                  (* the literal 1 *)
  add : num → num → num;      (* x + y *)
  mul : num → num → num;      (* x * y *)
  div : num → num → num;      (* x / y *)
  neq : num → num → bool;     (* x != y *)
}.

#[export] Instance Q_arith : Arith Q := {|
  zero := 0%Q;
  one := 1%Q;
  add := Qplus;
  mul := Qmult;
  div := Qdiv;
  neq := λ x y, negb (Qeq_bool x y);
|}.

#[export] Instance binary64_arith : Arith float := {|
  zero := 0%float;
  one := 1%float;
  add := PrimFloat.add;
  mul := PrimFloat.mul;
  div := PrimFloat.div;
  neq := λ x y, negb (PrimFloat.eqb x y);
|}.

(** ** Calendar *)

(** [Timestamp.day] of a day number (proleptic Gregorian calendar; the
    day-count algorithm works on 400-year eras that start on 1 March). *)
Definition day_of_month (day : Z) : Z :=
  let z := day + 719468 in
  let doe := z mod 146097 in
  let yoe := (doe - doe / 1460 + doe / 36524 - doe / 146096) / 365 in
  let doy := doe - (365 * yoe + yoe / 4 - yoe / 100) in
  let mp := (5 * doy + 2) / 153 in
  doy - (153 * mp + 2) / 5 + 1.

(** ** Column names *)

Definition price_col (ticker : string) : string := ticker +:+ "_price".
Definition shares_col (ticker : string) : string := ticker +:+ "_shares".

(** ** Data frames *)

(** Rows in index order, each with its date label. *)
Abbreviation DataFrame C := (list (Z * gmap string C)).

(** [df.index[0]] with [df.iloc[0]]. *)
Definition iloc0 {C} (df : DataFrame C) : result (Z * gmap string C) :=
  from_option IndexError (head df).

(** [df.loc[day]]: the row labelled [day], when there is one such row. *)
Definition loc {C} (df : DataFrame C) (day : Z) : result (gmap string C) :=
  match filter (λ r, r.1 = day) df with
  | [] => Raise (KeyError (label day))
  | [r] => Ok r.2
  | _ => Raise Unsupported
  end.

(** [row[col]]. *)
Definition cell {C} (row : gmap string C) (col : string) : result C :=
  from_option (KeyError (name col)) (row !! col).


(** ** The ledger simulator *)

Section Ledger.
Context {num : Type} `{!Arith num}.

Definition get_number_of_shares (amount price weight : num) : num :=
  mul (div amount price) weight.

(** [tickers]: the dictionary from ticker to [{"weight": w}], in insertion
    order. *)
Definition weight (tickers : list (string * num)) (ticker : string) : result num :=
  tw ← from_option (KeyError (name ticker)) (list_find (λ tw, tw.1 = ticker) tickers);
  Ok tw.2.2.

(** [sum(d["weight"] for d in tickers.values())]. *)
Definition sum_weights (tickers : list (string * num)) : num :=
  foldl add zero tickers.*2.

(** The dictionary [record]: its ["date"] entry, and its float entries
    (["{ticker}_price"], ["{ticker}_shares"], ["amount_invested"],
    ["portfolio_value"]) under their keys. *)
Record record : Type := Build_record { date : Z; fields : gmap string num }.

Definition getitem (r : record) (k : string) : result num :=
  from_option (KeyError (name k)) (fields r !! k).

Definition setitem (k : string) (v : num) (r : record) : record :=
  {| date := date r; fields := <[k := v]> (fields r) |}.

Definition set_date (day : Z) (r : record) : record :=
  {| date := day; fields := fields r |}.

(** A dictionary display [{**{k: v for ...}, ...}]: later entries win. *)
Definition dict_of (entries : list (string * num)) : gmap string num :=
  foldl (λ m kv, <[kv.1 := kv.2]> m) ∅ entries.

(** The [record = {...}] display before the loop. *)
Definition initial_record (tickers : list (string * num)) (df : DataFrame num)
    (initial_amount : num) : result record :=
  first ← iloc0 df;
  prices ← collect (λ ticker,
      row ← iloc0 df;
      p ← cell row.2 (price_col ticker);
      Ok (price_col ticker, p)) tickers.*1;
  shares ← collect (λ ticker,
      row ← iloc0 df;
      p ← cell row.2 (price_col ticker);
      w ← weight tickers ticker;
      Ok (shares_col ticker, get_number_of_shares initial_amount p w)) tickers.*1;
  Ok {| date := first.1;
        fields := dict_of (prices ++ shares ++
                           [("amount_invested"%string, initial_amount);
                            ("portfolio_value"%string, initial_amount)]) |}.

(** The statements of the loop body, as they act on the dictionary. *)

(** [for ticker in tickers: record[f"{ticker}_price"] = df_prices.loc[day][...]] *)
Definition update_prices (tickers : list (string * num)) (df : DataFrame num)
    (day : Z) (r : record) : result record :=
  foldM (λ r ticker,
      row ← loc df day;
      p ← cell row (price_col ticker);
      Ok (setitem (price_col ticker) p r)) r tickers.*1.

(** [for ticker in tickers: record[f"{ticker}_shares"] += get_number_of_shares(...)] *)
Definition buy_shares (tickers : list (string * num)) (monthly_addition : num)
    (r : record) : result record :=
  foldM (λ r ticker,
      s ← getitem r (shares_col ticker);
      p ← getitem r (price_col ticker);
      w ← weight tickers ticker;
      Ok (setitem (shares_col ticker)
            (add s (get_number_of_shares monthly_addition p w)) r)) r tickers.*1.

(** [record["amount_invested"] += monthly_addition] *)
Definition add_amount_invested (monthly_addition : num) (r : record) : result record :=
  a ← getitem r "amount_invested";
  Ok (setitem "amount_invested" (add a monthly_addition) r).

(** [record["portfolio_value"] = 0] and the loop that sums shares * price. *)
Definition update_portfolio_value (tickers : list (string * num)) (r : record) :
    result record :=
  foldM (λ r ticker,
      v ← getitem r "portfolio_value";
      s ← getitem r (shares_col ticker);
      p ← getitem r (price_col ticker);
      Ok (setitem "portfolio_value" (add v (mul s p)) r))
    (setitem "portfolio_value" zero r) tickers.*1.

(** *** The heap: dictionaries are objects, variables hold references *)

Definition M (A : Type) : Type := list record → result (A * list record).

#[export] Instance M_ret : MRet M := λ A a h, Ok (a, h).
#[export] Instance M_bind : MBind M := λ A B k m h,
  match m h with
  | Ok (a, h') => k a h'
  | Raise e => Raise e
  end.
Definition raise {A} (e : exn) : M A := λ _, Raise e.
Definition lift {A} (m : result A) : M A :=
  λ h, match m with Ok a => Ok (a, h) | Raise e => Raise e end.

(** A new dictionary object. *)
Definition new (r : record) : M nat := λ h, Ok (length h, h ++ [r]).

(** The value of the object behind a reference. *)
Definition deref (l : nat) : M record :=
  λ h, match h !! l with Some r => Ok (r, h) | None => Raise SystemError end.

(** A statement that mutates the object behind [l] in place. *)
Definition mutate (l : nat) (stmt : record → result record) : M unit :=
  λ h, match h !! l with
       | Some r => match stmt r with
                   | Ok r' => Ok (tt, <[l := r']> h)
                   | Raise e => Raise e
                   end
       | None => Raise SystemError
       end.

(** [copy(record)]: a shallow copy, a new object with the same entries. *)
Definition copy (l : nat) : M nat := r ← deref l; new r.

(** [for x in xs: body], threading the loop's local variables. *)
Fixpoint for_each {A B} (xs : list A) (body : B → A → M B) (b : B) : M B :=
  match xs with
  | [] => mret b
  | x :: xs' => b' ← body b x; for_each xs' body b'
  end.

(** The body of [for day in df_prices.index], with [record] the reference
    to the working dictionary and [records] the list built so far. *)
Definition day_iteration (tickers : list (string * num)) (df : DataFrame num)
    (monthly_addition : num) (record : nat) (records : list nat) (day : Z) :
    M (list nat) :=
  mutate record (λ r, Ok (set_date day r));;
  mutate record (update_prices tickers df day);;
  (if decide (day_of_month day = 1)
   then mutate record (buy_shares tickers monthly_addition);;
        mutate record (add_amount_invested monthly_addition)
   else mret ());;
  mutate record (update_portfolio_value tickers);;
  c ← copy record;
  mret (records ++ [c]).

(** The function up to the end of the loop: the reference held by
    [record] and the references appended to [records]. *)
Definition get_portfolio_loop (tickers : list (string * num)) (df : DataFrame num)
    (initial_amount monthly_addition : num) : M (nat * list nat) :=
  if neq (sum_weights tickers) one
  then raise (ValueError tickers_weights_should_sum_up_to_1)
  else
    r0 ← lift (initial_record tickers df initial_amount);
    record ← new r0;
    records ← for_each df.*1 (day_iteration tickers df monthly_addition record) [];
    mret (record, records).

(** [pd.DataFrame(records)]: one row per dictionary of the list, read when
    the frame is built. *)
Definition rows_of (records : list nat) : M (list record) :=
  for_each records (λ rows l, r ← deref l; mret (rows ++ [r])) [].

(** [get_portfolio]: the rows of the returned frame, in index order. *)
Definition get_portfolio (tickers : list (string * num)) (df : DataFrame num)
    (initial_amount monthly_addition : num) : result (list record) :=
  let run :=
    refs ← get_portfolio_loop tickers df initial_amount monthly_addition;
    rows_of refs.2 in
  rows_h ← run [];
  Ok rows_h.1.

(** *** The loop as a fold over values

    What one iteration does to the value of the working dictionary, and
    the sequence of these values day by day. *)

Definition day_step (tickers : list (string * num)) (df : DataFrame num)
    (monthly_addition : num) (r : record) (day : Z) : result record :=
  r ← update_prices tickers df day (set_date day r);
  r ← (if decide (day_of_month day = 1)
       then r ← buy_shares tickers monthly_addition r;
            add_amount_invested monthly_addition r
       else Ok r);
  update_portfolio_value tickers r.

Fixpoint ledger (tickers : list (string * num)) (df : DataFrame num)
    (monthly_addition : num) (r : record) (days : list Z) : result (list record) :=
  match days with
  | [] => Ok []
  | day :: days' =>
      r' ← day_step tickers df monthly_addition r day;
      rs ← ledger tickers df monthly_addition r' days';
      Ok (r' :: rs)
  end.

(** For comparison only, a loop the notebook does not have: the same
    iterations, each as one mutation of the working dictionary, with
    [records.append(record)], which appends the working dictionary itself
    and no copy of it. *)
Definition get_portfolio_without_copy (tickers : list (string * num))
    (df : DataFrame num) (initial_amount monthly_addition : num) :
    result (list record) :=
  let run :=
    r0 ← lift (initial_record tickers df initial_amount);
    record ← new r0;
    records ← for_each df.*1 (λ records day,
        mutate record (λ r, day_step tickers df monthly_addition r day);;
        mret (records ++ [record])) [];
    rows_of records in
  rows_h ← run [];
  Ok rows_h.1.

(** The invariant of the loop: the objects in [records] are distinct, none
    of them is the working object [l], and they hold the values [snaps]. *)
Definition snapshots (l : nat) (h : list record) (records : list nat)
    (snaps : list record) : Prop :=
  NoDup records ∧ Forall2 (λ c s, c ≠ l ∧ h !! c = Some s) records snaps.

(** The sum the revaluation loop accumulates, read off a dictionary:
    [v0 + shares * price + ...] over the tickers in order. *)
Definition holdings_value (r : record) (ts : list string) (v0 : num) : result num :=
  foldM (λ v ticker,
      s ← getitem r (shares_col ticker);
      p ← getitem r (price_col ticker);
      Ok (add v (mul s p))) v0 ts.

End Ledger.

(** The keys of the dictionary display: a price and a share count per
    ticker, and the two amounts. *)
Definition record_keys {num} (tickers : list (string * num)) : gset string :=
  list_to_set (price_col <$> tickers.*1) ∪
  list_to_set (shares_col <$> tickers.*1) ∪
  {["amount_invested"%string; "portfolio_value"%string]}.

(** ** The resampler *)

Section Resample.
Context {A : Type}.

(** The column labels of a frame whose cells may be missing: every label
    some row carries. *)
Definition columns (df : DataFrame (option A)) : gset string :=
  ⋃ ((λ r, dom r.2) <$> df).

(** The daily bins of [resample("1D")]: every calendar day from the least
    to the greatest date of the index. *)
Definition date_range (df : DataFrame (option A)) : list Z :=
  match df.*1 with
  | [] => []
  | d :: ds =>
      let lo := foldr Z.min d ds in
      let hi := foldr Z.max d ds in
      seqZ lo (hi - lo + 1)
  end.

(** [.last()] takes, column by column, the last value of the bin that is
    not missing; an empty bin has none. *)
Definition last_valid (old new : option A) : option A :=
  match new with
  | Some x => Some x
  | None => old
  end.

Definition agg_last (cols : gset string) (bin : list (gmap string (option A))) :
    gmap string (option A) :=
  foldl (union_with (λ old new, Some (last_valid old new)))
    (gset_to_gmap None cols) bin.

Definition resample_last (df : DataFrame (option A)) : DataFrame (option A) :=
  (λ day, (day, agg_last (columns df) (snd <$> filter (λ r, r.1 = day) df)))
    <$> date_range df.

(** [.fillna(method="ffill")]: a missing cell takes the value of the same
    column in the row above, after that row was filled. *)
Definition ffill_row (prev row : gmap string (option A)) : gmap string (option A) :=
  map_imap (λ col cur, Some (last_valid (prev !! col ≫= id) cur)) row.

Fixpoint ffill (prev : gmap string (option A)) (df : DataFrame (option A)) :
    DataFrame (option A) :=
  match df with
  | [] => []
  | (day, row) :: df' =>
      let row' := ffill_row prev row in
      (day, row') :: ffill row' df'
  end.

Definition resample_data (df : DataFrame (option A)) : DataFrame (option A) :=
  ffill ∅ (resample_last df).

(** A frame is dense when its dates are consecutive days and every row has
    a value in every column. *)
Definition dense (df : DataFrame (option A)) : Prop :=
  (∃ d0, df.*1 = seqZ d0 (Z.of_nat (length df))) ∧
  ∀ day row col, (day, row) ∈ df → col ∈ columns df →
                 ∃ x, row !! col = Some (Some x).

End Resample.

(** ** The loader and the whole pipeline *)

Section Loader.
Context {num : Type} `{!Arith num}.

(** The price-history provider,
    [yf.Ticker(ticker).history(start=..., end=...)[["Open"]]]: the dates
    it has and the opening price on each, which may be missing; it may
    raise. *)
Variable history : string → Z → Z → result (list (Z * option num)).

(** [round(x, 2)] on a float. *)
Variable round2 : num → num.

(** The float a missing cell reads as (NaN in binary64). *)
Variable nan : num.

(** [df_ticker.rename(columns={"Open": f"{ticker}_price"})]. *)
Definition ticker_frame (ticker : string) (series : list (Z * option num)) :
    DataFrame (option num) :=
  (λ dp, (dp.1, {[price_col ticker := dp.2]})) <$> series.

(** [index.min()]; an empty index has none ([NaT]). *)
Definition index_min (dates : list Z) : option Z :=
  match dates with
  | [] => None
  | d :: ds => Some (foldr Z.min d ds)
  end.

(** The body of [for ticker in tickers], with [data] the list built so far:
    each frame of the list goes with the label of its one column, which
    it has even without a row.  A comparison with [NaT] is false. *)
Definition load_ticker (start_date end_date : Z)
    (data : list (string * DataFrame (option num))) (ticker : string) :
    result (list (string * DataFrame (option num))) :=
  series ← history ticker start_date end_date;
  let df_ticker := ticker_frame ticker series in
  match index_min df_ticker.*1 with
  | Some first_date =>
      if bool_decide (start_date < first_date)
      then Raise (ValueError (data_only_available_from ticker first_date))
      else Ok (data ++ [(price_col ticker, df_ticker)])
  | None => Ok (data ++ [(price_col ticker, df_ticker)])
  end.

(** [pd.concat(data, axis=1)]: the union of the dates in order, and on each
    date every frame's cells, missing where the frame has no such date (in
    all of its column where the frame has no row at all).  A history
    lists a date once. *)
Definition row_on (day : Z) (col : string) (df : DataFrame (option num)) :
    gmap string (option num) :=
  match list_find (λ r, r.1 = day) df with
  | Some r => r.2.2
  | None => {[col := None]}
  end.

Definition concat_columns (data : list (string * DataFrame (option num))) :
    result (DataFrame (option num)) :=
  match data with
  | [] => Raise (ValueError no_objects_to_concatenate)
  | _ =>
      let dates := merge_sort Z.le (remove_dups (data ≫= λ cf, cf.2.*1)) in
      Ok ((λ day, (day, ⋃ ((λ cf, row_on day cf.1 cf.2) <$> data))) <$> dates)
  end.

(** [df.round(2)]. *)
Definition round_frame (df : DataFrame (option num)) : DataFrame (option num) :=
  (λ r : Z * gmap string (option num), (r.1, fmap (M := option) round2 <$> r.2)) <$> df.

Definition load_data (tickers : list (string * num)) (start_date end_date : Z) :
    result (DataFrame (option num)) :=
  data ← foldM (load_ticker start_date end_date) [] tickers.*1;
  df ← concat_columns data;
  Ok (round_frame df).

(** The cells of a frame as the floats the simulator reads. *)
Definition as_floats (df : DataFrame (option num)) : DataFrame num :=
  (λ r : Z * gmap string (option num), (r.1, default nan <$> r.2)) <$> df.

(** [simulate_portfolio]: the three steps in a row. *)
Definition simulate_portfolio (tickers : list (string * num))
    (start_date end_date : Z) (initial_amount monthly_addition : num) :
    result (list record) :=
  df_prices ← load_data tickers start_date end_date;
  let df_prices := resample_data df_prices in
  get_portfolio tickers (as_floats df_prices) initial_amount monthly_addition.

End Loader.

(** ** Example runs *)

(** A frame with one ticker at a constant price. *)
Definition flat_prices {num} (ticker : string) (p : num) (days : list Z) :
    DataFrame num :=
  (λ day, (day, {[price_col ticker := p]})) <$> days.

(** 2021-01-01 to 2021-03-31, 2020-12-31 to 2021-01-02, and 2021-01-01
    to 2021-01-03. *)
Definition first_quarter_2021 : list Z := seqZ 18628 90.
Definition new_year_2021 : list Z := seqZ 18627 3.
Definition january_2021 : list Z := seqZ 18628 3.

Definition rows {num} (run : result (list (record (num := num)))) :
    list (record (num := num)) :=
  match run with
  | Ok rs => rs
  | Raise _ => []
  end.

Definition row_at {num} (run : result (list (record (num := num)))) (i : nat) :
    record (num := num) :=
  default {| date := 0; fields := ∅ |} (rows run !! i).

(** One ticker ["X"] of weight 1 at a flat price of 10, 1000 invested at
    the start and 200 added each month, on exact rationals and on binary64
    floats. *)
Definition quarter_run_Q : result (list (record (num := Q))) :=
  get_portfolio [("X"%string, 1%Q)] (flat_prices "X" 10%Q first_quarter_2021)
    1000%Q 200%Q.

Definition quarter_run_binary64 : result (list (record (num := float))) :=
  get_portfolio [("X"%string, 1%float)]
    (flat_prices "X" 10%float first_quarter_2021) 1000%float 200%float.

Definition new_year_run_Q : result (list (record (num := Q))) :=
  get_portfolio [("X"%string, 1%Q)] (flat_prices "X" 10%Q new_year_2021)
    1000%Q 200%Q.

Definition january_run_Q : result (list (record (num := Q))) :=
  get_portfolio [("X"%string, 1%Q)] (flat_prices "X" 10%Q january_2021)
    1000%Q 200%Q.

(** The same start on 2021-01-01 at a flat price of 7, on binary64
    floats. *)
Definition january_run_binary64 : result (list (record (num := float))) :=
  get_portfolio [("X"%string, 1%float)]
    (flat_prices "X" 7%float january_2021) 1000%float 200%float.

(** Two tickers around New Year 2021, ["X"] of weight 1 at 10 and ["Z"] of
    weight 0 at 0.01, with 1000 at the start and 1e307 a month, on
    binary64 floats. *)
Definition two_prices_frame : DataFrame float :=
  (λ day, (day, {["X_price"%string := 10%float;
                  "Z_price"%string := 0.01%float]})) <$> new_year_2021.

Definition overflow_run_binary64 : result (list (record (num := float))) :=
  get_portfolio [("X"%string, 1%float); ("Z"%string, 0%float)]
    two_prices_frame 1000%float 1e307%float.

(** Frames of two tickers: Friday 2021-01-01 and Monday 2021-01-04 with
    the weekend missing, and three consecutive days. *)
Definition weekend_frame : DataFrame (option Q) :=
  [(18628, {["A_price" := Some 10%Q; "B_price" := Some 7%Q]});
   (18631, {["A_price" := Some 11%Q; "B_price" := Some 8%Q]})].

Definition week_frame : DataFrame (option Q) :=
  [(18628, {["A_price" := Some 10%Q; "B_price" := Some 7%Q]});
   (18629, {["A_price" := Some 11%Q; "B_price" := Some 8%Q]});
   (18630, {["A_price" := Some 12%Q; "B_price" := Some 9%Q]})].

(** A provider with two histories, ["A"] from 2021-01-01 and ["B"] from
    2021-01-04; it answers with the dates of the requested range and
    knows no other ticker. *)
Definition two_histories (ticker : string) (start_date end_date : Z) :
    result (list (Z * option Q)) :=
  let in_range (series : list (Z * option Q)) :=
    filter (λ dp, start_date ≤ dp.1 < end_date) series in
  if decide (ticker = "A"%string)
  then Ok (in_range [(18628, Some (10004 # 1000)%Q); (18631, Some 11%Q);
                     (18632, Some (1105 # 100)%Q)])
  else if decide (ticker = "B"%string)
  then Ok (in_range [(18631, Some 7%Q); (18632, Some (7125 # 1000)%Q)])
  else Raise (KeyError (name ticker)).

(** [np.rint] on binary64: the nearest integer, halves to the even one.
    Below 2^52 in magnitude, adding 2^52 and taking it off again rounds to
    an integer; from 2^52 on every float is one. *)
Definition rint (x : float) : float :=
  if PrimFloat.ltb (PrimFloat.abs x) 0x1p52
  then
    let r := PrimFloat.sub (PrimFloat.add (PrimFloat.abs x) 0x1p52) 0x1p52 in
    if PrimFloat.get_sign x then PrimFloat.opp r else r
  else x.

(** [df.round(2)] on binary64, as numpy computes it: [rint(x * 100) / 100],
    the product and the quotient rounded as floats are. *)
Definition round2_binary64 (x : float) : float :=
  PrimFloat.div (rint (PrimFloat.mul x 100)) 100.

(** A provider on binary64 floats: ["A"] has two observations from
    2021-01-04, ["E"] is known and has none; it knows no other ticker. *)
Definition float_histories (ticker : string) (start_date end_date : Z) :
    result (list (Z * option float)) :=
  if decide (ticker = "A"%string)
  then Ok (filter (λ dp, start_date ≤ dp.1 < end_date)
             [(18631, Some 1.115%float); (18632, Some 2.5%float)])
  else if decide (ticker = "E"%string)
  then Ok []
  else Raise (KeyError (name ticker)).

(** The counterpart of [round2_binary64] on exact rationals, where the
    product by 100 is exact: the nearest multiple of 1/100, halves to the
    even neighbour. *)
Definition round2_Q (x : Q) : Q :=
  let y := (x * 100)%Q in
  let n := Qfloor y in
  let rest := (y - inject_Z n)%Q in
  let m :=
    match (rest ?= 1 # 2)%Q with
    | Lt => n
    | Gt => n + 1
    | Eq => if Z.even n then n else n + 1
    end in
  (inject_Z m / 100)%Q.

(** The number of contribution days among [days]. *)
Definition contributions (days : list Z) : nat :=
  length (filter (λ day, day_of_month day = 1) days).

(** The float entry under [k] is present and worth [x]. *)
Definition field_is (r : record (num := Q)) (k : string) (x : Q) : Prop :=
  ∃ v, fields r !! k = Some v ∧ (v == x)%Q.

(** In the flat scenario, the working dictionary after [k]
    contributions: 100 + 20 k shares and 1000 + 200 k invested. *)
Definition funded (k : nat) (r : record (num := Q)) : Prop :=
  field_is r "X_shares" (100 + 20 * inject_Z (Z.of_nat k)) ∧
  field_is r "amount_invested" (1000 + 200 * inject_Z (Z.of_nat k)).

(** The float entry under [k], read as 0 when there is none. *)
Definition field_of (r : record (num := Q)) (k : string) : Q :=
  default 0%Q (fields r !! k).

(** What the shares bought between the dictionaries [r1] and [r2] cost
    at the prices of [r2], summed over the tickers in order. *)
Definition purchase_cost (ts : list string) (r1 r2 : record (num := Q)) : Q :=
  foldl Qplus 0%Q
    ((λ t, (field_of r2 (shares_col t) - field_of r1 (shares_col t))
           * field_of r2 (price_col t))%Q <$> ts).

(** At the constant prices [price], every ticker's holding is worth its
    weight's part of the amount invested. *)
Definition balanced (tickers : list (string * Q)) (price : string → Q)
    (r : record (num := Q)) : Prop :=
  ∃ a, fields r !! "amount_invested" = Some a ∧
    ∀ t w, (t, w) ∈ tickers → ∃ s,
      fields r !! shares_col t = Some s ∧
      fields r !! price_col t = Some (price t) ∧
      (s * price t == a * w)%Q.

(** What the loader returns for that provider from 2021-01-04, and the
    pipeline's run on it with all the weight on ["A"]. *)
Definition float_histories_frame : DataFrame (option float) :=
  [(18631, {["A_price" := Some 1.12%float; "E_price" := None]});
   (18632, {["A_price" := Some 2.5%float; "E_price" := None]})].

Definition float_histories_run : result (list (record (num := float))) :=
  simulate_portfolio float_histories round2_binary64 PrimFloat.nan
    [("A"%string, 1%float); ("E"%string, 0%float)] 18631 18635
    1000%float 200%float.

(** * Properties *)

(** ** Calendar *)

(** 1970-01-01, 2000-02-29, 2000-03-01, 2020-12-31, 2021-01-01 (a Friday),
    2021-02-01 and 2021-03-31. *)
Example day_of_month_dates :
  day_of_month 0 = 1 ∧ day_of_month 11016 = 29 ∧ day_of_month 11017 = 1 ∧
  day_of_month 18627 = 31 ∧ day_of_month 18628 = 1 ∧
  day_of_month 18659 = 1 ∧ day_of_month 18717 = 31.
Proof. by split_and!. Qed.

(** ** The error monad *)

Lemma bind_Ok {A B} (m : result A) (k : A → result B) (b : B) :
  (m ≫= k) = Ok b → ∃ a, m = Ok a ∧ k a = Ok b.
Proof. destruct m as [a|e]; [eauto | discriminate]. Qed.

Lemma from_option_Ok {A} (e : exn) (o : option A) (a : A) :
  from_option e o = Ok a → o = Some a.
Proof. destruct o; simpl; congruence. Qed.

(** ** Rows by label *)

Lemma filter_none {B} (P : B → Prop) `{!∀ x, Decision (P x)} (l : list B) :
  (∀ x, x ∈ l → ¬ P x) → filter P l = [].
Proof.
  induction l as [|x l IH]; intros Hl; [done|].
  rewrite filter_cons, decide_False by (apply Hl; by left).
  apply IH. intros y Hy. apply Hl. by right.
Qed.

(** On an index without repeated dates a date selects one row. *)
Lemma filter_date_NoDup {C} (df : DataFrame C) : ∀ day row,
  NoDup df.*1 → (day, row) ∈ df →
  filter (λ r, r.1 = day) df = [(day, row)].
Proof.
  induction df as [|[d r] df IH]; intros day row Hnd Hin.
  - by apply elem_of_nil in Hin.
  - apply NoDup_cons in Hnd as [Hnin Hnd]. rewrite filter_cons. simpl.
    apply elem_of_cons in Hin as [[= -> ->]|Hin].
    + rewrite decide_True by done. f_equal.
      apply filter_none. intros [d' r'] Hin' Heq.
      simpl in Heq. subst d'. apply Hnin.
      by apply (list_elem_of_fmap_2 fst _ (d, r')).
    + rewrite decide_False; [by apply IH|]. intros ->. apply Hnin.
      by apply (list_elem_of_fmap_2 fst _ (day, row)).
Qed.

Lemma loc_Ok {C} (df : DataFrame C) (day : Z) (row : gmap string C) :
  loc df day = Ok row ↔ filter (λ r, r.1 = day) df = [(day, row)].
Proof.
  unfold loc. split.
  - destruct (filter (λ r, r.1 = day) df) as [|[d r] [|]] eqn:Hf; try done.
    intros [= <-]. f_equal.
    assert (Hin : (d, r) ∈ filter (λ r, r.1 = day) df) by (rewrite Hf; by left).
    apply list_elem_of_filter in Hin as [Hd _]. simpl in Hd. by subst d.
  - by intros ->.
Qed.

Lemma loc_elem_of {C} (df : DataFrame C) (day : Z) (row : gmap string C) :
  loc df day = Ok row → (day, row) ∈ df.
Proof.
  intros Hf%loc_Ok.
  assert (Hin : (day, row) ∈ filter (λ r, r.1 = day) df) by (rewrite Hf; by left).
  by apply list_elem_of_filter in Hin as [_ Hin].
Qed.

Lemma loc_NoDup {C} (df : DataFrame C) (day : Z) (row : gmap string C) :
  NoDup df.*1 → (day, row) ∈ df → loc df day = Ok row.
Proof. intros Hnd Hin. apply loc_Ok. by apply filter_date_NoDup. Qed.

(** The first row is the row of the first date. *)
Lemma loc_head {C} (df : DataFrame C) (day : Z) (row row' : gmap string C) :
  loc ((day, row) :: df) day = Ok row' → row' = row.
Proof.
  intros Hf%loc_Ok. rewrite filter_cons, decide_True in Hf by done.
  by injection Hf as <-.
Qed.

Lemma loc_Raise {C} (df : DataFrame C) (day : Z) (e : exn) :
  loc df day = Raise e → lookup_error e.
Proof.
  unfold loc. destruct (filter (λ r, r.1 = day) df) as [|r [|]]; try done;
    by intros [= <-].
Qed.

(** Inversion of a successful run of the error monad, one bind at a time. *)
Ltac inv_ok :=
  repeat match goal with
  | H : Ok _ = Ok _ |- _ => injection H as H; try subst
  | H : Raise _ = Ok _ |- _ => discriminate H
  | H : (_ ≫= _) = Ok _ |- _ =>
      let a := fresh "a" in let Ha := fresh "Ha" in
      apply bind_Ok in H as (a & Ha & H)
  | H : from_option _ _ = Ok _ |- _ => apply from_option_Ok in H
  | H : cell _ _ = Ok _ |- _ => apply from_option_Ok in H
  | H : getitem _ _ = Ok _ |- _ => apply from_option_Ok in H
  end.

(** ** The loop mutates one object and appends copies *)

Section Aliasing.
Context {num : Type} `{!Arith num}.
Implicit Types (h : list (record (num := num))) (r : record (num := num)).

Lemma M_bind_eq {A B} (m : M A) (k : A → M B) h :
  (m ≫= k) h =
    match m h with
    | Ok (a, h') => k a h'
    | Raise e => Raise e
    end.
Proof. reflexivity. Qed.

Lemma mutate_lookup l (stmt : record → result record) h r :
  h !! l = Some r →
  mutate l stmt h =
    match stmt r with
    | Ok r' => Ok ((), <[l := r']> h)
    | Raise e => Raise e
    end.
Proof. intros Hl. unfold mutate. by rewrite Hl. Qed.

Lemma copy_lookup l h r :
  h !! l = Some r → copy l h = Ok (length h, h ++ [r]).
Proof. intros Hl. unfold copy, mbind, M_bind, deref, new. by rewrite Hl. Qed.

(** One iteration: the working object takes the value [day_step] computes,
    and a new object with that value is appended. *)
Lemma day_iteration_step tickers df monthly l records day h r :
  h !! l = Some r →
  day_iteration tickers df monthly l records day h =
    match day_step tickers df monthly r day with
    | Ok r' => Ok (records ++ [length h], <[l := r']> h ++ [r'])
    | Raise e => Raise e
    end.
Proof.
  intros Hl. pose proof (lookup_lt_Some _ _ _ Hl) as Hlt.
  assert (Hupd : ∀ h' r1 r2, length h' = length h →
            <[l := r1]> h' !! l = Some r1 ∧
            <[l := r2]> (<[l := r1]> h') = <[l := r2]> h' ∧
            length (<[l := r1]> h') = length h).
  { intros h' r1 r2 Hlen. rewrite list_lookup_insert_eq by lia.
    rewrite list_insert_insert_eq, length_insert. done. }
  unfold day_iteration, day_step, mbind at 1 2 3 4, M_bind.
  rewrite (mutate_lookup _ _ _ _ Hl).
  destruct (Hupd h (set_date day r) (set_date day r) eq_refl) as (H1 & _ & L1).
  rewrite (mutate_lookup _ _ _ _ H1).
  unfold mbind at 3 4, result_bind.
  destruct (update_prices tickers df day (set_date day r)) as [r1|e]; [|done].
  destruct (Hupd h (set_date day r) r1 eq_refl) as (_ & -> & _).
  destruct (Hupd h r1 r1 eq_refl) as (H2 & _ & L2).
  assert (∃ o, o = (if decide (day_of_month day = 1)
             then r ← buy_shares tickers monthly r1; add_amount_invested monthly r
             else Ok r1)) as [o Ho] by eauto.
  case_decide.
  - unfold mbind at 1, M_bind. rewrite (mutate_lookup _ _ _ _ H2).
    unfold mbind at 2, result_bind.
    destruct (buy_shares tickers monthly r1) as [r2|e]; [|done].
    destruct (Hupd h r1 r2 eq_refl) as (_ & -> & _).
    destruct (Hupd h r2 r2 eq_refl) as (H3 & _ & L3).
    rewrite (mutate_lookup _ _ _ _ H3).
    destruct (add_amount_invested monthly r2) as [r3|e]; [|done].
    destruct (Hupd h r2 r3 eq_refl) as (_ & -> & _).
    destruct (Hupd h r3 r3 eq_refl) as (H4 & _ & L4).
    rewrite (mutate_lookup _ _ _ _ H4).
    destruct (update_portfolio_value tickers r3) as [r4|e]; [|done].
    destruct (Hupd h r3 r4 eq_refl) as (_ & -> & _).
    destruct (Hupd h r4 r4 eq_refl) as (H5 & _ & L5).
    unfold mbind, M_bind. rewrite (copy_lookup _ _ _ H5). simpl.
    unfold mret, M_ret. by rewrite L5.
  - unfold mret at 1, M_ret.
    rewrite (mutate_lookup _ _ _ _ H2).
    destruct (update_portfolio_value tickers r1) as [r4|e]; [|done].
    destruct (Hupd h r1 r4 eq_refl) as (_ & -> & _).
    destruct (Hupd h r4 r4 eq_refl) as (H5 & _ & L5).
    unfold mbind, M_bind. rewrite (copy_lookup _ _ _ H5). simpl.
    unfold mret, M_ret. by rewrite L5.
Qed.

Lemma snapshots_iteration l h r r' records snaps :
  h !! l = Some r →
  snapshots l h records snaps →
  snapshots l (<[l := r']> h ++ [r']) (records ++ [length h]) (snaps ++ [r']).
Proof.
  intros Hl [Hnd Hs]. pose proof (lookup_lt_Some _ _ _ Hl) as Hlt. split.
  - apply NoDup_app. split_and!; [done| |apply NoDup_singleton].
    intros c Hc ->%list_elem_of_singleton.
    apply (Forall2_Forall_l _ (λ c, c < length h)%nat) in Hs.
    + rewrite Forall_forall in Hs. specialize (Hs _ Hc). lia.
    + apply Forall_true. intros c' s [_ Hc']. eauto using lookup_lt_Some.
  - apply Forall2_app.
    + eapply Forall2_impl; [exact Hs|]. intros c s [Hne Hc]. split; [done|].
      rewrite lookup_app_l by (rewrite length_insert; eauto using lookup_lt_Some).
      by rewrite list_lookup_insert_ne.
    + constructor; [|constructor]. split; [lia|].
      rewrite lookup_app_r by (rewrite length_insert; lia).
      rewrite length_insert. by replace (length h - length h)%nat with 0%nat by lia.
Qed.

Lemma snapshots_nil l h : snapshots l h [] [].
Proof. split; constructor. Qed.

Lemma for_each_cons {A B} (x : A) xs (body : B → A → M B) b h :
  for_each (x :: xs) body b h =
    match body b x h with
    | Ok (b', h') => for_each xs body b' h'
    | Raise e => Raise e
    end.
Proof. reflexivity. Qed.

Lemma for_each_day_iteration tickers df monthly l days : ∀ h r records snaps,
  h !! l = Some r →
  snapshots l h records snaps →
  match ledger tickers df monthly r days with
  | Ok rs => ∃ records' h',
      for_each days (day_iteration tickers df monthly l) records h
        = Ok (records', h') ∧
      snapshots l h' records' (snaps ++ rs)
  | Raise e =>
      for_each days (day_iteration tickers df monthly l) records h = Raise e
  end.
Proof.
  induction days as [|day days IH]; intros h r records snaps Hl Hs.
  - exists records, h. by rewrite app_nil_r.
  - rewrite for_each_cons, (day_iteration_step _ _ _ _ _ _ _ _ Hl).
    cbn [ledger]. unfold mbind at 1, result_bind.
    destruct (day_step tickers df monthly r day) as [r'|e]; simpl; [|done].
    pose proof (lookup_lt_Some _ _ _ Hl) as Hlt.
    assert (Hl' : (<[l := r']> h ++ [r']) !! l = Some r').
    { rewrite lookup_app_l by (by rewrite length_insert).
      by apply list_lookup_insert_eq. }
    specialize (IH _ _ _ _ Hl' (snapshots_iteration _ _ _ r' _ _ Hl Hs)).
    unfold mbind, result_bind.
    destruct (ledger tickers df monthly r' days) as [rs|e]; [|done].
    destruct IH as (records' & h' & Hrun & Hs').
    exists records', h'. split; [done|]. by rewrite <- app_assoc in Hs'.
Qed.

Lemma rows_of_snapshots l h records snaps :
  snapshots l h records snaps → rows_of records h = Ok (snaps, h).
Proof.
  intros [_ Hs]. unfold rows_of.
  enough (∀ acc, for_each records (λ rows l, r ← deref l; mret (rows ++ [r])) acc h
                 = Ok (acc ++ snaps, h)) as Hacc by apply (Hacc []).
  induction Hs as [|c s records snaps [_ Hc] _ IH]; intros acc.
  - simpl. by rewrite app_nil_r.
  - assert (Hb : (r ← deref c; mret (acc ++ [r])) h = Ok (acc ++ [s], h)).
    { unfold mbind, M_bind, deref. by rewrite Hc. }
    rewrite for_each_cons. cbv beta. rewrite Hb, IH. by rewrite <- app_assoc.
Qed.

(** The function returns the day-by-day values of the working dictionary. *)
Lemma get_portfolio_ledger tickers df initial monthly :
  get_portfolio tickers df initial monthly =
    if neq (sum_weights tickers) one
    then Raise (ValueError tickers_weights_should_sum_up_to_1)
    else r0 ← initial_record tickers df initial;
         ledger tickers df monthly r0 df.*1.
Proof.
  unfold get_portfolio, get_portfolio_loop.
  destruct (neq (sum_weights tickers) one); [done|].
  rewrite !M_bind_eq. unfold lift.
  destruct (initial_record tickers df initial) as [r0|e]; [|done].
  rewrite M_bind_eq. unfold new at 1. cbn [length app]. cbv beta iota.
  rewrite M_bind_eq.
  pose proof (for_each_day_iteration tickers df monthly 0%nat df.*1
                [r0] r0 [] [] eq_refl (snapshots_nil _ _)) as Hloop.
  cbn [mbind result_bind].
  destruct (ledger tickers df monthly r0 df.*1) as [rs|e].
  - destruct Hloop as (records' & h' & -> & Hs). unfold mret, M_ret. simpl.
    by rewrite (rows_of_snapshots _ _ _ _ Hs).
  - by rewrite Hloop.
Qed.

(** At the end of the loop the appended objects hold the day-by-day values. *)
Lemma get_portfolio_loop_Ok tickers df initial monthly l refs h :
  get_portfolio_loop tickers df initial monthly [] = Ok ((l, refs), h) →
  ∃ r0 rs,
    initial_record tickers df initial = Ok r0 ∧
    ledger tickers df monthly r0 df.*1 = Ok rs ∧
    snapshots l h refs rs.
Proof.
  unfold get_portfolio_loop.
  destruct (neq (sum_weights tickers) one); [done|].
  rewrite M_bind_eq. unfold lift.
  destruct (initial_record tickers df initial) as [r0|e]; [|done].
  rewrite M_bind_eq. unfold new at 1. cbn [length app]. cbv beta iota.
  rewrite M_bind_eq.
  pose proof (for_each_day_iteration tickers df monthly 0%nat df.*1
                [r0] r0 [] [] eq_refl (snapshots_nil _ _)) as Hloop.
  destruct (ledger tickers df monthly r0 df.*1) as [rs|e] eqn:Hledger.
  - destruct Hloop as (records' & h' & -> & Hs). unfold mret, M_ret.
    intros [= <- <- <-]. by exists r0, rs.
  - by rewrite Hloop.
Qed.

End Aliasing.

(** ** The keys of the dictionary do not collide *)

Lemma list_ascii_of_string_app (s1 s2 : string) :
  list_ascii_of_string (s1 +:+ s2) =
    list_ascii_of_string s1 ++ list_ascii_of_string s2.
Proof. induction s1 as [|a s1 IH]; simpl; [done|]. by rewrite IH. Qed.

Lemma length_list_ascii_of_string (s : string) :
  length (list_ascii_of_string s) = String.length s.
Proof. induction s as [|a s IH]; simpl; [done|]. by rewrite IH. Qed.

(** Two strings that end in different suffixes of one length differ. *)
Lemma suffix_ne (s1 s2 u1 u2 : string) :
  String.length u1 = String.length u2 → u1 ≠ u2 → s1 +:+ u1 ≠ s2 +:+ u2.
Proof.
  intros Hlen Hne Heq. apply Hne.
  apply (f_equal list_ascii_of_string) in Heq.
  rewrite !list_ascii_of_string_app in Heq.
  apply app_inj_2 in Heq as [_ Heq].
  - rewrite <- (string_of_list_ascii_of_string u1),
            <- (string_of_list_ascii_of_string u2). by rewrite Heq.
  - by rewrite !length_list_ascii_of_string.
Qed.

Lemma suffix_inj (u : string) : Inj (=) (=) (λ s, s +:+ u).
Proof.
  intros s1 s2 Heq. simpl in Heq.
  apply (f_equal list_ascii_of_string) in Heq.
  rewrite !list_ascii_of_string_app in Heq.
  apply app_inj_2 in Heq as [Heq _]; [|done].
  rewrite <- (string_of_list_ascii_of_string s1),
          <- (string_of_list_ascii_of_string s2). by rewrite Heq.
Qed.

#[export] Instance price_col_inj : Inj (=) (=) price_col.
Proof. apply suffix_inj. Qed.

#[export] Instance shares_col_inj : Inj (=) (=) shares_col.
Proof. apply suffix_inj. Qed.

Lemma price_col_ne_amount t : price_col t ≠ "amount_invested".
Proof. by apply (suffix_ne t "amount_in" "_price" "vested"). Qed.

Lemma price_col_ne_value t : price_col t ≠ "portfolio_value".
Proof. by apply (suffix_ne t "portfolio" "_price" "_value"). Qed.

Lemma shares_col_ne_amount t : shares_col t ≠ "amount_invested".
Proof. by apply (suffix_ne t "amount_i" "_shares" "nvested"). Qed.

Lemma shares_col_ne_value t : shares_col t ≠ "portfolio_value".
Proof. by apply (suffix_ne t "portfoli" "_shares" "o_value"). Qed.

Lemma price_col_ne_shares t t' : price_col t ≠ shares_col t'.
Proof.
  unfold price_col, shares_col. intros Heq.
  apply (f_equal list_ascii_of_string) in Heq.
  rewrite !list_ascii_of_string_app in Heq.
  apply (f_equal (@rev ascii)) in Heq. rewrite !rev_app_distr in Heq.
  simpl in Heq. discriminate.
Qed.

Lemma amount_ne_value : "amount_invested"%string ≠ "portfolio_value"%string.
Proof. done. Qed.

Create HintDb keys discriminated.
#[export] Hint Resolve price_col_ne_amount price_col_ne_value
  shares_col_ne_amount shares_col_ne_value price_col_ne_shares
  amount_ne_value : keys.
#[export] Hint Extern 1 (_ ≠ _) => apply not_eq_sym : keys.

(** ** Comprehensions and dictionary displays *)

Lemma collect_Ok {A B} (f : A → result B) (l : list A) (ys : list B) :
  collect f l = Ok ys → Forall2 (λ x y, f x = Ok y) l ys.
Proof.
  revert ys. induction l as [|x l IH]; intros ys Hm; simpl in Hm; inv_ok.
  - constructor.
  - constructor; auto.
Qed.

Lemma collect_elem_of_l {A B} (f : A → result B) (l : list A) ys x :
  collect f l = Ok ys → x ∈ l → ∃ y, f x = Ok y ∧ y ∈ ys.
Proof.
  intros Hc%collect_Ok Hx. induction Hc as [|x' y l ys Hxy _ IH].
  - by apply elem_of_nil in Hx.
  - apply elem_of_cons in Hx as [->|Hx].
    + exists y. split; [done|by left].
    + destruct (IH Hx) as (y' & ? & ?). exists y'. split; [done|by right].
Qed.

Lemma collect_elem_of_r {A B} (f : A → result B) (l : list A) ys y :
  collect f l = Ok ys → y ∈ ys → ∃ x, x ∈ l ∧ f x = Ok y.
Proof.
  intros Hc%collect_Ok Hy. induction Hc as [|x y' l ys Hxy _ IH].
  - by apply elem_of_nil in Hy.
  - apply elem_of_cons in Hy as [->|Hy].
    + exists x. split; [by left|done].
    + destruct (IH Hy) as (x' & ? & ?). exists x'. split; [by right|done].
Qed.

Lemma NoDup_fst_functional {A B} (l : list (A * B)) (x : A) (y1 y2 : B) :
  NoDup l.*1 → (x, y1) ∈ l → (x, y2) ∈ l → y1 = y2.
Proof.
  induction l as [|[a b] l IH]; simpl; intros Hnd H1 H2.
  - by apply elem_of_nil in H1.
  - apply NoDup_cons in Hnd as [Hnin Hnd].
    apply elem_of_cons in H1 as [H1|H1], H2 as [H2|H2]; simplify_eq; auto.
    + destruct Hnin. by apply (list_elem_of_fmap_2 fst _ (a, y2)).
    + destruct Hnin. by apply (list_elem_of_fmap_2 fst _ (a, y1)).
Qed.

Section Dict.
Context {num : Type}.
Implicit Types (l : list (string * num)) (k : string) (v : num).

Lemma dict_of_snoc l k v : dict_of (l ++ [(k, v)]) = <[k := v]> (dict_of l).
Proof. unfold dict_of. by rewrite foldl_app. Qed.

(** A key all of whose entries carry one value is bound to that value. *)
Lemma dict_of_lookup l k v :
  (k, v) ∈ l → (∀ v', (k, v') ∈ l → v' = v) → dict_of l !! k = Some v.
Proof.
  induction l as [|[k' v'] l IH] using rev_ind; intros Hin Hfun.
  - by apply elem_of_nil in Hin.
  - rewrite dict_of_snoc. destruct (decide (k' = k)) as [->|Hne].
    + rewrite lookup_insert_eq. f_equal. apply Hfun.
      apply elem_of_app. right. by apply list_elem_of_singleton.
    + rewrite lookup_insert_ne by done. apply IH.
      * apply elem_of_app in Hin as [Hin|Hin]; [done|].
        apply list_elem_of_singleton in Hin. congruence.
      * intros v'' Hv''. apply Hfun. apply elem_of_app. by left.
Qed.

End Dict.

(** ** What each statement of the loop body changes *)

Section Statements.
Context {num : Type} `{!Arith num}.
Implicit Types (r : record (num := num)) (tickers : list (string * num)).
Implicit Types (df : DataFrame num) (k t : string).

Lemma getitem_Ok r k v : getitem r k = Ok v ↔ fields r !! k = Some v.
Proof.
  unfold getitem. destruct (fields r !! k); simpl; split; congruence.
Qed.

Lemma weight_elem_of tickers t w :
  weight tickers t = Ok w → (t, w) ∈ tickers.
Proof.
  unfold weight. intros Hw. inv_ok.
  destruct a as [i [t' w']]. apply list_find_Some in Ha as (Hi & Ht & _).
  simpl in *. subst. eauto using list_elem_of_lookup_2.
Qed.

(** In a dictionary (distinct keys) a ticker's weight is its entry. *)
Lemma weight_NoDup tickers t w :
  NoDup tickers.*1 → (t, w) ∈ tickers → weight tickers t = Ok w.
Proof.
  intros Hnd Hin. unfold weight.
  destruct (list_find (λ tw, tw.1 = t) tickers) as [[i [t' w']]|] eqn:Hf; simpl.
  - apply list_find_Some in Hf as (Hi & Ht & _). simpl in Ht. subst t'.
    apply list_elem_of_lookup_2 in Hi.
    by rewrite (NoDup_fst_functional _ _ _ _ Hnd Hi Hin).
  - apply list_find_None in Hf. rewrite Forall_forall in Hf.
    by destruct (Hf _ Hin).
Qed.

(** [for ticker in tickers: record[f"{ticker}_price"] = ...] rebinds the
    price keys of the tickers to the cells of the day's row. *)
Lemma update_prices_Ok tickers df day r r' :
  update_prices tickers df day r = Ok r' →
  date r' = date r ∧
  (∀ k, (∀ t, t ∈ tickers.*1 → k ≠ price_col t) →
        fields r' !! k = fields r !! k) ∧
  (∀ t, t ∈ tickers.*1 → ∃ row p,
        loc df day = Ok row ∧ row !! price_col t = Some p ∧
        fields r' !! price_col t = Some p).
Proof.
  unfold update_prices. generalize (tickers.*1). intros ts. revert r.
  induction ts as [|a ts IH]; intros r Hf; simpl in Hf.
  - inv_ok. split_and!; [done..|]. intros t Ht. by apply elem_of_nil in Ht.
  - apply bind_Ok in Hf as (r1 & Hbody & Hf). inv_ok.
    rename a0 into row, a1 into p.
    destruct (IH _ Hf) as (Hd & Hframe & Hpr). split_and!.
    + done.
    + intros k Hk. rewrite Hframe by (intros t Ht; apply Hk; by right).
      simpl. apply lookup_insert_ne. apply not_eq_sym, Hk. by left.
    + intros t Ht. destruct (decide (t ∈ ts)) as [Hin|Hnin]; [by apply Hpr|].
      apply elem_of_cons in Ht as [->|Ht]; [|done].
      exists row, p. split_and!; [done..|].
      rewrite Hframe; [by apply lookup_insert_eq|].
      intros t Ht Heq. apply (inj price_col) in Heq. congruence.
Qed.

(** [for ticker in tickers: record[f"{ticker}_shares"] += ...] touches the
    share keys of the tickers only; in a dictionary of tickers each share
    count grows by one purchase. *)
Lemma buy_shares_Ok tickers monthly r r' :
  buy_shares tickers monthly r = Ok r' →
  date r' = date r ∧
  (∀ k, (∀ t, t ∈ tickers.*1 → k ≠ shares_col t) →
        fields r' !! k = fields r !! k) ∧
  (NoDup tickers.*1 → ∀ t, t ∈ tickers.*1 → ∃ s p w,
        fields r !! shares_col t = Some s ∧
        fields r !! price_col t = Some p ∧
        weight tickers t = Ok w ∧
        fields r' !! shares_col t =
          Some (add s (get_number_of_shares monthly p w))).
Proof.
  unfold buy_shares. generalize (tickers.*1). intros ts. revert r.
  induction ts as [|a ts IH]; intros r Hf; simpl in Hf.
  - inv_ok. split_and!; [done..|]. intros _ t Ht. by apply elem_of_nil in Ht.
  - apply bind_Ok in Hf as (r1 & Hbody & Hf). inv_ok.
    rename a0 into s, a1 into p, a2 into w.
    destruct (IH _ Hf) as (Hd & Hframe & Hex). split_and!.
    + done.
    + intros k Hk. rewrite Hframe by (intros t Ht; apply Hk; by right).
      simpl. apply lookup_insert_ne. apply not_eq_sym, Hk. by left.
    + intros Hnd t Ht. apply NoDup_cons in Hnd as [Hnin Hnd].
      apply elem_of_cons in Ht as [->|Ht].
      * exists s, p, w. split_and!; [done..|].
        rewrite Hframe; [by apply lookup_insert_eq|].
        intros t Ht Heq. apply (inj shares_col) in Heq. congruence.
      * destruct (Hex Hnd t Ht) as (s' & p' & w' & Hs & Hp & Hw & Hr').
        assert (t ≠ a) by congruence.
        exists s', p', w'. split_and!; [..|done|done].
        -- rewrite <- Hs. simpl. symmetry. apply lookup_insert_ne.
           intros Heq. by apply (inj shares_col) in Heq.
        -- rewrite <- Hp. simpl. symmetry. apply lookup_insert_ne.
           auto with keys.
Qed.

Lemma add_amount_invested_Ok monthly r r' :
  add_amount_invested monthly r = Ok r' →
  ∃ a, fields r !! "amount_invested" = Some a ∧
       r' = setitem "amount_invested" (add a monthly) r.
Proof. unfold add_amount_invested. intros Hf. inv_ok. eauto. Qed.

(** The revaluation rebinds ["portfolio_value"], to the sum of
    shares * price over the tickers, and nothing else. *)
Lemma update_portfolio_value_Ok tickers r r' :
  update_portfolio_value tickers r = Ok r' →
  ∃ v, holdings_value r tickers.*1 zero = Ok v ∧
       r' = setitem "portfolio_value" v r.
Proof.
  unfold update_portfolio_value, holdings_value.
  generalize (tickers.*1) (zero (num := num)). intros ts. revert r'.
  induction ts as [|a ts IH]; intros r' v0 Hf; simpl in Hf.
  - inv_ok. eauto.
  - apply bind_Ok in Hf as (r1 & Hbody & Hf). inv_ok.
    rename a0 into v, a1 into s, a2 into p. simpl in *.
    rewrite lookup_insert_eq in Ha. injection Ha as <-.
    rewrite lookup_insert_ne in Ha0 by auto with keys.
    rewrite lookup_insert_ne in Ha1 by auto with keys.
    unfold setitem in Hf. simpl in Hf. rewrite insert_insert_eq in Hf.
    destruct (IH _ _ Hf) as (v' & Hv' & ->).
    exists v'. split; [|done]. simpl.
    unfold getitem. by rewrite Ha0, Ha1.
Qed.

End Statements.

(** ** One day, and the sequence of days *)

Section Days.
Context {num : Type} `{!Arith num}.
Implicit Types (r : record (num := num)) (tickers : list (string * num)).
Implicit Types (df : DataFrame num) (k t : string) (rs : list (record (num := num))).

(** The dictionary display: the first date, every ticker's first price and
    the shares [initial_amount] buys at it, and [initial_amount] twice. *)
Lemma initial_record_Ok tickers df initial r0 :
  initial_record tickers df initial = Ok r0 →
  ∃ d0 row0 rest,
    df = (d0, row0) :: rest ∧
    date r0 = d0 ∧
    fields r0 !! "amount_invested" = Some initial ∧
    fields r0 !! "portfolio_value" = Some initial ∧
    ∀ t, t ∈ tickers.*1 → ∃ p w,
      row0 !! price_col t = Some p ∧
      weight tickers t = Ok w ∧
      fields r0 !! price_col t = Some p ∧
      fields r0 !! shares_col t = Some (get_number_of_shares initial p w).
Proof.
  unfold initial_record. intros Hf.
  apply bind_Ok in Hf as ([d0 row0] & Hhd & Hf).
  apply bind_Ok in Hf as (prices & Hpr & Hf).
  apply bind_Ok in Hf as (shares & Hsh & Hf).
  injection Hf as <-. simpl.
  apply from_option_Ok, head_Some in Hhd as [rest ->].
  assert (Hsnoc : ∀ a b : string * num,
            prices ++ shares ++ [a; b] = ((prices ++ shares) ++ [a]) ++ [b]).
  { intros a b. by rewrite <- !app_assoc. }
  exists d0, row0, rest. split_and!; [done..| | |].
  - rewrite Hsnoc, dict_of_snoc, lookup_insert_ne by auto with keys.
    by rewrite dict_of_snoc, lookup_insert_eq.
  - by rewrite Hsnoc, dict_of_snoc, lookup_insert_eq.
  - intros t Ht.
    destruct (collect_elem_of_l _ _ _ _ Hpr Ht) as ([k p] & Hp & Hpin).
    destruct (collect_elem_of_l _ _ _ _ Hsh Ht) as ([k' s] & Hs & Hsin).
    simpl in Hp, Hs. inv_ok. rename a into p', a0 into w.
    assert (p' = p) as -> by congruence.
    exists p, w. split_and!; [done..| |].
    + apply dict_of_lookup.
      { apply elem_of_app. by left. }
      intros v' [Hv'|[Hv'|Hv']%elem_of_app]%elem_of_app.
      * apply (collect_elem_of_r _ _ _ _ Hpr) in Hv' as (t' & _ & Hv').
        simpl in Hv'. inv_ok. apply (inj price_col) in Hv'. subst t'. congruence.
      * apply (collect_elem_of_r _ _ _ _ Hsh) in Hv' as (t' & _ & Hv').
        simpl in Hv'. inv_ok. by destruct (price_col_ne_shares t t').
      * apply elem_of_cons in Hv' as [Hv'|Hv'%list_elem_of_singleton];
          injection Hv' as Hk _.
        -- by destruct (price_col_ne_amount t).
        -- by destruct (price_col_ne_value t).
    + apply dict_of_lookup.
      { apply elem_of_app. right. apply elem_of_app. by left. }
      intros v' [Hv'|[Hv'|Hv']%elem_of_app]%elem_of_app.
      * apply (collect_elem_of_r _ _ _ _ Hpr) in Hv' as (t' & _ & Hv').
        simpl in Hv'. inv_ok. by destruct (price_col_ne_shares t' t).
      * apply (collect_elem_of_r _ _ _ _ Hsh) in Hv' as (t' & _ & Hv').
        simpl in Hv'. inv_ok. apply (inj shares_col) in Hv'. subst t'. congruence.
      * apply elem_of_cons in Hv' as [Hv'|Hv'%list_elem_of_singleton];
          injection Hv' as Hk _.
        -- by destruct (shares_col_ne_amount t).
        -- by destruct (shares_col_ne_value t).
Qed.

(** The stages of one iteration. *)
Lemma day_step_Ok tickers df monthly r day r' :
  day_step tickers df monthly r day = Ok r' →
  ∃ r1 r2 v,
    update_prices tickers df day (set_date day r) = Ok r1 ∧
    (if decide (day_of_month day = 1)
     then ∃ rb, buy_shares tickers monthly r1 = Ok rb ∧
                add_amount_invested monthly rb = Ok r2
     else r2 = r1) ∧
    holdings_value r2 tickers.*1 zero = Ok v ∧
    r' = setitem "portfolio_value" v r2.
Proof.
  unfold day_step. intros Hf.
  apply bind_Ok in Hf as (r1 & H1 & Hf). apply bind_Ok in Hf as (r2 & H2 & Hf).
  apply update_portfolio_value_Ok in Hf as (v & Hv & ->).
  exists r1, r2, v. split_and!; [done| |done..].
  case_decide; [|by inv_ok]. apply bind_Ok in H2 as (rb & Hb & H2). eauto.
Qed.

Lemma day_step_date tickers df monthly r day r' :
  day_step tickers df monthly r day = Ok r' → date r' = day.
Proof.
  intros (r1 & r2 & v & H1 & H2 & _ & ->)%day_step_Ok. simpl.
  apply update_prices_Ok in H1 as (Hd1 & _). simpl in Hd1.
  case_decide; [|by subst].
  destruct H2 as (rb & (Hdb & _)%buy_shares_Ok & (a & _ & ->)%add_amount_invested_Ok).
  simpl. congruence.
Qed.

(** ["amount_invested"] grows by [monthly_addition] on the 1st of a month
    and is left alone on any other day. *)
Lemma day_step_amount_invested tickers df monthly r day r' :
  day_step tickers df monthly r day = Ok r' →
  fields r' !! "amount_invested" =
    if decide (day_of_month day = 1)
    then (λ a, add a monthly) <$> fields r !! "amount_invested"
    else fields r !! "amount_invested".
Proof.
  intros (r1 & r2 & v & H1 & H2 & _ & ->)%day_step_Ok. simpl.
  rewrite lookup_insert_ne by auto with keys.
  apply update_prices_Ok in H1 as (_ & Hf1 & _). simpl in Hf1.
  rewrite <- (Hf1 "amount_invested") by auto with keys.
  case_decide; [|by subst].
  destruct H2 as (rb & (_ & Hfb & _)%buy_shares_Ok & (a & Ha & ->)%add_amount_invested_Ok).
  simpl. rewrite lookup_insert_eq.
  rewrite <- (Hfb "amount_invested") by auto with keys. by rewrite Ha.
Qed.

Lemma ledger_cons tickers df monthly r day days rs :
  ledger tickers df monthly r (day :: days) = Ok rs →
  ∃ r' rs', rs = r' :: rs' ∧
    day_step tickers df monthly r day = Ok r' ∧
    ledger tickers df monthly r' days = Ok rs'.
Proof. simpl. intros Hf. inv_ok. eauto. Qed.

Lemma ledger_length tickers df monthly days : ∀ r rs,
  ledger tickers df monthly r days = Ok rs → length rs = length days.
Proof.
  induction days as [|day days IH]; intros r rs Hf.
  - simpl in Hf. by inv_ok.
  - apply ledger_cons in Hf as (r' & rs' & -> & _ & Hf). simpl. eauto.
Qed.

(** Each record is the step of its predecessor on its own day. *)
Lemma ledger_lookup_S tickers df monthly days : ∀ r rs i r1 r2,
  ledger tickers df monthly r days = Ok rs →
  rs !! i = Some r1 → rs !! S i = Some r2 →
  ∃ day, days !! S i = Some day ∧ day_step tickers df monthly r1 day = Ok r2.
Proof.
  induction days as [|day days IH]; intros r rs i r1 r2 Hf H1 H2.
  - simpl in Hf. inv_ok. done.
  - apply ledger_cons in Hf as (r' & rs' & -> & _ & Hf).
    destruct i as [|i]; [|by eauto].
    simpl in H1, H2. injection H1 as ->.
    destruct days as [|day' days]; [simpl in Hf; by inv_ok|].
    apply ledger_cons in Hf as (r'' & rs'' & -> & Hs & _).
    simpl in H2. injection H2 as ->. eauto.
Qed.

(** The record at position [i] is the working dictionary after [i + 1]
    iterations. *)
Lemma ledger_lookup tickers df monthly days : ∀ r rs i r',
  ledger tickers df monthly r days = Ok rs →
  rs !! i = Some r' →
  foldM (day_step tickers df monthly) r (take (S i) days) = Ok r' ∧
  days !! i = Some (date r').
Proof.
  induction days as [|day days IH]; intros r rs i r' Hf Hi.
  - simpl in Hf. inv_ok. done.
  - apply ledger_cons in Hf as (r1 & rs' & -> & Hs & Hf). simpl. rewrite Hs.
    destruct i as [|i]; simpl in *.
    + injection Hi as ->. by rewrite (day_step_date _ _ _ _ _ _ Hs).
    + by apply (IH _ _ _ _ Hf).
Qed.

Lemma get_portfolio_Ok tickers df initial monthly rs :
  get_portfolio tickers df initial monthly = Ok rs →
  neq (sum_weights tickers) one = false ∧
  ∃ r0, initial_record tickers df initial = Ok r0 ∧
        ledger tickers df monthly r0 df.*1 = Ok rs.
Proof.
  rewrite get_portfolio_ledger.
  destruct (neq (sum_weights tickers) one); [done|]. intros Hf.
  apply bind_Ok in Hf as (r0 & H0 & Hf). eauto.
Qed.

End Days.

(** ** The exceptions a run can raise *)

Lemma from_option_Raise {A} (e e' : exn) (o : option A) :
  from_option e o = Raise e' → e' = e.
Proof. destruct o; simpl; congruence. Qed.

Lemma bind_Raise {A B} (m : result A) (k : A → result B) (e : exn) :
  (m ≫= k) = Raise e → m = Raise e ∨ ∃ a, m = Ok a ∧ k a = Raise e.
Proof.
  destruct m as [a|e']; intros Hr; [right; exists a; by split|].
  left. injection Hr as ->. done.
Qed.

Lemma foldM_Raise {A B} (f : B → A → result B) (P : exn → Prop) (l : list A) :
  (∀ b a e, f b a = Raise e → P e) →
  ∀ b e, foldM f b l = Raise e → P e.
Proof.
  intros Hf. induction l as [|a l IH]; intros b e Hr; simpl in Hr; [done|].
  apply bind_Raise in Hr as [Hr|(b' & _ & Hr)]; eauto.
Qed.

Lemma collect_Raise {A B} (f : A → result B) (P : exn → Prop) (l : list A) :
  (∀ a e, f a = Raise e → P e) →
  ∀ e, collect f l = Raise e → P e.
Proof.
  intros Hf. induction l as [|a l IH]; intros e Hr; simpl in Hr; [done|].
  apply bind_Raise in Hr as [Hr|(b & _ & Hr)]; [eauto|].
  apply bind_Raise in Hr as [Hr|(bs & _ & Hr)]; [eauto|done].
Qed.

(** Case analysis of a raising run of the error monad, down to the
    look-up that failed. *)
Ltac inv_raise :=
  repeat match goal with
  | H : Raise _ = Raise _ |- _ => injection H as <-
  | H : Ok _ = Raise _ |- _ => discriminate H
  | H : (_ ≫= _) = Raise _ |- _ => apply bind_Raise in H as [H|(? & _ & H)]
  | H : from_option _ _ = Raise _ |- _ => apply from_option_Raise in H as ->
  | H : cell _ _ = Raise _ |- _ => apply from_option_Raise in H as ->
  | H : getitem _ _ = Raise _ |- _ => apply from_option_Raise in H as ->
  | H : iloc0 _ = Raise _ |- _ => apply from_option_Raise in H as ->
  | H : loc _ _ = Raise _ |- _ => exact (loc_Raise _ _ _ H)
  | H : weight _ _ = Raise _ |- _ => unfold weight in H
  end; try exact I.

Section Exceptions.
Context {num : Type} `{!Arith num}.
Implicit Types (r : record (num := num)) (tickers : list (string * num)).
Implicit Types (df : DataFrame num).

Lemma initial_record_Raise tickers df initial e :
  initial_record tickers df initial = Raise e → lookup_error e.
Proof.
  unfold initial_record. intros Hr.
  apply bind_Raise in Hr as [Hr|(first & _ & Hr)]; [by inv_raise|].
  apply bind_Raise in Hr as [Hr|(prices & _ & Hr)].
  { revert e Hr. apply collect_Raise. intros t e Hr. by inv_raise. }
  apply bind_Raise in Hr as [Hr|(shares & _ & Hr)]; [|done].
  revert e Hr. apply collect_Raise. intros t e Hr. by inv_raise.
Qed.

Lemma day_step_Raise tickers df monthly r day e :
  day_step tickers df monthly r day = Raise e → lookup_error e.
Proof.
  unfold day_step. intros Hr.
  apply bind_Raise in Hr as [Hr|(r1 & _ & Hr)].
  { revert Hr. apply foldM_Raise. intros r' t e' Hr. by inv_raise. }
  apply bind_Raise in Hr as [Hr|(r2 & _ & Hr)].
  - case_decide; [|done].
    apply bind_Raise in Hr as [Hr|(rb & _ & Hr)].
    + revert Hr. apply foldM_Raise. intros r' t e' Hr. by inv_raise.
    + unfold add_amount_invested in Hr. by inv_raise.
  - revert Hr. apply foldM_Raise. intros r' t e' Hr. by inv_raise.
Qed.

Lemma ledger_Raise tickers df monthly days : ∀ r e,
  ledger tickers df monthly r days = Raise e → lookup_error e.
Proof.
  induction days as [|day days IH]; intros r e Hr; simpl in Hr; [done|].
  apply bind_Raise in Hr as [Hr|(r' & _ & Hr)]; [by eapply day_step_Raise|].
  apply bind_Raise in Hr as [Hr|(rs & _ & Hr)]; [eauto|done].
Qed.

(** The weight check decides whether [ValueError] is raised, on any
    carrier. *)
Lemma get_portfolio_ValueError tickers df initial monthly :
  get_portfolio tickers df initial monthly =
    Raise (ValueError tickers_weights_should_sum_up_to_1)
  ↔ neq (sum_weights tickers) one = true.
Proof.
  rewrite get_portfolio_ledger.
  destruct (neq (sum_weights tickers) one); [done|]. split; [|done].
  intros Hr. apply bind_Raise in Hr as [Hr|(r0 & _ & Hr)].
  - by apply initial_record_Raise in Hr.
  - by apply ledger_Raise in Hr.
Qed.

End Exceptions.

(** ** The weight check *)

(** C4. On binary64 floats, as [sum] adds them: a run whose weights sum to
    0.95 or to 1.05 raises the weights [ValueError] and returns no row; a
    run whose weights sum to 1 does not raise it. *)
Theorem weights_sum_check (tickers : list (string * float))
    (df : DataFrame float) (initial monthly : float) :
  ((sum_weights tickers = 0.95%float ∨ sum_weights tickers = 1.05%float) →
   get_portfolio tickers df initial monthly =
     Raise (ValueError tickers_weights_should_sum_up_to_1)) ∧
  (sum_weights tickers = 1%float →
   get_portfolio tickers df initial monthly ≠
     Raise (ValueError tickers_weights_should_sum_up_to_1)).
Proof.
  rewrite get_portfolio_ValueError. split.
  - by intros [-> | ->].
  - by intros ->.
Qed.

(** Weights 0.7 and 0.25, whose sum is 0.95, and 0.8 and 0.25, whose sum is
    1.05, are refused; 0.8 and 0.2, whose sum is 1, pass the check. *)
Lemma weights_sum_check_witness :
  get_portfolio [("A"%string, 0.7%float); ("B"%string, 0.25%float)]
    (flat_prices "A" 1%float [18628]) 100%float 0%float
    = Raise (ValueError tickers_weights_should_sum_up_to_1) ∧
  get_portfolio [("A"%string, 0.8%float); ("B"%string, 0.25%float)]
    (flat_prices "A" 1%float [18628]) 100%float 0%float
    = Raise (ValueError tickers_weights_should_sum_up_to_1) ∧
  get_portfolio [("A"%string, 0.8%float); ("B"%string, 0.2%float)]
    (flat_prices "A" 1%float [18628]) 100%float 0%float
    ≠ Raise (ValueError tickers_weights_should_sum_up_to_1).
Proof.
  split_and!.
  - apply (proj1 (weights_sum_check _ _ _ _)). left. vm_compute; reflexivity.
  - apply (proj1 (weights_sum_check _ _ _ _)). right. vm_compute; reflexivity.
  - apply (proj2 (weights_sum_check _ _ _ _)). vm_compute; reflexivity.
Defined.

(** The sum is the float sum, left to right from 0: the weights 0.7, 0.2,
    0.1 and 0.6, 0.1, 0.2, 0.1 add up to 0.9999999999999999 and are
    refused; 0.8 and 0.2 add up to 1 and the run goes on to the empty
    frame. *)
Example weights_sum_check_binary64 :
  sum_weights [("A"%string, 0.7%float); ("B"%string, 0.2%float);
               ("C"%string, 0.1%float)] = 0x1.fffffffffffffp-1%float ∧
  get_portfolio [("A"%string, 0.7%float); ("B"%string, 0.2%float);
                 ("C"%string, 0.1%float)]
    (flat_prices "A" 1%float []) 100%float 0%float
    = Raise (ValueError tickers_weights_should_sum_up_to_1) ∧
  get_portfolio [("A"%string, 0.6%float); ("B"%string, 0.1%float);
                 ("C"%string, 0.2%float); ("D"%string, 0.1%float)]
    (flat_prices "A" 1%float []) 100%float 0%float
    = Raise (ValueError tickers_weights_should_sum_up_to_1) ∧
  get_portfolio [("A"%string, 0.8%float); ("B"%string, 0.2%float)]
    (flat_prices "A" 1%float []) 100%float 0%float
    = Raise IndexError.
Proof. split_and!; vm_compute; reflexivity. Qed.

(** ** Contribution cadence *)

Section Cadence.
Context {num : Type} `{!Arith num}.
Implicit Types (r : record (num := num)) (tickers : list (string * num)).

Lemma foldM_day_step_amount_invested tickers df monthly days : ∀ r r',
  foldM (day_step tickers df monthly) r days = Ok r' →
  is_Some (fields r !! "amount_invested") →
  is_Some (fields r' !! "amount_invested").
Proof.
  induction days as [|day days IH]; intros r r' Hf Hs; simpl in Hf.
  - by inv_ok.
  - apply bind_Ok in Hf as (r1 & H1 & Hf). apply (IH _ _ Hf).
    rewrite (day_step_amount_invested _ _ _ _ _ _ H1).
    case_decide; [|done]. by apply fmap_is_Some.
Qed.

(** C6. Between two consecutive rows, ["amount_invested"] grows by exactly
    [monthly_addition] when the later row is dated the 1st of a month, and
    does not change otherwise. *)
Theorem amount_invested_cadence tickers (df : DataFrame num) initial monthly
    rs i r1 r2 :
  get_portfolio tickers df initial monthly = Ok rs →
  rs !! i = Some r1 →
  rs !! S i = Some r2 →
  ∃ a1,
    fields r1 !! "amount_invested" = Some a1 ∧
    fields r2 !! "amount_invested" =
      Some (if decide (day_of_month (date r2) = 1) then add a1 monthly else a1).
Proof.
  intros (_ & r0 & H0 & Hl)%get_portfolio_Ok H1 H2.
  destruct (ledger_lookup_S _ _ _ _ _ _ _ _ _ Hl H1 H2) as (day & _ & Hs).
  destruct (ledger_lookup _ _ _ _ _ _ _ _ Hl H1) as [Hf _].
  apply initial_record_Ok in H0 as (d0 & row0 & rest & _ & _ & Ha0 & _).
  destruct (foldM_day_step_amount_invested _ _ _ _ _ _ Hf) as [a1 Ha1]; [by eauto|].
  exists a1. split; [done|].
  rewrite (day_step_amount_invested _ _ _ _ _ _ Hs), (day_step_date _ _ _ _ _ _ Hs).
  rewrite Ha1. by case_decide.
Qed.

End Cadence.

(** From 2020-12-31 to 2021-01-01 the amount invested goes from 1000 to
    1000 + 200. *)
Lemma amount_invested_cadence_witness :
  ∃ a1 : Q,
    fields (row_at new_year_run_Q 0) !! "amount_invested" = Some a1 ∧
    fields (row_at new_year_run_Q 1) !! "amount_invested" =
      Some (if decide (day_of_month (date (row_at new_year_run_Q 1)) = 1)
            then add a1 200%Q else a1).
Proof.
  assert (Hrun : get_portfolio [("X"%string, 1%Q)]
                   (flat_prices "X" 10%Q new_year_2021) 1000%Q 200%Q
                 = Ok (rows new_year_run_Q)) by (vm_compute; reflexivity).
  assert (H0 : rows new_year_run_Q !! 0%nat = Some (row_at new_year_run_Q 0))
    by (vm_compute; reflexivity).
  assert (H1 : rows new_year_run_Q !! 1%nat = Some (row_at new_year_run_Q 1))
    by (vm_compute; reflexivity).
  exact (amount_invested_cadence _ _ _ _ _ _ _ _ Hrun H0 H1).
Defined.

(** ** Appended records are snapshots *)

Section Snapshots.
Context {num : Type} `{!Arith num}.
Implicit Types (r : record (num := num)) (tickers : list (string * num)).
Implicit Types (h : list (record (num := num))).

(** C10. When the loop has ended, with [l] the working dictionary, [refs]
    the appended references and [h] the heap: the appended objects are
    pairwise distinct and distinct from the working dictionary, there is
    one per day, and the object appended on day [i] still holds the value
    the working dictionary had at the end of iteration [i], dated that
    day; these values are the rows [get_portfolio] returns. *)
Theorem appended_copies_are_snapshots tickers (df : DataFrame num)
    initial monthly l refs h :
  get_portfolio_loop tickers df initial monthly [] = Ok ((l, refs), h) →
  ∃ r0 rs,
    initial_record tickers df initial = Ok r0 ∧
    get_portfolio tickers df initial monthly = Ok rs ∧
    length refs = length df ∧
    NoDup refs ∧
    ∀ i c, refs !! i = Some c →
      c ≠ l ∧
      ∃ r, h !! c = Some r ∧
           rs !! i = Some r ∧
           foldM (day_step tickers df monthly) r0 (take (S i) df.*1) = Ok r ∧
           df.*1 !! i = Some (date r).
Proof.
  intros Hloop.
  assert (Hrun : get_portfolio tickers df initial monthly
                 = (rows_h ← rows_of refs h; Ok rows_h.1)).
  { unfold get_portfolio. by rewrite M_bind_eq, Hloop. }
  apply get_portfolio_loop_Ok in Hloop as (r0 & rs & H0 & Hl & Hs).
  rewrite (rows_of_snapshots _ _ _ _ Hs) in Hrun. simpl in Hrun.
  destruct Hs as [Hnd Hs].
  exists r0, rs. split_and!; [done..| |done|].
  - rewrite (Forall2_length _ _ _ Hs), (ledger_length _ _ _ _ _ _ Hl).
    by rewrite length_fmap.
  - intros i c Hc.
    destruct (Forall2_lookup_l _ _ _ _ _ Hs Hc) as (r & Hr & Hne & Hh).
    split; [done|]. exists r. split_and!; [done..| |];
      by destruct (ledger_lookup _ _ _ _ _ _ _ _ Hl Hr).
Qed.

End Snapshots.

(** The three days around New Year 2021: the objects 1, 2 and 3 of the
    final heap are the three rows, and object 0 is the working
    dictionary. *)
Lemma appended_copies_are_snapshots_witness :
  ∃ r0 rs,
    initial_record [("X"%string, 1%Q)] (flat_prices "X" 10%Q new_year_2021)
      1000%Q = Ok r0 ∧
    new_year_run_Q = Ok rs ∧
    length [1; 2; 3]%nat = length (flat_prices "X" 10%Q new_year_2021) ∧
    NoDup [1; 2; 3]%nat ∧
    ∀ i c, [1; 2; 3]%nat !! i = Some c →
      c ≠ 0%nat ∧
      ∃ r, (row_at new_year_run_Q 2 :: rows new_year_run_Q) !! c = Some r ∧
           rs !! i = Some r ∧
           foldM (day_step [("X"%string, 1%Q)]
                    (flat_prices "X" 10%Q new_year_2021) 200%Q)
             r0 (take (S i) (flat_prices "X" 10%Q new_year_2021).*1) = Ok r ∧
           (flat_prices "X" 10%Q new_year_2021).*1 !! i = Some (date r).
Proof.
  apply (appended_copies_are_snapshots [("X"%string, 1%Q)]
           (flat_prices "X" 10%Q new_year_2021) 1000%Q 200%Q).
  vm_compute. reflexivity.
Defined.

(** Had the loop appended the working dictionary itself, the three rows of
    the New Year run would all be the last day's: the first row would show
    2021-01-02 and 1200 invested, where the notebook's first row shows
    2020-12-31 and 1000. *)
Example rows_without_copy_alias :
  get_portfolio_without_copy [("X"%string, 1%Q)]
      (flat_prices "X" 10%Q new_year_2021) 1000%Q 200%Q
    = Ok [row_at new_year_run_Q 2; row_at new_year_run_Q 2;
          row_at new_year_run_Q 2] ∧
  date (row_at new_year_run_Q 2) = 18629 ∧
  date (row_at new_year_run_Q 0) = 18627 ∧
  fields (row_at new_year_run_Q 2) !! "amount_invested" = Some (1000 + 200)%Q ∧
  fields (row_at new_year_run_Q 0) !! "amount_invested" = Some 1000%Q.
Proof. split_and!; vm_compute; reflexivity. Qed.

(** ** Shares are only bought *)

Lemma get_number_of_shares_nonneg (amount price weight : Q) :
  (0 <= amount)%Q → (0 < price)%Q → (0 <= weight)%Q →
  (0 <= get_number_of_shares amount price weight)%Q.
Proof.
  intros Ha Hp Hw. unfold get_number_of_shares. simpl.
  apply Qmult_le_0_compat; [|done]. by apply Qle_shift_div_l; [|rewrite Qmult_0_l].
Qed.

(** The purchase loop never lowers an entry of the dictionary. *)
Lemma buy_shares_monotone (tickers : list (string * Q)) (monthly : Q) r r' :
  (0 <= monthly)%Q →
  (∀ t w, (t, w) ∈ tickers → (0 <= w)%Q) →
  (∀ t p, t ∈ tickers.*1 → fields r !! price_col t = Some p → (0 < p)%Q) →
  buy_shares tickers monthly r = Ok r' →
  ∀ k s, fields r !! k = Some s →
         ∃ s', fields r' !! k = Some s' ∧ (s <= s')%Q.
Proof.
  intros Hm Hw. unfold buy_shares. generalize (tickers.*1). intros ts. revert r.
  induction ts as [|a ts IH]; intros r Hp Hf k s Hk; simpl in Hf.
  - inv_ok. exists s. split; [done|apply Qle_refl].
  - apply bind_Ok in Hf as (r1 & Hbody & Hf). inv_ok.
    rename a0 into sa, a1 into p, a2 into w.
    assert (Hbuy : (0 <= get_number_of_shares monthly p w)%Q).
    { apply get_number_of_shares_nonneg; [done| |by eauto using weight_elem_of].
      apply (Hp a); [by left|done]. }
    assert (∃ s1, fields (setitem (shares_col a)
                    (add sa (get_number_of_shares monthly p w)) r) !! k = Some s1
                  ∧ (s <= s1)%Q) as (s1 & Hs1 & Hle1).
    { simpl fields. destruct (decide (k = shares_col a)) as [->|Hne].
      - rewrite lookup_insert_eq. eexists. split; [done|].
        assert (sa = s) as -> by congruence. simpl.
        rewrite <- (Qplus_0_r s) at 1. by apply Qplus_le_r.
      - rewrite lookup_insert_ne by done. exists s. split; [done|apply Qle_refl]. }
    destruct (λ Hp1, IH _ Hp1 Hf _ _ Hs1) as (s' & Hs' & Hle').
    + intros t p' Ht Hp'. simpl in Hp'.
      rewrite lookup_insert_ne in Hp' by auto with keys.
      apply (Hp t); [by right|done].
    + exists s'. split; [done|]. by apply (Qle_trans _ s1).
Qed.

(** C5, as amended. In exact arithmetic, between two consecutive rows no
    ticker's share count decreases, when the monthly addition and the
    weights are non-negative and the prices positive. *)
Theorem shares_monotone (tickers : list (string * Q)) (df : DataFrame Q)
    (initial monthly : Q) rs i r1 r2 :
  (0 <= monthly)%Q →
  (∀ t w, (t, w) ∈ tickers → (0 <= w)%Q) →
  (∀ day row col p, (day, row) ∈ df → row !! col = Some p → (0 < p)%Q) →
  get_portfolio tickers df initial monthly = Ok rs →
  rs !! i = Some r1 →
  rs !! S i = Some r2 →
  ∀ t s1, fields r1 !! shares_col t = Some s1 →
          ∃ s2, fields r2 !! shares_col t = Some s2 ∧ (s1 <= s2)%Q.
Proof.
  intros Hm Hw Hpos (_ & r0 & _ & Hl)%get_portfolio_Ok H1 H2 t s1 Hs1.
  destruct (ledger_lookup_S _ _ _ _ _ _ _ _ _ Hl H1 H2) as (day & _ & Hs).
  apply day_step_Ok in Hs as (ra & rb & v & Hup & Hbuy & _ & ->).
  apply update_prices_Ok in Hup as (_ & Hframe & Hprices).
  simpl in Hframe |- *. rewrite lookup_insert_ne by auto with keys.
  rewrite <- (Hframe (shares_col t)) in Hs1 by auto with keys.
  case_decide as Hday; [|subst rb; exists s1; split; [done|apply Qle_refl]].
  destruct Hbuy as (rc & Hbuy & (a & _ & ->)%add_amount_invested_Ok).
  simpl. rewrite lookup_insert_ne by auto with keys.
  eapply buy_shares_monotone; [done..| |done|done].
  intros t' p Ht' Hp. destruct (Hprices _ Ht') as (row & p' & Hloc & Hrow & Hra).
  assert (p' = p) as -> by congruence.
  eauto using loc_elem_of.
Qed.

(** ** The first row *)

Section FirstRow.
Context {num : Type} `{!Arith num}.
Implicit Types (r : record (num := num)) (tickers : list (string * num)).

Lemma holdings_value_setitem r v ts : ∀ v0,
  holdings_value (setitem "portfolio_value" v r) ts v0 = holdings_value r ts v0.
Proof.
  unfold holdings_value, getitem. induction ts as [|t ts IH]; intros v0; [done|].
  simpl. rewrite !lookup_insert_ne by auto with keys.
  destruct (fields r !! shares_col t); [|done].
  destruct (fields r !! price_col t); [|done]. apply IH.
Qed.

(** The first row is the initial dictionary after one iteration on the
    first date: when that date is the 1st of a month it holds the initial
    purchase and one monthly purchase, at the same prices. *)
Lemma first_row tickers (df : DataFrame num) initial monthly rs r :
  NoDup tickers.*1 →
  get_portfolio tickers df initial monthly = Ok rs →
  rs !! 0%nat = Some r →
  ∃ d0 row0 rest,
    df = (d0, row0) :: rest ∧
    date r = d0 ∧
    fields r !! "amount_invested" =
      Some (if decide (day_of_month d0 = 1) then add initial monthly else initial) ∧
    (∀ t, t ∈ tickers.*1 → ∃ p w,
        row0 !! price_col t = Some p ∧
        weight tickers t = Ok w ∧
        fields r !! price_col t = Some p ∧
        fields r !! shares_col t =
          Some (if decide (day_of_month d0 = 1)
                then add (get_number_of_shares initial p w)
                         (get_number_of_shares monthly p w)
                else get_number_of_shares initial p w)) ∧
    ∃ v, holdings_value r tickers.*1 zero = Ok v ∧
         fields r !! "portfolio_value" = Some v.
Proof.
  intros Hnd (_ & r0 & H0 & Hl)%get_portfolio_Ok Hr.
  apply initial_record_Ok in H0 as (d0 & row0 & rest & -> & _ & Ha0 & _ & Ht0).
  apply ledger_cons in Hl as (r' & rs' & -> & Hs & _). injection Hr as ->.
  exists d0, row0, rest.
  pose proof (day_step_date _ _ _ _ _ _ Hs) as Hdate.
  pose proof (day_step_amount_invested _ _ _ _ _ _ Hs) as Hamount.
  apply day_step_Ok in Hs as (ra & rb & v & Hup & Hbuy & Hv & ->).
  apply update_prices_Ok in Hup as (_ & Hframe & Hprices).
  cbn [fst] in *. simpl in Hframe.
  split_and!; [done..| | |].
  - rewrite Hamount, Ha0. by case_decide.
  - intros t Ht. destruct (Ht0 _ Ht) as (p & w & Hp & Hw & _ & Hsh).
    exists p, w. simpl. rewrite !lookup_insert_ne by auto with keys.
    destruct (Hprices _ Ht) as (row & p' & ->%loc_head & Hp' & Hra).
    assert (p' = p) as -> by congruence.
    rewrite <- (Hframe (shares_col t)) in Hsh by auto with keys.
    case_decide; [|by subst rb].
    destruct Hbuy as (rc & (_ & Hfc & Hbuy)%buy_shares_Ok
                         & (a & _ & ->)%add_amount_invested_Ok).
    simpl. rewrite !lookup_insert_ne by auto with keys.
    rewrite (Hfc (price_col t)) by auto with keys.
    destruct (Hbuy Hnd _ Ht) as (s & p' & w' & Hs & Hp'' & Hw' & ->).
    split_and!; [done..|]. repeat f_equal; congruence.
  - exists v. simpl. by rewrite holdings_value_setitem, lookup_insert_eq.
Qed.

(** C2, as amended. When the first date is the 1st of a month, the first
    row has [initial_amount + monthly_addition] invested, and of each
    ticker the shares of two purchases at the first day's price,
    [initial_amount / price * weight + monthly_addition / price * weight],
    each operation as the carrier computes it. *)
Theorem first_of_month_start tickers (df : DataFrame num) initial monthly
    rs r d0 row0 :
  NoDup tickers.*1 →
  get_portfolio tickers df initial monthly = Ok rs →
  rs !! 0%nat = Some r →
  df !! 0%nat = Some (d0, row0) →
  day_of_month d0 = 1 →
  fields r !! "amount_invested" = Some (add initial monthly) ∧
  ∀ t w p, (t, w) ∈ tickers → row0 !! price_col t = Some p →
    fields r !! shares_col t =
      Some (add (mul (div initial p) w) (mul (div monthly p) w)).
Proof.
  intros Hnd Hrun Hr Hdf Hday.
  destruct (first_row _ _ _ _ _ _ Hnd Hrun Hr)
    as (d & row & rest & -> & _ & Ha & Ht & _).
  injection Hdf as -> ->. rewrite decide_True in Ha by done. split; [done|].
  intros t w p Hin Hp.
  destruct (Ht t) as (p' & w' & Hp' & Hw' & _ & Hs).
  { by apply (list_elem_of_fmap_2 fst _ (t, w)). }
  rewrite decide_True in Hs by done.
  assert (p' = p) as -> by congruence.
  rewrite (weight_NoDup _ _ _ Hnd Hin) in Hw'. by injection Hw' as <-.
Qed.

End FirstRow.

(** ** The first row in exact arithmetic *)

Lemma get_number_of_shares_value (amount price weight : Q) :
  ¬ (price == 0)%Q →
  (get_number_of_shares amount price weight * price == amount * weight)%Q.
Proof. intros Hp. unfold get_number_of_shares. simpl. by field. Qed.

(** A dictionary in which every ticker's holding is worth [A * weight] is
    worth [A] times the sum of the weights. *)
Lemma holdings_value_weighted (r : record (num := Q)) (A : Q)
    (l : list (string * Q)) :
  (∀ t w, (t, w) ∈ l → ∃ s p,
      fields r !! shares_col t = Some s ∧
      fields r !! price_col t = Some p ∧
      (s * p == A * w)%Q) →
  ∀ v0 v c, holdings_value r l.*1 v0 = Ok v →
            (v + A * c == v0 + A * foldl Qplus c l.*2)%Q.
Proof.
  unfold holdings_value.
  induction l as [|[t w] l IH]; intros Hl v0 v c Hf; simpl in Hf.
  - inv_ok. simpl. reflexivity.
  - apply bind_Ok in Hf as (v1 & Hbody & Hf). inv_ok. rename a into s, a0 into p.
    destruct (Hl t w) as (s' & p' & Hs' & Hp' & Hsp); [by left|].
    assert (s' = s) as -> by congruence. assert (p' = p) as -> by congruence.
    specialize (IH (λ t' w' Hin, Hl t' w' (list_elem_of_further _ _ _ Hin))
                  _ _ (c + w)%Q Hf).
    change (((t, w) :: l).*2) with (w :: l.*2). cbn [foldl].
    apply (Qplus_inj_r _ _ (A * w)).
    transitivity (v + A * (c + w))%Q; [ring|]. rewrite IH, Hsp. simpl. ring.
Qed.

Section FirstRowExact.
Implicit Types (r : record (num := Q)) (tickers : list (string * Q)).
Implicit Types (df : DataFrame Q).

(** In exact arithmetic the two purchases of a first day on the 1st of a
    month come to [(initial_amount + monthly_addition) * weight / price]
    shares, at a price other than zero. *)
Lemma first_of_month_start_exact tickers df (initial monthly : Q) rs r d0 row0 :
  NoDup tickers.*1 →
  get_portfolio tickers df initial monthly = Ok rs →
  rs !! 0%nat = Some r →
  df !! 0%nat = Some (d0, row0) →
  day_of_month d0 = 1 →
  fields r !! "amount_invested" = Some (initial + monthly)%Q ∧
  ∀ t w p, (t, w) ∈ tickers → row0 !! price_col t = Some p → ¬ (p == 0)%Q →
    ∃ s, fields r !! shares_col t = Some s ∧
         (s == (initial + monthly) * w / p)%Q.
Proof.
  intros Hnd Hrun Hr Hdf Hday.
  destruct (first_row _ _ _ _ _ _ Hnd Hrun Hr)
    as (d & row & rest & -> & _ & Ha & Ht & _).
  injection Hdf as -> ->. rewrite decide_True in Ha by done. split; [done|].
  intros t w p Hin Hp Hp0.
  destruct (Ht t) as (p' & w' & Hp' & Hw' & _ & Hs).
  { by apply (list_elem_of_fmap_2 fst _ (t, w)). }
  rewrite decide_True in Hs by done.
  assert (p' = p) as -> by congruence.
  rewrite (weight_NoDup _ _ _ Hnd Hin) in Hw'. injection Hw' as <-.
  eexists. split; [done|]. unfold get_number_of_shares. simpl. by field.
Qed.

(** C3, as amended. With prices other than zero on the first day, the first
    row's portfolio value is [initial_amount] when the first date is not
    the 1st of a month, and [initial_amount + monthly_addition] when it
    is. *)
Theorem first_portfolio_value tickers df (initial monthly : Q) rs r d0 row0 :
  NoDup tickers.*1 →
  (∀ col p, row0 !! col = Some p → ¬ (p == 0)%Q) →
  get_portfolio tickers df initial monthly = Ok rs →
  rs !! 0%nat = Some r →
  df !! 0%nat = Some (d0, row0) →
  ∃ v, fields r !! "portfolio_value" = Some v ∧
       (v == if decide (day_of_month d0 = 1%Z)
             then initial + monthly else initial)%Q.
Proof.
  intros Hnd Hpos Hrun Hr Hdf.
  destruct (first_row _ _ _ _ _ _ Hnd Hrun Hr)
    as (d & row & rest & -> & _ & _ & Ht & v & Hv & Hpv).
  injection Hdf as -> ->. exists v. split; [done|].
  apply get_portfolio_Ok in Hrun as [Hsum _]. simpl in Hsum.
  apply negb_false_iff, Qeq_bool_iff in Hsum. unfold sum_weights in Hsum.
  set (A := (if decide (day_of_month d0 = 1%Z)
             then initial + monthly else initial)%Q).
  assert (Hhold : ∀ t w, (t, w) ∈ tickers → ∃ s p,
            fields r !! shares_col t = Some s ∧
            fields r !! price_col t = Some p ∧ (s * p == A * w)%Q).
  { intros t w Hin.
    destruct (Ht t) as (p & w' & Hp & Hw' & Hrp & Hs).
    { by apply (list_elem_of_fmap_2 fst _ (t, w)). }
    rewrite (weight_NoDup _ _ _ Hnd Hin) in Hw'. injection Hw' as <-.
    eexists _, p. split_and!; [done..|]. subst A.
    pose proof (Hpos _ _ Hp) as Hp0.
    case_decide; cbn [add Q_arith].
    - rewrite Qmult_plus_distr_l, !get_number_of_shares_value by done. ring.
    - by apply get_number_of_shares_value. }
  simpl in Hv. rewrite <- (Qplus_0_r v), <- (Qmult_0_r A).
  rewrite (holdings_value_weighted r A tickers Hhold _ _ 0%Q Hv), Hsum. ring.
Qed.

End FirstRowExact.

(** ** A flat price: the concrete scenario *)

Section FlatScenario.
Variable days : list Z.
Hypothesis days_NoDup : NoDup days.

Local Abbreviation tickers := [("X"%string, 1%Q)].
Local Abbreviation df := (flat_prices "X" 10%Q days).

Lemma flat_prices_dates {num} (t : string) (p : num) (ds : list Z) :
  (flat_prices t p ds).*1 = ds.
Proof.
  unfold flat_prices. rewrite <- list_fmap_compose. apply list_fmap_id.
Qed.

Lemma loc_flat_prices {num} (t : string) (p : num) (ds : list Z) day :
  NoDup ds → day ∈ ds → loc (flat_prices t p ds) day = Ok {[price_col t := p]}.
Proof.
  intros Hnd Hin. apply loc_NoDup; [by rewrite flat_prices_dates|].
  by apply (list_elem_of_fmap_2 (λ day, (day, {[price_col t := p]}))).
Qed.

Lemma fields_setitem {num} k (v : num) r :
  fields (setitem k v r) = <[k := v]> (fields r).
Proof. reflexivity. Qed.

Lemma contributions_cons day ds :
  contributions (day :: ds) =
    ((if decide (day_of_month day = 1%Z) then 1 else 0) + contributions ds)%nat.
Proof. unfold contributions. rewrite filter_cons. by case_decide. Qed.

Lemma buy_shares_single (monthly : Q) r s p :
  fields r !! "X_shares" = Some s →
  fields r !! "X_price" = Some p →
  buy_shares tickers monthly r =
    Ok (setitem "X_shares" (s + monthly / p * 1)%Q r).
Proof.
  intros Hs Hp. unfold buy_shares, getitem. simpl.
  change (shares_col "X") with "X_shares"%string.
  change (price_col "X") with "X_price"%string.
  by rewrite Hs, Hp.
Qed.

Lemma update_portfolio_value_single r s p :
  fields r !! "X_shares" = Some s →
  fields r !! "X_price" = Some p →
  update_portfolio_value tickers r =
    Ok (setitem "portfolio_value" (0 + s * p)%Q r).
Proof.
  intros Hs Hp. unfold update_portfolio_value, getitem. simpl.
  change (shares_col "X") with "X_shares"%string.
  change (price_col "X") with "X_price"%string.
  rewrite lookup_insert_eq, !lookup_insert_ne, Hs, Hp by done. simpl.
  unfold setitem. simpl. by rewrite insert_insert_eq.
Qed.

Lemma day_step_flat k r day :
  funded k r → day ∈ days →
  ∃ r', day_step tickers df 200%Q r day = Ok r' ∧
        date r' = day ∧
        funded (k + contributions [day]) r' ∧
        field_is r' "portfolio_value"
          (1000 + 200 * inject_Z (Z.of_nat (k + contributions [day]))).
Proof.
  intros [(s & Hs & Hs') (a & Ha & Ha')] Hin.
  unfold day_step, update_prices. simpl foldM.
  rewrite (loc_flat_prices _ _ _ _ days_NoDup Hin). unfold cell.
  cbn [mbind result_bind from_option].
  rewrite lookup_singleton_eq. cbn [mbind result_bind from_option].
  change (price_col "X") with "X_price"%string.
  rewrite contributions_cons. change (contributions []) with 0%nat.
  assert (Hs1 : fields (setitem "X_price" 10%Q (set_date day r)) !! "X_shares"
                = Some s) by (by rewrite fields_setitem, lookup_insert_ne).
  assert (Hp1 : fields (setitem "X_price" 10%Q (set_date day r)) !! "X_price"
                = Some 10%Q) by (by rewrite fields_setitem, lookup_insert_eq).
  assert (Ha1 : fields (setitem "X_price" 10%Q (set_date day r))
                  !! "amount_invested" = Some a)
    by (by rewrite fields_setitem, lookup_insert_ne).
  assert (Hd1 : date (setitem "X_price" 10%Q (set_date day r)) = day) by done.
  generalize dependent (setitem "X_price" 10%Q (set_date day r)).
  intros r1 Hs1 Hp1 Ha1 Hd1. case_decide as Hday.
  - rewrite (buy_shares_single _ _ _ _ Hs1 Hp1).
    cbn [mbind result_bind]. unfold add_amount_invested, getitem.
    rewrite fields_setitem, lookup_insert_ne, Ha1 by done.
    cbn [mbind result_bind from_option].
    erewrite update_portfolio_value_single.
    2:{ rewrite !fields_setitem, lookup_insert_ne by done.
        by apply lookup_insert_eq. }
    2:{ by rewrite !fields_setitem, !lookup_insert_ne. }
    eexists. split; [done|]. split; [done|].
    assert (Hk : (inject_Z (Z.of_nat (k + (1 + 0)))
                  == inject_Z (Z.of_nat k) + 1)%Q).
    { replace (Z.of_nat (k + (1 + 0))) with (Z.of_nat k + 1) by lia.
      by rewrite inject_Z_plus. }
    unfold funded, field_is.
    rewrite !fields_setitem.
    split; [split|]; eexists; (split;
      [first [apply lookup_insert_eq
             |rewrite lookup_insert_ne by done; apply lookup_insert_eq
             |rewrite !lookup_insert_ne by done; apply lookup_insert_eq]|]).
    + rewrite Hs', Hk. field.
    + cbn [add Q_arith]. rewrite Ha', Hk. ring.
    + rewrite Hs', Hk. field.
  - cbn [mbind result_bind].
    erewrite update_portfolio_value_single; [|done..].
    eexists. split; [done|]. split; [done|].
    rewrite !Nat.add_0_r. unfold funded, field_is.
    rewrite !fields_setitem.
    split; [split|]; eexists; (split;
      [first [apply lookup_insert_eq
             |rewrite !lookup_insert_ne by done; done]|]); [done..|].
    rewrite Hs'. ring.
Qed.

Lemma ledger_flat : ∀ ds k r,
  funded k r → (∀ d, d ∈ ds → d ∈ days) →
  ∃ rs, ledger tickers df 200%Q r ds = Ok rs ∧
    ∀ i r', rs !! i = Some r' →
      funded (k + contributions (take (S i) ds)) r' ∧
      field_is r' "portfolio_value"
        (1000 + 200 * inject_Z (Z.of_nat (k + contributions (take (S i) ds)))).
Proof.
  induction ds as [|d ds IH]; intros k r Hk Hin.
  - exists []. split; [done|]. intros i r' Hi. by rewrite lookup_nil in Hi.
  - destruct (day_step_flat k r d Hk) as (r1 & Hs & _ & Hk1 & Hv1); [by apply Hin; left|].
    destruct (IH _ _ Hk1) as (rs & Hl & Hrs); [by intros d' Hd'; apply Hin; right|].
    exists (r1 :: rs). split.
    { cbn [ledger]. rewrite Hs. cbn [mbind result_bind]. by rewrite Hl. }
    intros [|i] r' Hi; simpl in Hi.
    + injection Hi as <-. simpl take. done.
    + specialize (Hrs _ _ Hi). simpl take. rewrite contributions_cons.
      rewrite contributions_cons in Hrs. change (contributions []) with 0%nat in Hrs.
      by replace (k + ((if decide (day_of_month d = 1%Z) then 1 else 0)
                       + contributions (take (S i) ds)))%nat
        with (k + ((if decide (day_of_month d = 1%Z) then 1 else 0) + 0)
                + contributions (take (S i) ds))%nat by lia.
Qed.

End FlatScenario.

Lemma field_is_Qeq r k (x y : Q) : (x == y)%Q → field_is r k x → field_is r k y.
Proof. intros Hxy (v & Hv & Hx). exists v. split; [done|]. by rewrite Hx. Qed.

(** C1, as amended. One ticker of weight 1 at a flat price of 10, 1000 at
    the start and 200 a month, over distinct days that start on the 1st of
    a month and hold two more 1sts: the run returns one row per day; the
    first row has 120 shares; the rows from the second 1st on have 140 and
    those from the third 1st on 160; the last row has a portfolio value and
    an amount invested of 1600. *)
Theorem flat_three_months (d0 : Z) (rest : list Z) :
  NoDup (d0 :: rest) →
  day_of_month d0 = 1 →
  contributions rest = 2%nat →
  ∃ rs,
    get_portfolio [("X"%string, 1%Q)] (flat_prices "X" 10%Q (d0 :: rest))
      1000%Q 200%Q = Ok rs ∧
    length rs = length (d0 :: rest) ∧
    (∃ r, rs !! 0%nat = Some r ∧ field_is r "X_shares" 120) ∧
    (∀ i r, rs !! i = Some r →
            contributions (take (S i) (d0 :: rest)) = 2%nat →
            field_is r "X_shares" 140) ∧
    (∀ i r, rs !! i = Some r →
            contributions (take (S i) (d0 :: rest)) = 3%nat →
            field_is r "X_shares" 160) ∧
    (∃ r, last rs = Some r ∧
          field_is r "portfolio_value" 1600 ∧
          field_is r "amount_invested" 1600).
Proof.
  intros Hnd Hd0 Hrest.
  assert (Hinit : ∃ r0,
            initial_record [("X"%string, 1%Q)] (flat_prices "X" 10%Q (d0 :: rest))
              1000%Q = Ok r0 ∧ funded 0 r0).
  { eexists. split; [reflexivity|].
    split; eexists; (split; [vm_compute; reflexivity|done]). }
  destruct Hinit as (r0 & H0 & Hf0).
  destruct (ledger_flat (d0 :: rest) Hnd (d0 :: rest) 0 r0 Hf0)
    as (rs & Hl & Hrs); [done|].
  assert (Hlen : length rs = length (d0 :: rest)).
  { rewrite (ledger_length _ _ _ _ _ _ Hl). done. }
  exists rs. split_and!.
  - rewrite get_portfolio_ledger.
    change (neq (sum_weights [("X"%string, 1%Q)]) one) with false.
    rewrite H0. cbn [mbind result_bind].
    by rewrite flat_prices_dates.
  - done.
  - destruct rs as [|r rs]; [done|]. exists r. split; [done|].
    destruct (Hrs 0%nat r eq_refl) as [[Hsh _] _].
    revert Hsh. apply field_is_Qeq.
    simpl take. rewrite contributions_cons, decide_True by done. reflexivity.
  - intros i r Hi Hc. destruct (Hrs i r Hi) as [[Hsh _] _].
    revert Hsh. apply field_is_Qeq. rewrite Hc. reflexivity.
  - intros i r Hi Hc. destruct (Hrs i r Hi) as [[Hsh _] _].
    revert Hsh. apply field_is_Qeq. rewrite Hc. reflexivity.
  - destruct (last rs) as [r|] eqn:Hlast.
    2:{ apply last_None in Hlast. by subst rs. }
    exists r. split; [done|]. rewrite last_lookup in Hlast.
    destruct (Hrs _ r Hlast) as [[_ Ham] Hpv].
    assert (Hc : contributions (take (S (pred (length rs))) (d0 :: rest)) = 3%nat).
    { rewrite Hlen. rewrite take_ge by (simpl; lia).
      rewrite contributions_cons, decide_True, Hrest by done. done. }
    rewrite Hc in Ham, Hpv.
    split; [revert Hpv|revert Ham]; apply field_is_Qeq; reflexivity.
Qed.

(** January to March 2021. *)
Lemma flat_three_months_witness :
  ∃ rs,
    get_portfolio [("X"%string, 1%Q)]
      (flat_prices "X" 10%Q (18628 :: seqZ 18629 89)) 1000%Q 200%Q = Ok rs ∧
    length rs = length (18628 :: seqZ 18629 89) ∧
    (∃ r, rs !! 0%nat = Some r ∧ field_is r "X_shares" 120) ∧
    (∀ i r, rs !! i = Some r →
            contributions (take (S i) (18628 :: seqZ 18629 89)) = 2%nat →
            field_is r "X_shares" 140) ∧
    (∀ i r, rs !! i = Some r →
            contributions (take (S i) (18628 :: seqZ 18629 89)) = 3%nat →
            field_is r "X_shares" 160) ∧
    (∃ r, last rs = Some r ∧
          field_is r "portfolio_value" 1600 ∧
          field_is r "amount_invested" 1600).
Proof.
  apply flat_three_months.
  - change (NoDup (seqZ 18628 90)). apply NoDup_seqZ.
  - vm_compute; reflexivity.
  - vm_compute; reflexivity.
Defined.

(** C1 as stated fails on that run: the first row has 120 shares, not
    100, and the last row is worth 1600, not 1400, on exact rationals and
    on binary64 floats alike. *)
Lemma flat_three_months_first_row_counterexample :
  (∃ r s v, rows quarter_run_Q !! 0%nat = Some r ∧
            fields r !! "X_shares" = Some s ∧ (s == 120)%Q ∧ ¬ (s == 100)%Q ∧
            fields (row_at quarter_run_Q 89) !! "portfolio_value" = Some v ∧
            (v == 1600)%Q ∧ ¬ (v == 1400)%Q) ∧
  (∃ r, rows quarter_run_binary64 !! 0%nat = Some r ∧
        fields r !! "X_shares" = Some 120%float ∧
        PrimFloat.eqb 120 100 = false ∧
        fields (row_at quarter_run_binary64 89) !! "portfolio_value"
          = Some 1600%float).
Proof.
  split.
  - eexists _, _, _. split_and!.
    + vm_compute; reflexivity.
    + vm_compute; reflexivity.
    + by vm_compute.
    + by vm_compute.
    + vm_compute; reflexivity.
    + by vm_compute.
    + by vm_compute.
  - eexists. split_and!; vm_compute; reflexivity.
Qed.

(** ** The example runs as instances *)

Lemma flat_prices_cell {num} (t : string) (p : num) ds day row col x :
  (day, row) ∈ flat_prices t p ds → row !! col = Some x → x = p.
Proof.
  unfold flat_prices. intros (d & [= _ ->] & _)%list_elem_of_fmap.
  by intros [_ ->]%lookup_singleton_Some.
Qed.

Lemma single_ticker_weight (t' : string) (w' : Q) :
  (t', w') ∈ [("X"%string, 1%Q)] → (0 <= w')%Q.
Proof. by intros [= _ ->]%list_elem_of_singleton. Qed.

(** From 2020-12-31 to 2021-01-01 the 100 shares of ["X"] become 120. *)
Lemma shares_monotone_witness :
  ∃ s2, fields (row_at new_year_run_Q 1) !! shares_col "X" = Some s2 ∧
        (1000 # 10 <= s2)%Q.
Proof.
  assert (Hm : (0 <= 200)%Q) by done.
  assert (Hpos : ∀ day row col p,
            (day, row) ∈ flat_prices "X" 10%Q new_year_2021 →
            row !! col = Some p → (0 < p)%Q).
  { intros day row col p Hin Hp.
    by rewrite (flat_prices_cell _ _ _ _ _ _ _ Hin Hp). }
  assert (Hrun : get_portfolio [("X"%string, 1%Q)]
                   (flat_prices "X" 10%Q new_year_2021) 1000%Q 200%Q
                 = Ok (rows new_year_run_Q)) by (vm_compute; reflexivity).
  assert (H0 : rows new_year_run_Q !! 0%nat = Some (row_at new_year_run_Q 0))
    by (vm_compute; reflexivity).
  assert (H1 : rows new_year_run_Q !! 1%nat = Some (row_at new_year_run_Q 1))
    by (vm_compute; reflexivity).
  assert (Hs : fields (row_at new_year_run_Q 0) !! shares_col "X"
               = Some (1000 # 10)%Q) by (vm_compute; reflexivity).
  exact (shares_monotone _ _ _ _ _ _ _ _ Hm single_ticker_weight Hpos
           Hrun H0 H1 "X"%string _ Hs).
Defined.

(** The run that starts on 2021-01-01 at a price of 7, on binary64
    floats: the first row has 1000 + 200 invested and
    1000 / 7 * 1 + 200 / 7 * 1 shares. *)
Lemma first_of_month_start_witness :
  fields (row_at january_run_binary64 0) !! "amount_invested"
    = Some (1000 + 200)%float ∧
  ∀ t w p, (t, w) ∈ [("X"%string, 1%float)] →
    ({[price_col "X" := 7%float]} : gmap string float) !! price_col t = Some p →
    fields (row_at january_run_binary64 0) !! shares_col t =
      Some (add (mul (div 1000%float p) w) (mul (div 200%float p) w)).
Proof.
  assert (Hnd : NoDup [("X"%string, 1%float)].*1) by (apply NoDup_singleton).
  assert (Hrun : get_portfolio [("X"%string, 1%float)]
                   (flat_prices "X" 7%float january_2021) 1000%float 200%float
                 = Ok (rows january_run_binary64)) by (vm_compute; reflexivity).
  assert (H0 : rows january_run_binary64 !! 0%nat
               = Some (row_at january_run_binary64 0))
    by (vm_compute; reflexivity).
  assert (Hdf : flat_prices "X" 7%float january_2021 !! 0%nat
                = Some (18628, {[price_col "X" := 7%float]})) by reflexivity.
  assert (Hday : day_of_month 18628 = 1) by reflexivity.
  exact (first_of_month_start _ _ _ _ _ _ _ _ Hnd Hrun H0 Hdf Hday).
Defined.

(** C2 as stated fails on that run: the first row has
    1000 / 7 + 200 / 7 = 171.42857142857144 shares, and
    (1000 + 200) * 1 / 7 is 171.42857142857142. *)
Lemma first_of_month_start_counterexample :
  day_of_month 18628 = 1 ∧
  ∃ r, rows january_run_binary64 !! 0%nat = Some r ∧
       fields r !! "X_shares" = Some 171.42857142857144%float ∧
       ((1000 + 200) * 1 / 7)%float = 171.42857142857142%float ∧
       PrimFloat.eqb 171.42857142857144 171.42857142857142 = false.
Proof.
  split; [reflexivity|]. eexists. split_and!; vm_compute; reflexivity.
Qed.

(** C5 as stated fails on binary64 floats, within its conditions: with
    1e307 a month the purchase of ["Z"] at 0.01 overflows to an infinity,
    times the weight 0 it is not a number, and the share count of ["Z"]
    goes from 0 on 2020-12-31 to NaN on 2021-01-01, which is not greater
    than or equal to 0. *)
Lemma shares_monotone_counterexample :
  PrimFloat.leb 0 1e307 = true ∧
  PrimFloat.leb 0 1 = true ∧ PrimFloat.leb 0 0 = true ∧
  PrimFloat.ltb 0 10 = true ∧ PrimFloat.ltb 0 0.01 = true ∧
  ∃ r1 r2 s1 s2,
    rows overflow_run_binary64 !! 0%nat = Some r1 ∧
    rows overflow_run_binary64 !! 1%nat = Some r2 ∧
    fields r1 !! "Z_shares" = Some s1 ∧
    fields r2 !! "Z_shares" = Some s2 ∧
    s1 = 0%float ∧ PrimFloat.is_nan s2 = true ∧
    PrimFloat.leb s1 s2 = false.
Proof.
  split_and!; [reflexivity..|].
  eexists _, _, _, _. split_and!; vm_compute; reflexivity.
Qed.

(** The run that starts on 2020-12-31: the first row is worth the 1000
    invested. *)
Lemma first_portfolio_value_witness :
  ∃ v, fields (row_at new_year_run_Q 0) !! "portfolio_value" = Some v ∧
       (v == if decide (day_of_month 18627 = 1%Z)
             then 1000 + 200 else 1000)%Q.
Proof.
  assert (Hnd : NoDup [("X"%string, 1%Q)].*1) by (apply NoDup_singleton).
  assert (Hpos : ∀ col p,
            ({[price_col "X" := 10%Q]} : gmap string Q) !! col = Some p →
            ¬ (p == 0)%Q).
  { by intros col p [_ <-]%lookup_singleton_Some. }
  assert (Hrun : get_portfolio [("X"%string, 1%Q)]
                   (flat_prices "X" 10%Q new_year_2021) 1000%Q 200%Q
                 = Ok (rows new_year_run_Q)) by (vm_compute; reflexivity).
  assert (H0 : rows new_year_run_Q !! 0%nat = Some (row_at new_year_run_Q 0))
    by (vm_compute; reflexivity).
  assert (Hdf : flat_prices "X" 10%Q new_year_2021 !! 0%nat
                = Some (18627, {[price_col "X" := 10%Q]})) by reflexivity.
  exact (first_portfolio_value _ _ _ _ _ _ _ _ Hnd Hpos Hrun H0 Hdf).
Defined.

(** C3 as stated fails on the quarter that starts on 2021-01-01 (one row
    per day, price 10, 1000 invested): the first row is worth 1200. *)
Lemma first_portfolio_value_counterexample :
  (∃ r v, rows quarter_run_Q !! 0%nat = Some r ∧
          fields r !! "portfolio_value" = Some v ∧
          (v == 1200)%Q ∧ ¬ (v == 1000)%Q) ∧
  (∃ r, rows quarter_run_binary64 !! 0%nat = Some r ∧
        fields r !! "portfolio_value" = Some 1200%float ∧
        PrimFloat.eqb 1200 1000 = false).
Proof.
  split.
  - eexists _, _. split_and!.
    + vm_compute; reflexivity.
    + vm_compute; reflexivity.
    + by vm_compute.
    + by vm_compute.
  - eexists. split_and!; vm_compute; reflexivity.
Qed.

(** On binary64 the day-0 value need not be the amount invested even away
    from the 1st of a month: 1 invested at a price of 49 on 2020-12-31 is
    valued at [1 / 49 * 1 * 49], one unit in the last place below 1. *)
Example first_portfolio_value_binary64_rounding :
  ∃ r, rows (get_portfolio [("X"%string, 1%float)]
               (flat_prices "X" 49%float new_year_2021) 1%float 0%float)
         !! 0%nat = Some r ∧
       fields r !! "portfolio_value" = Some 0x1.fffffffffffffp-1%float ∧
       PrimFloat.eqb 0x1.fffffffffffffp-1 1 = false.
Proof. eexists. split_and!; vm_compute; reflexivity. Qed.

(** ** The resampler *)

Section ResampleFacts.
Context {A : Type}.
Implicit Types (df : DataFrame (option A)) (row : gmap string (option A)).
Implicit Types (bin : list (gmap string (option A))) (col : string).

Lemma elem_of_columns df col :
  col ∈ columns df ↔ ∃ day row, (day, row) ∈ df ∧ is_Some (row !! col).
Proof.
  unfold columns. rewrite elem_of_union_list. split.
  - intros (X & ([day row] & -> & Hin)%list_elem_of_fmap & Hcol).
    exists day, row. split; [done|]. by apply elem_of_dom.
  - intros (day & row & Hin & Hcol). exists (dom row). split.
    + apply list_elem_of_fmap. by exists (day, row).
    + by apply elem_of_dom.
Qed.

(** The cell of a column in the aggregate of a bin: the last value of the
    column in the bin that is not missing. *)
Lemma foldl_union_with_last_valid bin col : ∀ (m : gmap string (option A)) acc,
  m !! col = Some acc →
  foldl (union_with (λ old new, Some (last_valid old new))) m bin !! col =
    Some (foldl last_valid acc ((λ row, row !! col ≫= id) <$> bin)).
Proof.
  induction bin as [|row bin IH]; intros m acc Hm; [done|].
  simpl. apply IH. rewrite lookup_union_with, Hm.
  by destruct (row !! col) as [[x|]|].
Qed.

Lemma agg_last_lookup (cols : gset string) bin col :
  col ∈ cols →
  agg_last cols bin !! col =
    Some (foldl last_valid None ((λ row, row !! col ≫= id) <$> bin)).
Proof.
  intros Hcol. apply foldl_union_with_last_valid.
  by rewrite lookup_gset_to_gmap, option_guard_True.
Qed.

Lemma agg_last_lookup_None (cols : gset string) bin col :
  col ∉ cols → (∀ row, row ∈ bin → row !! col = None) →
  agg_last cols bin !! col = None.
Proof.
  intros Hcol. unfold agg_last.
  assert (Hm : gset_to_gmap (None : option A) cols !! col = None)
    by (by rewrite lookup_gset_to_gmap, option_guard_False).
  revert Hm. generalize (gset_to_gmap (None : option A) cols).
  induction bin as [|row bin IH]; intros m Hm Hbin; [done|].
  simpl. apply IH.
  - rewrite lookup_union_with, Hm, (Hbin row) by (by left). done.
  - intros row' Hrow'. apply Hbin. by right.
Qed.

(** *** Dense frames are left alone *)

Lemma foldr_min_least (d : Z) (ds : list Z) :
  (∀ x, x ∈ ds → d ≤ x) → foldr Z.min d ds = d.
Proof.
  induction ds as [|x ds IH]; intros Hle; [done|]. simpl.
  rewrite IH by (intros y Hy; apply Hle; by right).
  apply Z.min_r, Hle. by left.
Qed.

Lemma foldr_max_seqZ (n : nat) : ∀ base start : Z,
  base < start →
  foldr Z.max base (seqZ start (Z.of_nat n)) =
    if n is O then base else start + Z.of_nat n - 1.
Proof.
  induction n as [|n IH]; intros base start Hlt; [done|].
  rewrite seqZ_cons by lia. simpl foldr.
  replace (Z.pred (Z.of_nat (S n))) with (Z.of_nat n) by lia.
  rewrite IH by lia. destruct n; lia.
Qed.

Lemma date_range_seqZ df (d0 : Z) :
  df.*1 = seqZ d0 (Z.of_nat (length df)) → date_range df = df.*1.
Proof.
  unfold date_range. intros Hdates. rewrite Hdates.
  destruct (length df) as [|n]; [done|].
  rewrite seqZ_cons by lia.
  replace (Z.pred (Z.of_nat (S n))) with (Z.of_nat n) by lia.
  rewrite foldr_min_least by (intros x Hx%elem_of_seqZ; lia).
  rewrite foldr_max_seqZ by lia.
  transitivity (seqZ d0 (Z.of_nat (S n))).
  - f_equal. destruct n; lia.
  - rewrite seqZ_cons by lia. do 2 f_equal. lia.
Qed.

Lemma dense_cell df day row col c :
  dense df → (day, row) ∈ df → row !! col = Some c → ∃ x, c = Some x.
Proof.
  intros [_ Hd] Hin Hc.
  destruct (Hd day row col Hin) as [x Hx]; [|exists x; congruence].
  apply elem_of_columns. eauto.
Qed.

Lemma agg_last_dense df day row :
  dense df → (day, row) ∈ df → agg_last (columns df) [row] = row.
Proof.
  intros Hd Hin. apply map_eq. intros col.
  destruct (decide (col ∈ columns df)) as [Hcol|Hcol].
  - rewrite agg_last_lookup by done. simpl.
    destruct Hd as [_ Hd]. destruct (Hd _ _ _ Hin Hcol) as [x ->]. done.
  - rewrite agg_last_lookup_None; [|done|].
    + symmetry. apply eq_None_not_Some. intros Hs. apply Hcol.
      apply elem_of_columns. eauto.
    + intros row' ->%list_elem_of_singleton. apply eq_None_not_Some.
      intros Hs. apply Hcol. apply elem_of_columns. eauto.
Qed.

Lemma resample_last_dense df : dense df → resample_last df = df.
Proof.
  intros Hd. pose proof Hd as [[d0 Hdates] _].
  unfold resample_last. rewrite (date_range_seqZ _ _ Hdates).
  rewrite <- list_fmap_compose.
  transitivity (id <$> df); [|apply list_fmap_id]. apply list_fmap_ext.
  intros i [day row] Hi. simpl.
  apply list_elem_of_lookup_2 in Hi.
  rewrite (filter_date_NoDup df day row); [|rewrite Hdates; apply NoDup_seqZ|done].
  simpl. by rewrite (agg_last_dense df day row).
Qed.

Lemma ffill_row_valid prev row :
  (∀ col c, row !! col = Some c → ∃ x, c = Some x) → ffill_row prev row = row.
Proof.
  intros Hrow. apply map_eq. intros col. unfold ffill_row.
  rewrite map_lookup_imap. destruct (row !! col) as [c|] eqn:Hc; [|done].
  destruct (Hrow _ _ Hc) as [x ->]. done.
Qed.

Lemma ffill_valid df : ∀ prev,
  (∀ day row col c, (day, row) ∈ df → row !! col = Some c → ∃ x, c = Some x) →
  ffill prev df = df.
Proof.
  induction df as [|[day row] df IH]; intros prev Hdf; [done|].
  simpl. rewrite ffill_row_valid by (intros col c; apply (Hdf day); by left).
  f_equal. apply IH. intros day' row' col c Hin. apply (Hdf day'). by right.
Qed.

(** C7. Resampling a frame that already has one row per calendar day and
    no missing value returns the frame. *)
Theorem resample_data_dense df : dense df → resample_data df = df.
Proof.
  intros Hd. unfold resample_data. rewrite (resample_last_dense _ Hd).
  apply ffill_valid. intros day row col c. by apply dense_cell.
Qed.

(** *** Forward fill *)

Lemma foldl_last_valid_Some (x : A) (cells : list (option A)) : ∀ acc,
  (∀ c, c ∈ cells → c = None ∨ c = Some x) →
  acc = Some x ∨ (acc = None ∧ Some x ∈ cells) →
  foldl last_valid acc cells = Some x.
Proof.
  induction cells as [|c cells IH]; intros acc Hall Hacc.
  - destruct Hacc as [->|[_ Hin]]; [done|by apply elem_of_nil in Hin].
  - simpl. apply IH; [intros c' Hc'; apply Hall; by right|].
    destruct (Hall c) as [Hc | Hc]; [by left| |subst c; by left].
    subst c. simpl. destruct Hacc as [Hacc | [Hacc Hin]]; [by left|right].
    split; [done|]. apply elem_of_cons in Hin as [Heq|Hin]; done.
Qed.

Lemma foldl_last_valid_None (cells : list (option A)) :
  (∀ c, c ∈ cells → c = None) → foldl last_valid None cells = None.
Proof.
  induction cells as [|c cells IH]; intros Hall; [done|].
  simpl. rewrite (Hall c) by (by left). apply IH.
  intros c' Hc'. apply Hall. by right.
Qed.

(** The cells of a column in the bin of a day. *)
Lemma elem_of_bin_cells df day col (c : option A) :
  c ∈ (λ row, row !! col ≫= id) <$> (snd <$> filter (λ r, r.1 = day) df) ↔
  ∃ row, (day, row) ∈ df ∧ row !! col ≫= id = c.
Proof.
  rewrite list_elem_of_fmap. split.
  - intros (row & -> & ([d row'] & -> & [Hd Hin]%list_elem_of_filter)%list_elem_of_fmap).
    simpl in Hd. subst d. eauto.
  - intros (row & Hin & <-). exists row. split; [done|].
    apply list_elem_of_fmap. exists (day, row). split; [done|].
    by apply list_elem_of_filter.
Qed.

Lemma ffill_dates df : ∀ prev, (ffill prev df).*1 = df.*1.
Proof.
  induction df as [|[day row] df IH]; intros prev; [done|].
  simpl. by rewrite IH.
Qed.

(** Row [i] of the filled frame is row [i] filled from the filled row
    above it. *)
Lemma ffill_lookup df : ∀ prev i day row,
  df !! i = Some (day, row) →
  ∃ above,
    ffill prev df !! i = Some (day, ffill_row above row) ∧
    match i with
    | O => above = prev
    | S i' => ∃ day', ffill prev df !! i' = Some (day', above)
    end.
Proof.
  induction df as [|[d r] df IH]; intros prev i day row Hi; [done|].
  destruct i as [|i]; simpl in Hi |- *.
  - injection Hi as -> ->. by exists prev.
  - destruct (IH (ffill_row prev r) _ _ _ Hi) as (above & Hrow & Habove).
    exists above. split; [done|]. destruct i as [|i]; [subst above; eauto|done].
Qed.

Lemma foldr_min_le (d : Z) (ds : list Z) x :
  x ∈ d :: ds → foldr Z.min d ds ≤ x.
Proof.
  induction ds as [|y ds IH]; intros Hin.
  - apply list_elem_of_singleton in Hin. simpl. lia.
  - simpl. apply elem_of_cons in Hin as [Hx|[Hx|Hin]%elem_of_cons].
    + assert (foldr Z.min d ds ≤ x) by (apply IH; subst x; by left). lia.
    + lia.
    + assert (foldr Z.min d ds ≤ x) by (apply IH; by right). lia.
Qed.

Lemma foldr_max_ge (d : Z) (ds : list Z) x :
  x ∈ d :: ds → x ≤ foldr Z.max d ds.
Proof.
  induction ds as [|y ds IH]; intros Hin.
  - apply list_elem_of_singleton in Hin. simpl. lia.
  - simpl. apply elem_of_cons in Hin as [Hx|[Hx|Hin]%elem_of_cons].
    + assert (x ≤ foldr Z.max d ds) by (apply IH; subst x; by left). lia.
    + lia.
    + assert (x ≤ foldr Z.max d ds) by (apply IH; by right). lia.
Qed.

(** The bins are the days from the first to the last date of the frame. *)
Lemma date_range_lookup df (a b day : Z) :
  a ∈ df.*1 → b ∈ df.*1 → a ≤ day ≤ b →
  ∃ i, date_range df !! i = Some day.
Proof.
  unfold date_range. intros Ha Hb Hday.
  destruct (df.*1) as [|d ds]; [by apply elem_of_nil in Ha|].
  pose proof (foldr_min_le _ _ _ Ha). pose proof (foldr_max_ge _ _ _ Hb).
  apply list_elem_of_lookup, elem_of_seqZ. lia.
Qed.

Lemma date_range_lookup_S df (i : nat) day :
  date_range df !! S i = Some day → date_range df !! i = Some (day - 1).
Proof.
  unfold date_range. destruct (df.*1) as [|d ds]; [done|].
  rewrite !lookup_seqZ. lia.
Qed.

Lemma NoDup_date_range df : NoDup (date_range df).
Proof.
  unfold date_range. destruct (df.*1); [constructor|apply NoDup_seqZ].
Qed.

Lemma resample_data_dates df : (resample_data df).*1 = date_range df.
Proof.
  unfold resample_data, resample_last. rewrite ffill_dates.
  rewrite <- list_fmap_compose. apply list_fmap_id.
Qed.

(** C8. When a column has the value [x] in the rows of day [d] and no
    value in any row of the [k] days after it, and the frame goes on to
    day [d + k] or later, the resampled frame has [x] in that column on
    each of the days [d], ..., [d + k]. *)
Theorem forward_fill df (d k e : Z) col (x : A) :
  (∃ row, (d, row) ∈ df ∧ row !! col = Some (Some x)) →
  (∀ row y, (d, row) ∈ df → row !! col = Some (Some y) → y = x) →
  (∀ j row, 0 < j ≤ k → (d + j, row) ∈ df → row !! col ≫= id = None) →
  e ∈ df.*1 → d + k ≤ e →
  ∀ j, 0 ≤ j ≤ k →
    ∃ row, loc (resample_data df) (d + j) = Ok row ∧
           row !! col = Some (Some x).
Proof.
  intros (row_d & Hind & Hrow_d) Hsame Hgap He Hle.
  assert (Hcol : col ∈ columns df) by (apply elem_of_columns; eauto).
  assert (Hd : d ∈ df.*1) by (by apply (list_elem_of_fmap_2 fst _ (d, row_d))).
  (* the aggregate of day [d] has [x], that of the days after it nothing *)
  assert (Hagg_d : agg_last (columns df) (snd <$> filter (λ r, r.1 = d) df) !! col
                   = Some (Some x)).
  { rewrite agg_last_lookup by done. f_equal. apply foldl_last_valid_Some.
    - intros c (row & Hin & <-)%elem_of_bin_cells.
      destruct (row !! col) as [[y|]|] eqn:Hy; simpl; [right|by left..].
      f_equal. by apply (Hsame row).
    - right. split; [done|]. apply elem_of_bin_cells. exists row_d.
      split; [done|]. by rewrite Hrow_d. }
  assert (Hagg_gap : ∀ j, 0 < j ≤ k →
            agg_last (columns df) (snd <$> filter (λ r, r.1 = d + j) df) !! col
            = Some None).
  { intros j Hj. rewrite agg_last_lookup by done. f_equal.
    apply foldl_last_valid_None.
    intros c (row & Hin & <-)%elem_of_bin_cells. by apply (Hgap j). }
  (* induction on the number of days after [d] *)
  assert (Hrows : ∀ n : nat, Z.of_nat n ≤ k →
            ∃ i row, resample_data df !! i = Some (d + Z.of_nat n, row) ∧
                     row !! col = Some (Some x)).
  { intros n. induction n as [|n IH]; intros Hn.
    - destruct (date_range_lookup df d e (d + 0)) as [i Hi]; [done..|lia|].
      assert (Hres : resample_last df !! i
                = Some (d + 0, agg_last (columns df)
                          (snd <$> filter (λ r, r.1 = d + 0) df))).
      { unfold resample_last. by rewrite list_lookup_fmap, Hi. }
      destruct (ffill_lookup _ ∅ _ _ _ Hres) as (above & Hrow & _).
      exists i. eexists. split; [exact Hrow|].
      unfold ffill_row. rewrite map_lookup_imap.
      replace (d + 0) with d by lia. by rewrite Hagg_d.
    - destruct IH as (i & row & Hrow & Hx); [lia|].
      assert (Hi : date_range df !! i = Some (d + Z.of_nat n)).
      { by rewrite <- resample_data_dates, list_lookup_fmap, Hrow. }
      destruct (date_range_lookup df d e (d + Z.of_nat (S n))) as [i' Hi'];
        [done..|lia|].
      assert (i' = S i) as ->.
      { destruct i' as [|i'].
        - apply (NoDup_lookup _ _ _ (d + Z.of_nat (S n)) (NoDup_date_range df));
            [done|].
          exfalso. revert Hi Hi'. unfold date_range.
          destruct (df.*1); [done|]. rewrite !lookup_seqZ. lia.
        - f_equal. apply date_range_lookup_S in Hi'.
          apply (NoDup_lookup _ _ _ (d + Z.of_nat n) (NoDup_date_range df));
            [|done]. by replace (d + Z.of_nat n) with (d + Z.of_nat (S n) - 1) by lia. }
      assert (Hres : resample_last df !! S i
                = Some (d + Z.of_nat (S n), agg_last (columns df)
                          (snd <$> filter (λ r, r.1 = d + Z.of_nat (S n)) df))).
      { unfold resample_last. by rewrite list_lookup_fmap, Hi'. }
      destruct (ffill_lookup _ ∅ _ _ _ Hres) as (above & Hrow' & day' & Habove).
      fold (resample_data df) in Hrow', Habove.
      assert (above = row) as -> by congruence.
      exists (S i). eexists. split; [exact Hrow'|].
      unfold ffill_row. rewrite map_lookup_imap, Hagg_gap by lia.
      simpl. by rewrite Hx. }
  intros j Hj. destruct (Hrows (Z.to_nat j)) as (i & row & Hrow & Hx); [lia|].
  rewrite Z2Nat.id in Hrow by lia.
  exists row. split; [|done].
  apply loc_NoDup; [|by eapply list_elem_of_lookup_2].
  rewrite resample_data_dates. apply NoDup_date_range.
Qed.

End ResampleFacts.

(** Friday 2021-01-01 and Monday 2021-01-04. *)
Lemma forward_fill_witness :
  ∃ row, loc (resample_data weekend_frame) (18628 + 2) = Ok row ∧
         row !! "A_price" = Some (Some 10%Q).
Proof.
  assert (H1 : ∃ row, (18628, row) ∈ weekend_frame ∧
                      row !! "A_price" = Some (Some 10%Q)).
  { eexists. split; [by left|reflexivity]. }
  assert (H2 : ∀ row y, (18628, row) ∈ weekend_frame →
                        row !! "A_price" = Some (Some y) → y = 10%Q).
  { intros row y Hin Hy. unfold weekend_frame in Hin.
    apply elem_of_cons in Hin as [[= ->]|Hin].
    - vm_compute in Hy. congruence.
    - apply list_elem_of_singleton in Hin. discriminate Hin. }
  assert (H3 : ∀ j row, 0 < j ≤ 2 → (18628 + j, row) ∈ weekend_frame →
                        row !! "A_price" ≫= id = None).
  { intros j row Hj Hin. unfold weekend_frame in Hin.
    apply elem_of_cons in Hin as [[= Hd _]|Hin]; [lia|].
    apply list_elem_of_singleton in Hin. injection Hin as Hd _. lia. }
  assert (He : 18631 ∈ weekend_frame.*1) by (right; left).
  assert (Hle : 18628 + 2 ≤ 18631) by lia.
  assert (Hj : 0 ≤ 2 ≤ 2) by lia.
  exact (forward_fill weekend_frame 18628 2 18631 "A_price" 10%Q
           H1 H2 H3 He Hle 2 Hj).
Defined.

(** The weekend between them takes Friday's prices, ticker by ticker. *)
Example resample_data_weekend :
  resample_data weekend_frame =
    [(18628, {["A_price" := Some 10%Q; "B_price" := Some 7%Q]});
     (18629, {["A_price" := Some 10%Q; "B_price" := Some 7%Q]});
     (18630, {["A_price" := Some 10%Q; "B_price" := Some 7%Q]});
     (18631, {["A_price" := Some 11%Q; "B_price" := Some 8%Q]})].
Proof. vm_compute. reflexivity. Qed.

Lemma dense_week_frame : dense week_frame.
Proof.
  split; [by exists 18628|].
  intros day row col Hin (d' & r' & Hin' & Hcol%elem_of_dom)%elem_of_columns.
  assert (Hcols : col = "A_price"%string ∨ col = "B_price"%string).
  { unfold week_frame in Hin'.
    repeat (apply elem_of_cons in Hin' as [[= _ ->]|Hin']);
      [..|by apply elem_of_nil in Hin'];
      rewrite dom_insert_L, dom_singleton_L in Hcol; set_solver. }
  unfold week_frame in Hin.
  repeat (apply elem_of_cons in Hin as [[= _ ->]|Hin]);
    [..|by apply elem_of_nil in Hin];
    destruct Hcols as [-> | ->]; by eexists.
Qed.

(** Three consecutive days with both prices. *)
Lemma resample_data_dense_witness : resample_data week_frame = week_frame.
Proof. exact (resample_data_dense week_frame dense_week_frame). Defined.

(** ** The loader's availability check *)

Section LoaderFacts.
Context {num : Type} `{!Arith num}.
Variable history : string → Z → Z → result (list (Z * option num)).
Variable round2 : num → num.
Variable nan : num.
Variables start_date end_date : Z.

Lemma ticker_frame_dates ticker (series : list (Z * option num)) :
  (ticker_frame ticker series).*1 = series.*1.
Proof.
  unfold ticker_frame. rewrite <- list_fmap_compose. by apply list_fmap_ext.
Qed.

(** One iteration: the fetched frame is appended unless its first date
    comes after [start_date]. *)
Lemma load_ticker_Ok data ticker series :
  history ticker start_date end_date = Ok series →
  load_ticker history start_date end_date data ticker =
    match index_min series.*1 with
    | Some first_date =>
        if bool_decide (start_date < first_date)
        then Raise (ValueError (data_only_available_from ticker first_date))
        else Ok (data ++ [(price_col ticker, ticker_frame ticker series)])
    | None => Ok (data ++ [(price_col ticker, ticker_frame ticker series)])
    end.
Proof.
  intros Hh. unfold load_ticker. rewrite Hh. cbn [mbind result_bind].
  by rewrite ticker_frame_dates.
Qed.

(** The loop stops at the first ticker whose history starts late. *)
Lemma load_loop_late (ts : list string) : ∀ data,
  (∀ t, t ∈ ts → ∃ series, history t start_date end_date = Ok series) →
  (∃ t series first_date,
      t ∈ ts ∧ history t start_date end_date = Ok series ∧
      index_min series.*1 = Some first_date ∧ start_date < first_date) →
  ∃ t series first_date,
    t ∈ ts ∧ history t start_date end_date = Ok series ∧
    index_min series.*1 = Some first_date ∧ start_date < first_date ∧
    foldM (load_ticker history start_date end_date) data ts =
      Raise (ValueError (data_only_available_from t first_date)).
Proof.
  induction ts as [|t0 ts IH]; intros data Hfetch (t & series & f & Hin & Hh & Hmin & Hlt).
  - by apply elem_of_nil in Hin.
  - destruct (Hfetch t0) as [series0 Hh0]; [by left|].
    cbn [foldM]. rewrite (load_ticker_Ok _ _ _ Hh0).
    destruct (index_min series0.*1) as [f0|] eqn:Hmin0.
    + case_bool_decide as Hlt0.
      * exists t0, series0, f0. split_and!; [by left|done..].
      * cbn [mbind result_bind].
        destruct (IH (data ++ [(price_col t0, ticker_frame t0 series0)]))
          as (t' & series' & f' & Hin' & Hh' & Hmin' & Hlt' & Hraise).
        { intros t' Ht'. apply Hfetch. by right. }
        { apply elem_of_cons in Hin as [->|Hin].
          - assert (series0 = series) as -> by congruence.
            assert (f0 = f) as -> by congruence. lia.
          - eauto 10. }
        exists t', series', f'. split_and!; [by right|done..].
    + cbn [mbind result_bind].
      destruct (IH (data ++ [(price_col t0, ticker_frame t0 series0)]))
        as (t' & series' & f' & Hin' & Hh' & Hmin' & Hlt' & Hraise).
      { intros t' Ht'. apply Hfetch. by right. }
      { apply elem_of_cons in Hin as [->|Hin].
        - assert (series0 = series) as -> by congruence. congruence.
        - eauto 10. }
      exists t', series', f'. split_and!; [by right|done..].
Qed.

(** Without such a ticker the loop ends with one frame per ticker. *)
Lemma load_loop_covered (ts : list string) : ∀ data,
  (∀ t, t ∈ ts → ∃ series, history t start_date end_date = Ok series) →
  (∀ t series first_date,
      t ∈ ts → history t start_date end_date = Ok series →
      index_min series.*1 = Some first_date → first_date ≤ start_date) →
  ∃ data',
    foldM (load_ticker history start_date end_date) data ts = Ok data' ∧
    length data' = (length data + length ts)%nat.
Proof.
  induction ts as [|t0 ts IH]; intros data Hfetch Hcov.
  - exists data. split; [done|]. simpl. lia.
  - destruct (Hfetch t0) as [series0 Hh0]; [by left|].
    cbn [foldM]. rewrite (load_ticker_Ok _ _ _ Hh0).
    assert (Hstep : match index_min series0.*1 with
              | Some first_date =>
                  if bool_decide (start_date < first_date)
                  then Raise (ValueError (data_only_available_from t0 first_date))
                  else Ok (data ++ [(price_col t0, ticker_frame t0 series0)])
              | None => Ok (data ++ [(price_col t0, ticker_frame t0 series0)])
              end = Ok (data ++ [(price_col t0, ticker_frame t0 series0)])).
    { destruct (index_min series0.*1) as [f0|] eqn:Hmin0; [|done].
      rewrite bool_decide_false; [done|].
      assert (f0 ≤ start_date) by (apply (Hcov t0 series0); [by left|done..]).
      lia. }
    rewrite Hstep. cbn [mbind result_bind].
    destruct (IH (data ++ [(price_col t0, ticker_frame t0 series0)]))
      as (data' & Hrun & Hlen).
    { intros t' Ht'. apply Hfetch. by right. }
    { intros t' series' f' Ht'. apply Hcov. by right. }
    exists data'. split; [done|]. rewrite Hlen, length_app. simpl. lia.
Qed.

(** C9. With a provider that answers for every ticker: when some
    ticker's fetched history starts after [start_date], [load_data] raises
    the [ValueError] that names such a ticker and the first date of its
    history, and so does the whole pipeline, which returns no row; when
    every history starts on or before [start_date], [load_data] does not
    raise that error. *)
Theorem load_data_availability (tickers : list (string * num))
    (initial monthly : num) :
  (∀ t, t ∈ tickers.*1 → ∃ series, history t start_date end_date = Ok series) →
  ((∃ t series first_date,
       t ∈ tickers.*1 ∧ history t start_date end_date = Ok series ∧
       index_min series.*1 = Some first_date ∧ start_date < first_date) →
   ∃ t series first_date,
     t ∈ tickers.*1 ∧ history t start_date end_date = Ok series ∧
     index_min series.*1 = Some first_date ∧ start_date < first_date ∧
     load_data history round2 tickers start_date end_date =
       Raise (ValueError (data_only_available_from t first_date)) ∧
     simulate_portfolio history round2 nan tickers start_date end_date
         initial monthly =
       Raise (ValueError (data_only_available_from t first_date))) ∧
  ((∀ t series first_date,
       t ∈ tickers.*1 → history t start_date end_date = Ok series →
       index_min series.*1 = Some first_date → first_date ≤ start_date) →
   ∀ t first_date,
     load_data history round2 tickers start_date end_date ≠
       Raise (ValueError (data_only_available_from t first_date))).
Proof.
  intros Hfetch. split.
  - intros Hlate.
    destruct (load_loop_late _ [] Hfetch Hlate)
      as (t & series & f & Hin & Hh & Hmin & Hlt & Hraise).
    exists t, series, f. split_and!; [done..| |].
    + unfold load_data. by rewrite Hraise.
    + unfold simulate_portfolio, load_data. by rewrite Hraise.
  - intros Hcov t f.
    destruct (load_loop_covered _ [] Hfetch Hcov) as (data & Hrun & Hlen).
    unfold load_data. rewrite Hrun. cbn [mbind result_bind].
    unfold concat_columns. by destruct data.
Qed.

End LoaderFacts.

(** Two tickers requested from 2021-01-01: ["B"] starts on 2021-01-04. *)
Lemma load_data_availability_witness :
  ((∃ t series first_date,
       t ∈ [("A"%string, (1 # 2)%Q); ("B"%string, (1 # 2)%Q)].*1 ∧
       two_histories t 18628 18635 = Ok series ∧
       index_min series.*1 = Some first_date ∧ 18628 < first_date) →
   ∃ t series first_date,
     t ∈ [("A"%string, (1 # 2)%Q); ("B"%string, (1 # 2)%Q)].*1 ∧
     two_histories t 18628 18635 = Ok series ∧
     index_min series.*1 = Some first_date ∧ 18628 < first_date ∧
     load_data two_histories round2_Q
         [("A"%string, (1 # 2)%Q); ("B"%string, (1 # 2)%Q)] 18628 18635 =
       Raise (ValueError (data_only_available_from t first_date)) ∧
     simulate_portfolio two_histories round2_Q 0%Q
         [("A"%string, (1 # 2)%Q); ("B"%string, (1 # 2)%Q)] 18628 18635
         1000%Q 200%Q =
       Raise (ValueError (data_only_available_from t first_date))) ∧
  ((∀ t series first_date,
       t ∈ [("A"%string, (1 # 2)%Q); ("B"%string, (1 # 2)%Q)].*1 →
       two_histories t 18628 18635 = Ok series →
       index_min series.*1 = Some first_date → first_date ≤ 18628) →
   ∀ t first_date,
     load_data two_histories round2_Q
         [("A"%string, (1 # 2)%Q); ("B"%string, (1 # 2)%Q)] 18628 18635 ≠
       Raise (ValueError (data_only_available_from t first_date))).
Proof.
  assert (Hfetch : ∀ t,
            t ∈ [("A"%string, (1 # 2)%Q); ("B"%string, (1 # 2)%Q)].*1 →
            ∃ series, two_histories t 18628 18635 = Ok series).
  { intros t [->|[->|[]%elem_of_nil]%elem_of_cons]%elem_of_cons; by eexists. }
  exact (load_data_availability two_histories round2_Q 0%Q 18628 18635
           [("A"%string, (1 # 2)%Q); ("B"%string, (1 # 2)%Q)] 1000%Q 200%Q
           Hfetch).
Defined.

(** On binary64 floats rounding works on the float product: 1.115 * 100 is
    111.5 and rounds to 1.12, 2.675 * 100 is 267.5 and rounds to 2.68; the
    halves 0.125 and 0.375 go to the even neighbours. *)
Example round2_binary64_values :
  (1.115 * 100)%float = 111.5%float ∧
  (2.675 * 100)%float = 267.5%float ∧
  round2_binary64 1.115 = 1.12%float ∧ round2_binary64 2.675 = 2.68%float ∧
  round2_binary64 0.125 = 0.12%float ∧ round2_binary64 0.375 = 0.38%float ∧
  round2_binary64 (-1.115) = (-1.12)%float ∧
  round2_binary64 29800 = 29800%float ∧
  PrimFloat.is_nan (round2_binary64 PrimFloat.nan) = true.
Proof. split_and!; vm_compute; reflexivity. Qed.

(** A ticker without any observation keeps its column, all of it missing,
    in the loaded frame; the pipeline then returns rows in which its
    share count and the portfolio value are not numbers. *)
Example load_data_empty_history :
  load_data float_histories round2_binary64
    [("A"%string, 1%float); ("E"%string, 0%float)] 18631 18635
    = Ok [(18631, {["A_price" := Some 1.12%float; "E_price" := None]});
          (18632, {["A_price" := Some 2.5%float; "E_price" := None]})] ∧
  ∃ r1 r2 s v,
    simulate_portfolio float_histories round2_binary64 PrimFloat.nan
      [("A"%string, 1%float); ("E"%string, 0%float)] 18631 18635
      1000%float 200%float = Ok [r1; r2] ∧
    fields r1 !! "E_shares" = Some s ∧ PrimFloat.is_nan s = true ∧
    fields r2 !! "portfolio_value" = Some v ∧ PrimFloat.is_nan v = true.
Proof.
  split; [vm_compute; reflexivity|].
  eexists _, _, _, _. split_and!; vm_compute; reflexivity.
Qed.

(** The three outcomes on that provider: from 2021-01-01 the run stops at
    ["B"], whose history starts on 2021-01-04; from 2021-01-04 both
    histories are joined and rounded; a failure of the provider is passed
    on. *)
Example load_data_two_histories :
  load_data two_histories round2_Q
    [("A"%string, (1 # 2)%Q); ("B"%string, (1 # 2)%Q)] 18628 18635
    = Raise (ValueError (data_only_available_from "B" 18631)) ∧
  simulate_portfolio two_histories round2_Q 0%Q
    [("A"%string, (1 # 2)%Q); ("B"%string, (1 # 2)%Q)] 18628 18635 1000%Q 200%Q
    = Raise (ValueError (data_only_available_from "B" 18631)) ∧
  load_data two_histories round2_Q
    [("A"%string, (1 # 2)%Q); ("B"%string, (1 # 2)%Q)] 18631 18635
    = Ok [(18631, {["A_price" := Some (inject_Z 1100 / 100)%Q;
                    "B_price" := Some (inject_Z 700 / 100)%Q]});
          (18632, {["A_price" := Some (inject_Z 1105 / 100)%Q;
                    "B_price" := Some (inject_Z 712 / 100)%Q]})] ∧
  load_data two_histories round2_Q [("C"%string, 1%Q)] 18628 18635
    = Raise (KeyError (name "C")).
Proof. split_and!; vm_compute; reflexivity. Qed.

(** * Further properties of the ledger, the resampler, the loader and
    the pipeline *)

(** ** The rows of the ledger *)

Lemma loc_Ok_elem_of {C} (df : DataFrame C) (day : Z) (row row' : gmap string C) :
  loc df day = Ok row → (day, row') ∈ df → row' = row.
Proof.
  intros Hf%loc_Ok Hin.
  assert (Hin' : (day, row') ∈ filter (λ r, r.1 = day) df)
    by (by apply list_elem_of_filter).
  rewrite Hf in Hin'. by apply list_elem_of_singleton in Hin' as [= ->].
Qed.

Lemma dom_dict_of {num} (entries : list (string * num)) :
  dom (dict_of entries) = list_to_set entries.*1.
Proof.
  induction entries as [|[k v] entries IH] using rev_ind.
  - apply dom_empty_L.
  - rewrite dict_of_snoc, dom_insert_L, IH, fmap_app, list_to_set_app_L.
    simpl. rewrite (right_id_L ∅ (∪)). apply (comm_L (∪)).
Qed.

Section LedgerRows.
Context {num : Type} `{!Arith num}.
Implicit Types (r : record (num := num)) (tickers : list (string * num)).
Implicit Types (df : DataFrame num) (rs : list (record (num := num))).

(** Every row is the step of the row before it, or of the initial
    dictionary, on its own day. *)
Lemma ledger_lookup_prev tickers df monthly days r0 rs i r :
  ledger tickers df monthly r0 days = Ok rs →
  rs !! i = Some r →
  ∃ rp day,
    (if i is S j then rs !! j = Some rp else rp = r0) ∧
    days !! i = Some day ∧
    day_step tickers df monthly rp day = Ok r.
Proof.
  intros Hl Hi. destruct i as [|j].
  - destruct days as [|day days]; [simpl in Hl; by inv_ok|].
    apply ledger_cons in Hl as (r' & rs' & -> & Hs & _).
    injection Hi as ->. by exists r0, day.
  - assert (is_Some (rs !! j)) as [rp Hj].
    { apply lookup_lt_is_Some. apply lookup_lt_Some in Hi. lia. }
    destruct (ledger_lookup_S _ _ _ _ _ _ _ _ _ Hl Hj Hi) as (day & Hday & Hs).
    by exists rp, day.
Qed.

(** A property of the initial dictionary that every iteration keeps holds
    of every row. *)
Lemma ledger_invariant tickers df monthly (I : record → Prop) days : ∀ r0 rs,
  ledger tickers df monthly r0 days = Ok rs →
  I r0 →
  (∀ r day r', I r → day_step tickers df monthly r day = Ok r' → I r') →
  ∀ r, r ∈ rs → I r.
Proof.
  induction days as [|day days IH]; intros r0 rs Hl H0 Hstep r Hr.
  - simpl in Hl. inv_ok. by apply elem_of_nil in Hr.
  - apply ledger_cons in Hl as (r' & rs' & -> & Hs & Hl).
    apply elem_of_cons in Hr as [->|Hr]; [by eapply Hstep|].
    eapply (IH _ _ Hl); [by eapply Hstep|done..].
Qed.

(** The prices an iteration leaves in the dictionary are the cells of the
    day's row. *)
Lemma day_step_prices tickers df monthly r day r' :
  day_step tickers df monthly r day = Ok r' →
  ∀ t, t ∈ tickers.*1 → ∃ row p,
    loc df day = Ok row ∧ row !! price_col t = Some p ∧
    fields r' !! price_col t = Some p.
Proof.
  intros (r1 & r2 & v & H1 & H2 & _ & ->)%day_step_Ok t Ht.
  apply update_prices_Ok in H1 as (_ & _ & Hpr).
  destruct (Hpr _ Ht) as (row & p & Hloc & Hrow & Hp).
  exists row, p. split_and!; [done..|]. simpl.
  rewrite lookup_insert_ne by auto with keys.
  case_decide; [|by subst].
  destruct H2 as (rb & (_ & Hfb & _)%buy_shares_Ok & (a & _ & ->)%add_amount_invested_Ok).
  simpl. rewrite lookup_insert_ne by auto with keys.
  by rewrite (Hfb (price_col t)) by auto with keys.
Qed.

(** X1. A run that returns has one row per row of the price frame, in the
    frame's order: row [i] carries the date of the frame's row [i] and,
    for every ticker, that row's price. *)
Theorem rows_follow_frame tickers df initial monthly rs :
  get_portfolio tickers df initial monthly = Ok rs →
  length rs = length df ∧
  ∀ i r, rs !! i = Some r →
    ∃ row, df !! i = Some (date r, row) ∧
      ∀ t, t ∈ tickers.*1 →
        ∃ p, row !! price_col t = Some p ∧ fields r !! price_col t = Some p.
Proof.
  intros (_ & r0 & _ & Hl)%get_portfolio_Ok. split.
  { by rewrite (ledger_length _ _ _ _ _ _ Hl), length_fmap. }
  intros i r Hi.
  destruct (ledger_lookup_prev _ _ _ _ _ _ _ _ Hl Hi) as (rp & day & _ & Hday & Hs).
  rewrite (day_step_date _ _ _ _ _ _ Hs).
  rewrite list_lookup_fmap in Hday.
  destruct (df !! i) as [[d row]|] eqn:Hdf; [|done]. injection Hday as ->.
  exists row. split; [done|]. intros t Ht.
  destruct (day_step_prices _ _ _ _ _ _ Hs t Ht) as (row' & p & Hloc & Hrow & Hp).
  apply list_elem_of_lookup_2 in Hdf.
  rewrite (loc_Ok_elem_of _ _ _ _ Hloc Hdf). eauto.
Qed.

End LedgerRows.

Section LedgerColumns.
Context {num : Type} `{!Arith num}.
Implicit Types (r : record (num := num)) (tickers : list (string * num)).
Implicit Types (df : DataFrame num) (rs : list (record (num := num))).

Lemma collect_keys (col : string → string)
    (f : string → result (string * num)) (ts : list string) :
  (∀ t kv, f t = Ok kv → kv.1 = col t) →
  ∀ l, collect f ts = Ok l → l.*1 = col <$> ts.
Proof.
  intros Hcol. induction ts as [|t ts IH]; intros l Hc; simpl in Hc.
  - by inv_ok.
  - inv_ok. simpl. f_equal; [eauto|by apply IH].
Qed.

Lemma dom_initial_record tickers df initial r0 :
  initial_record tickers df initial = Ok r0 →
  dom (fields r0) = record_keys tickers.
Proof.
  unfold initial_record. intros Hf.
  apply bind_Ok in Hf as (first & _ & Hf).
  apply bind_Ok in Hf as (prices & Hpr & Hf).
  apply bind_Ok in Hf as (shares & Hsh & Hf).
  injection Hf as <-. simpl.
  apply (collect_keys price_col) in Hpr; [|by intros t kv Hkv; inv_ok].
  apply (collect_keys shares_col) in Hsh; [|by intros t kv Hkv; inv_ok].
  rewrite dom_dict_of, !fmap_app, !list_to_set_app_L, Hpr, Hsh.
  unfold record_keys. simpl. by rewrite (assoc_L (∪)).
Qed.

Lemma dom_setitem k (v : num) r :
  k ∈ dom (fields r) → dom (fields (setitem k v r)) = dom (fields r).
Proof.
  intros Hk. simpl. rewrite dom_insert_L. apply subseteq_union_1_L.
  by apply singleton_subseteq_l.
Qed.

(** A loop that rebinds keys of the dictionary leaves its key set alone. *)
Lemma foldM_dom {X} (f : record → X → result record) (K : gset string)
    (xs : list X) :
  (∀ r x r', x ∈ xs → dom (fields r) = K → f r x = Ok r' → dom (fields r') = K) →
  ∀ r r', dom (fields r) = K → foldM f r xs = Ok r' → dom (fields r') = K.
Proof.
  induction xs as [|x xs IH]; intros Hf r r' HK Hr; simpl in Hr.
  - by inv_ok.
  - apply bind_Ok in Hr as (r1 & H1 & Hr).
    apply (IH (λ r x' r' Hx, Hf r x' r' (list_elem_of_further _ _ _ Hx)) r1);
      [|done].
    apply (Hf r x); [by left|done..].
Qed.

Lemma price_col_record_keys tickers t :
  t ∈ tickers.*1 → price_col t ∈ record_keys tickers.
Proof.
  intros Ht. unfold record_keys. do 2 apply elem_of_union_l.
  apply elem_of_list_to_set. by apply list_elem_of_fmap_2.
Qed.

Lemma portfolio_value_record_keys tickers :
  "portfolio_value"%string ∈ record_keys tickers.
Proof.
  unfold record_keys. apply elem_of_union_r, elem_of_union_r.
  by apply elem_of_singleton.
Qed.

Lemma dom_day_step tickers df monthly r day r' :
  dom (fields r) = record_keys tickers →
  day_step tickers df monthly r day = Ok r' →
  dom (fields r') = record_keys tickers.
Proof.
  intros HK Hs. unfold day_step in Hs.
  apply bind_Ok in Hs as (r1 & H1 & Hs). apply bind_Ok in Hs as (r2 & H2 & Hs).
  assert (HK1 : dom (fields r1) = record_keys tickers).
  { revert H1. apply foldM_dom; [|done].
    intros ra t rb Ht Ha Hb. inv_ok. rewrite dom_setitem; [done|].
    rewrite Ha. by apply price_col_record_keys. }
  assert (HK2 : dom (fields r2) = record_keys tickers).
  { case_decide; [|by inv_ok].
    apply bind_Ok in H2 as (rb & Hb & H2).
    assert (HKb : dom (fields rb) = record_keys tickers).
    { revert Hb. apply foldM_dom; [|done].
      intros ra t rc Ht Ha Hc.
      apply bind_Ok in Hc as (s & Hs' & Hc). inv_ok.
      rewrite dom_setitem; [done|]. apply elem_of_dom; by eexists. }
    unfold add_amount_invested in H2.
    apply bind_Ok in H2 as (a & Ha & H2). inv_ok.
    rewrite dom_setitem; [done|]. apply elem_of_dom; by eexists. }
  revert Hs. apply foldM_dom.
  - intros ra t rc Ht Ha Hc.
    apply bind_Ok in Hc as (v & Hv & Hc). inv_ok.
    rewrite dom_setitem; [done|]. apply elem_of_dom; by eexists.
  - rewrite dom_setitem; [done|]. rewrite HK2. apply portfolio_value_record_keys.
Qed.

(** X2. Every row of a run has the same columns: a price and a share
    count for each ticker, the amount invested and the portfolio value. *)
Theorem rows_columns tickers df initial monthly rs r :
  get_portfolio tickers df initial monthly = Ok rs →
  r ∈ rs →
  dom (fields r) = record_keys tickers.
Proof.
  intros (_ & r0 & H0 & Hl)%get_portfolio_Ok.
  apply (ledger_invariant _ _ _ (λ r, dom (fields r) = record_keys tickers)
           _ _ _ Hl).
  - by eapply dom_initial_record.
  - intros ra day rb. apply dom_day_step.
Qed.

(** X3. In every row the portfolio value is the sum, over the tickers in
    order and starting from 0, of share count times price, both as they
    stand in that row. *)
Theorem portfolio_value_is_holdings tickers df initial monthly rs r :
  get_portfolio tickers df initial monthly = Ok rs →
  r ∈ rs →
  ∃ v, holdings_value r tickers.*1 zero = Ok v ∧
       fields r !! "portfolio_value" = Some v.
Proof.
  intros (_ & r0 & _ & Hl)%get_portfolio_Ok Hr.
  apply list_elem_of_lookup_1 in Hr as [i Hi].
  destruct (ledger_lookup_prev _ _ _ _ _ _ _ _ Hl Hi) as (rp & day & _ & _ & Hs).
  apply day_step_Ok in Hs as (r1 & r2 & v & _ & _ & Hv & ->).
  exists v. split; [by rewrite holdings_value_setitem|].
  simpl. apply lookup_insert_eq.
Qed.

End LedgerColumns.

Section LedgerPurchases.
Context {num : Type} `{!Arith num}.
Implicit Types (r : record (num := num)) (tickers : list (string * num)).
Implicit Types (df : DataFrame num) (rs : list (record (num := num))).

(** What one iteration does to a share count: on the 1st of a month it
    adds the shares [monthly_addition] buys at the day's price, on any
    other day nothing. *)
Lemma day_step_shares tickers df monthly r day r' t w :
  NoDup tickers.*1 → (t, w) ∈ tickers →
  day_step tickers df monthly r day = Ok r' →
  if decide (day_of_month day = 1)
  then ∃ s p, fields r !! shares_col t = Some s ∧
              fields r' !! price_col t = Some p ∧
              fields r' !! shares_col t =
                Some (add s (get_number_of_shares monthly p w))
  else fields r' !! shares_col t = fields r !! shares_col t.
Proof.
  intros Hnd Hin (r1 & r2 & v & H1 & H2 & _ & ->)%day_step_Ok.
  assert (Ht : t ∈ tickers.*1) by (by apply (list_elem_of_fmap_2 fst _ (t, w))).
  apply update_prices_Ok in H1 as (_ & Hf1 & _). simpl in Hf1.
  simpl. rewrite !lookup_insert_ne by auto with keys.
  rewrite <- (Hf1 (shares_col t)) by auto with keys.
  case_decide; [|by subst].
  destruct H2 as (rb & (_ & Hfb & Hbuy)%buy_shares_Ok
                     & (a & _ & ->)%add_amount_invested_Ok).
  destruct (Hbuy Hnd _ Ht) as (s & p & w' & Hs & Hp & Hw & Hrb).
  rewrite (weight_NoDup _ _ _ Hnd Hin) in Hw. injection Hw as <-.
  exists s, p. simpl. rewrite !lookup_insert_ne by auto with keys.
  split_and!; [done| |done].
  by rewrite (Hfb (price_col t)) by auto with keys.
Qed.

(** X4. Between two consecutive rows a ticker's share count changes on
    the 1st of a month only, and then by the shares [monthly_addition]
    buys at that day's price and the ticker's weight. *)
Theorem shares_purchase tickers df initial monthly rs i r1 r2 t w :
  NoDup tickers.*1 →
  get_portfolio tickers df initial monthly = Ok rs →
  rs !! i = Some r1 →
  rs !! S i = Some r2 →
  (t, w) ∈ tickers →
  ∃ s1 p2,
    fields r1 !! shares_col t = Some s1 ∧
    fields r2 !! price_col t = Some p2 ∧
    fields r2 !! shares_col t =
      Some (if decide (day_of_month (date r2) = 1)
            then add s1 (get_number_of_shares monthly p2 w) else s1).
Proof.
  intros Hnd Hrun H1 H2 Hin.
  assert (Ht : t ∈ tickers.*1) by (by apply (list_elem_of_fmap_2 fst _ (t, w))).
  pose proof Hrun as (_ & r0 & _ & Hl)%get_portfolio_Ok.
  destruct (ledger_lookup_S _ _ _ _ _ _ _ _ _ Hl H1 H2) as (day & _ & Hs).
  rewrite (day_step_date _ _ _ _ _ _ Hs).
  destruct (day_step_prices _ _ _ _ _ _ Hs t Ht) as (_ & p2 & _ & _ & Hp2).
  pose proof (day_step_shares _ _ _ _ _ _ _ _ Hnd Hin Hs) as Hsh.
  case_decide.
  - destruct Hsh as (s & p & Hs1 & Hp & Hs2). exists s, p2.
    split_and!; [done..|]. rewrite Hs2. repeat f_equal. congruence.
  - destruct (ledger_lookup_prev _ _ _ _ _ _ _ _ Hl H1)
      as (rp & day1 & _ & _ & Hs1).
    assert (Ht1 : t ∈ tickers.*1) by done.
    apply day_step_Ok in Hs1 as (ra & rb & v & _ & _ & Hv & ->).
    assert (is_Some (fields rb !! shares_col t)) as [s1 Hs1].
    { clear -Hv Ht. unfold holdings_value in Hv.
      revert Ht Hv. generalize (tickers.*1) (zero (num := num)).
      intros ts. induction ts as [|a ts IH]; intros v0 Ht Hv.
      - by apply elem_of_nil in Ht.
      - simpl in Hv. apply bind_Ok in Hv as (v1 & Hbody & Hv). inv_ok.
        apply elem_of_cons in Ht as [->|Ht]; [by eexists|eauto]. }
    exists s1, p2. split_and!; [|done|].
    + simpl. by rewrite lookup_insert_ne by auto with keys.
    + rewrite Hsh. simpl. by rewrite lookup_insert_ne by auto with keys.
Qed.

Lemma foldM_day_step_amount tickers df monthly days : ∀ r r' a,
  foldM (day_step tickers df monthly) r days = Ok r' →
  fields r !! "amount_invested" = Some a →
  fields r' !! "amount_invested" =
    Some (Nat.iter (contributions days) (λ a, add a monthly) a).
Proof.
  induction days as [|day days IH]; intros r r' a Hf Ha; simpl in Hf.
  - by inv_ok.
  - apply bind_Ok in Hf as (r1 & H1 & Hf).
    pose proof (day_step_amount_invested _ _ _ _ _ _ H1) as Ha1.
    rewrite Ha in Ha1. rewrite contributions_cons.
    case_decide; simpl in Ha1.
    + rewrite (IH _ _ _ Hf Ha1). f_equal. symmetry.
      apply (Nat.iter_succ_r _ (λ a, add a monthly)).
    + by rewrite (IH _ _ _ Hf Ha1).
Qed.

(** X5. The amount invested in row [i] is [initial_amount] with
    [monthly_addition] added once for each 1st of a month among the dates
    of rows 0 to [i]. *)
Theorem amount_invested_total tickers df initial monthly rs i r :
  get_portfolio tickers df initial monthly = Ok rs →
  rs !! i = Some r →
  fields r !! "amount_invested" =
    Some (Nat.iter (contributions (take (S i) df.*1))
            (λ a, add a monthly) initial).
Proof.
  intros (_ & r0 & H0 & Hl)%get_portfolio_Ok Hi.
  apply initial_record_Ok in H0 as (d0 & row0 & rest & _ & _ & Ha0 & _).
  destruct (ledger_lookup _ _ _ _ _ _ _ _ Hl Hi) as [Hf _].
  by apply (foldM_day_step_amount _ _ _ _ _ _ _ Hf).
Qed.

End LedgerPurchases.

(** ** Purchases in exact arithmetic *)

(** A sum of terms worth [A * weight] each is worth [A] times the sum of
    the weights. *)
Lemma foldl_Qplus_weighted (f : string → Q) (A : Q) (l : list (string * Q)) :
  (∀ t w, (t, w) ∈ l → (f t == A * w)%Q) →
  ∀ acc c, (foldl Qplus acc (f <$> l.*1) + A * c
            == acc + A * foldl Qplus c l.*2)%Q.
Proof.
  induction l as [|[t w] l IH]; intros Hl acc c.
  - simpl. reflexivity.
  - rewrite !fmap_cons. cbn [foldl fst snd].
    specialize (IH (λ t' w' Hin, Hl t' w' (list_elem_of_further _ _ _ Hin))
                  (acc + f t)%Q (c + w)%Q).
    apply (Qplus_inj_r _ _ (A * w)).
    transitivity (foldl Qplus (acc + f t) (f <$> l.*1) + A * (c + w))%Q; [ring|].
    rewrite IH, (Hl t w) by (by left). ring.
Qed.

Lemma sum_weights_one (tickers : list (string * Q)) :
  neq (sum_weights tickers) one = false → (foldl Qplus 0 tickers.*2 == 1)%Q.
Proof. simpl. intros Hs%negb_false_iff. by apply Qeq_bool_iff. Qed.

Section PurchasesExact.
Implicit Types (r : record (num := Q)) (tickers : list (string * Q)).
Implicit Types (df : DataFrame Q).

(** X6. In exact arithmetic, on the 1st of a month the whole of
    [monthly_addition] is spent: the shares bought since the row before,
    at the day's prices (none of them zero), cost [monthly_addition]. *)
Theorem contribution_is_spent tickers df (initial monthly : Q) rs i r1 r2 :
  NoDup tickers.*1 →
  get_portfolio tickers df initial monthly = Ok rs →
  rs !! i = Some r1 →
  rs !! S i = Some r2 →
  day_of_month (date r2) = 1 →
  (∀ t p, t ∈ tickers.*1 → fields r2 !! price_col t = Some p → ¬ (p == 0)%Q) →
  (purchase_cost tickers.*1 r1 r2 == monthly)%Q.
Proof.
  intros Hnd Hrun H1 H2 Hday Hp.
  pose proof Hrun as (Hsum%sum_weights_one & r0 & _ & Hl)%get_portfolio_Ok.
  destruct (ledger_lookup_S _ _ _ _ _ _ _ _ _ Hl H1 H2) as (day & _ & Hs).
  rewrite (day_step_date _ _ _ _ _ _ Hs) in Hday.
  unfold purchase_cost.
  pose proof (foldl_Qplus_weighted
    (λ t, (field_of r2 (shares_col t) - field_of r1 (shares_col t))
          * field_of r2 (price_col t))%Q monthly tickers) as Hw.
  apply (Qplus_inj_r _ _ (monthly * 0)).
  rewrite Hw, Hsum; [ring|].
  intros t w Hin.
  assert (Ht : t ∈ tickers.*1) by (by apply (list_elem_of_fmap_2 fst _ (t, w))).
  pose proof (day_step_shares _ _ _ _ _ _ _ _ Hnd Hin Hs) as Hsh.
  rewrite decide_True in Hsh by done.
  destruct Hsh as (s & p & Hs1 & Hp2 & Hs2).
  unfold field_of. rewrite Hs1, Hp2, Hs2. simpl.
  specialize (Hp t p Ht Hp2). unfold get_number_of_shares. simpl. by field.
Qed.

End PurchasesExact.

Section ConstantPrices.
Implicit Types (r : record (num := Q)) (tickers : list (string * Q)).
Implicit Types (df : DataFrame Q).

Lemma day_step_balanced tickers df monthly (price : string → Q) r day r' :
  NoDup tickers.*1 →
  (∀ d row t, (d, row) ∈ df → t ∈ tickers.*1 →
              row !! price_col t = Some (price t)) →
  (∀ t, t ∈ tickers.*1 → ¬ (price t == 0)%Q) →
  balanced tickers price r →
  day_step tickers df monthly r day = Ok r' →
  balanced tickers price r'.
Proof.
  intros Hnd Hflat Hne (a & Ha & Hbal) Hs.
  pose proof (day_step_amount_invested _ _ _ _ _ _ Hs) as Ha'.
  rewrite Ha in Ha'.
  exists (if decide (day_of_month day = 1) then (a + monthly)%Q else a).
  split; [by case_decide|].
  intros t w Hin.
  assert (Ht : t ∈ tickers.*1) by (by apply (list_elem_of_fmap_2 fst _ (t, w))).
  destruct (Hbal t w Hin) as (s & Hsh & _ & Hsp).
  destruct (day_step_prices _ _ _ _ _ _ Hs t Ht) as (row & p & Hloc & Hrow & Hp).
  apply loc_elem_of in Hloc.
  rewrite (Hflat _ _ _ Hloc Ht) in Hrow. injection Hrow as <-.
  pose proof (day_step_shares _ _ _ _ _ _ _ _ Hnd Hin Hs) as Hsh'.
  case_decide.
  - destruct Hsh' as (s0 & p & Hs0 & Hp' & ->).
    assert (s0 = s) as -> by congruence.
    assert (p = price t) as -> by congruence.
    eexists. split_and!; [done..|].
    unfold get_number_of_shares. simpl.
    transitivity (s * price t + monthly * w)%Q; [|rewrite Hsp; ring].
    field. by apply Hne.
  - exists s. split_and!; [congruence|done..].
Qed.

(** X7. In exact arithmetic, when each ticker's price is the same on
    every day (and not zero), the portfolio value of every row equals the
    amount invested in that row. *)
Theorem constant_prices_value tickers df (initial monthly : Q)
    (price : string → Q) rs r :
  NoDup tickers.*1 →
  (∀ d row t, (d, row) ∈ df → t ∈ tickers.*1 →
              row !! price_col t = Some (price t)) →
  (∀ t, t ∈ tickers.*1 → ¬ (price t == 0)%Q) →
  get_portfolio tickers df initial monthly = Ok rs →
  r ∈ rs →
  ∃ v a, fields r !! "portfolio_value" = Some v ∧
         fields r !! "amount_invested" = Some a ∧ (v == a)%Q.
Proof.
  intros Hnd Hflat Hne Hrun Hr.
  pose proof Hrun as (Hsum%sum_weights_one & r0 & H0 & Hl)%get_portfolio_Ok.
  assert (Hbal : balanced tickers price r).
  { apply (ledger_invariant _ _ _ (balanced tickers price) _ _ _ Hl); [|
      by intros ra day rb; apply day_step_balanced|done].
    apply initial_record_Ok in H0 as (d0 & row0 & rest & -> & _ & Ha0 & _ & Ht0).
    exists initial. split; [done|]. intros t w Hin.
    assert (Ht : t ∈ tickers.*1) by (by apply (list_elem_of_fmap_2 fst _ (t, w))).
    destruct (Ht0 t Ht) as (p & w' & Hrow & Hw & Hp & Hsh).
    rewrite (weight_NoDup _ _ _ Hnd Hin) in Hw. injection Hw as <-.
    rewrite (Hflat d0 row0 t) in Hrow by (by left || done).
    injection Hrow as <-.
    eexists. split_and!; [done..|].
    apply get_number_of_shares_value. by apply Hne. }
  destruct Hbal as (a & Ha & Hbal).
  apply list_elem_of_lookup_1 in Hr as [i Hi].
  destruct (ledger_lookup_prev _ _ _ _ _ _ _ _ Hl Hi) as (rp & day & _ & _ & Hs).
  apply day_step_Ok in Hs as (r1 & r2 & v & _ & _ & Hv & ->).
  rewrite <- (holdings_value_setitem r2 v) in Hv.
  exists v, a. split_and!; [by apply lookup_insert_eq|done|].
  assert (Hworth : ∀ t w, (t, w) ∈ tickers → ∃ s p,
            fields (setitem "portfolio_value" v r2) !! shares_col t = Some s ∧
            fields (setitem "portfolio_value" v r2) !! price_col t = Some p ∧
            (s * p == a * w)%Q).
  { intros t w Hin. destruct (Hbal t w Hin) as (s & ? & ? & ?). eauto. }
  apply (Qplus_inj_r _ _ (a * 0)).
  rewrite (holdings_value_weighted _ a tickers Hworth _ _ _ Hv).
  simpl. rewrite Hsum. ring.
Qed.

End ConstantPrices.

(** ** How a run of the ledger fails, and when it returns *)

Lemma collect_Raise_elem {A B} (f : A → result B) (l : list A) (e : exn) :
  collect f l = Raise e → ∃ a, a ∈ l ∧ f a = Raise e.
Proof.
  induction l as [|a l IH]; intros Hr; simpl in Hr; [done|].
  apply bind_Raise in Hr as [Hr|(b & _ & Hr)]; [exists a; split; [by left|done]|].
  apply bind_Raise in Hr as [Hr|(bs & _ & Hr)]; [|done].
  destruct (IH Hr) as (a' & Hin & Ha'). exists a'. split; [by right|done].
Qed.

Lemma foldM_Raise_elem {A B} (f : B → A → result B) (l : list A) (e : exn) :
  ∀ b, foldM f b l = Raise e → ∃ b' a, a ∈ l ∧ f b' a = Raise e.
Proof.
  induction l as [|a l IH]; intros b Hr; simpl in Hr; [done|].
  apply bind_Raise in Hr as [Hr|(b' & _ & Hr)].
  - exists b, a. split; [by left|done].
  - destruct (IH _ Hr) as (b'' & a' & Hin & Ha'). exists b'', a'.
    split; [by right|done].
Qed.

Lemma collect_total {A B} (f : A → result B) (l : list A) :
  (∀ a, a ∈ l → ∃ b, f a = Ok b) → ∃ bs, collect f l = Ok bs.
Proof.
  induction l as [|a l IH]; intros Hf; simpl; [by eexists|].
  destruct (Hf a) as [b ->]; [by left|].
  destruct IH as [bs ->]; [by intros a' Ha'; apply Hf; right|].
  by eexists.
Qed.

Lemma foldM_total {A B} (I : B → Prop) (f : B → A → result B) (l : list A) :
  (∀ b a, a ∈ l → I b → ∃ b', f b a = Ok b' ∧ I b') →
  ∀ b, I b → ∃ b', foldM f b l = Ok b' ∧ I b'.
Proof.
  induction l as [|a l IH]; intros Hf b Hb; simpl; [by exists b|].
  destruct (Hf b a) as (b1 & -> & Hb1); [by left|done|].
  apply IH; [|done]. intros b' a' Ha'. apply Hf. by right.
Qed.

(** A date of the index selects a row, or more than one. *)
Lemma loc_Raise_index {C} (df : DataFrame C) (day : Z) (e : exn) :
  day ∈ df.*1 → loc df day = Raise e → e = Unsupported.
Proof.
  intros ([d row] & Hd & Hin)%list_elem_of_fmap. simpl in Hd. subst d.
  unfold loc.
  destruct (filter (λ r, r.1 = day) df) as [|r [|]] eqn:Hf; try done;
    [|by intros [= <-]].
  assert (Hin' : (day, row) ∈ filter (λ r, r.1 = day) df)
    by (by apply list_elem_of_filter).
  rewrite Hf in Hin'. by apply elem_of_nil in Hin'.
Qed.

Section LedgerFailures.
Context {num : Type} `{!Arith num}.
Implicit Types (r : record (num := num)) (tickers : list (string * num)).
Implicit Types (df : DataFrame num) (rs : list (record (num := num))).

Lemma weight_total tickers t : t ∈ tickers.*1 → ∃ w, weight tickers t = Ok w.
Proof.
  intros ([t' w] & Ht & Hin)%list_elem_of_fmap. simpl in Ht. subst t'.
  unfold weight.
  destruct (list_find_elem_of (λ tw : string * num, tw.1 = t) tickers (t, w))
    as [x ->]; [done..|]. by eexists.
Qed.

Lemma shares_col_record_keys tickers t :
  t ∈ tickers.*1 → shares_col t ∈ record_keys tickers.
Proof.
  intros Ht. unfold record_keys. apply elem_of_union_l, elem_of_union_r.
  apply elem_of_list_to_set. by apply list_elem_of_fmap_2.
Qed.

Lemma amount_invested_record_keys tickers :
  "amount_invested"%string ∈ record_keys tickers.
Proof.
  unfold record_keys. apply elem_of_union_r, elem_of_union_l.
  by apply elem_of_singleton.
Qed.

Lemma getitem_total tickers r k :
  dom (fields r) = record_keys tickers → k ∈ record_keys tickers →
  ∃ v, getitem r k = Ok v.
Proof.
  intros HK Hk. rewrite <- HK in Hk. apply elem_of_dom in Hk as [v Hv].
  exists v. by apply getitem_Ok.
Qed.

(** With every key of the display in the dictionary, the purchase, the
    addition and the revaluation go through. *)
Lemma buy_shares_total tickers monthly r :
  dom (fields r) = record_keys tickers →
  ∃ r', buy_shares tickers monthly r = Ok r' ∧
        dom (fields r') = record_keys tickers.
Proof.
  unfold buy_shares. apply (foldM_total (λ r, dom (fields r) = record_keys tickers)). intros ra t Ht Ha.
  destruct (getitem_total tickers ra (shares_col t)) as [s Hs];
    [done|by apply shares_col_record_keys|].
  destruct (getitem_total tickers ra (price_col t)) as [p Hp];
    [done|by apply price_col_record_keys|].
  destruct (weight_total tickers t Ht) as [w Hw].
  rewrite Hs, Hp, Hw. eexists. split; [done|].
  rewrite dom_setitem; [done|]. rewrite Ha. by apply shares_col_record_keys.
Qed.

Lemma add_amount_invested_total tickers monthly r :
  dom (fields r) = record_keys tickers →
  ∃ r', add_amount_invested monthly r = Ok r' ∧
        dom (fields r') = record_keys tickers.
Proof.
  intros HK. unfold add_amount_invested.
  destruct (getitem_total tickers r "amount_invested") as [a Ha];
    [done|by apply amount_invested_record_keys|].
  rewrite Ha. eexists. split; [done|].
  rewrite dom_setitem; [done|]. rewrite HK. apply amount_invested_record_keys.
Qed.

Lemma update_portfolio_value_total tickers r :
  dom (fields r) = record_keys tickers →
  ∃ r', update_portfolio_value tickers r = Ok r' ∧
        dom (fields r') = record_keys tickers.
Proof.
  intros HK. unfold update_portfolio_value. apply (foldM_total (λ r, dom (fields r) = record_keys tickers)).
  - intros ra t Ht Ha.
    destruct (getitem_total tickers ra "portfolio_value") as [v Hv];
      [done|by apply portfolio_value_record_keys|].
    destruct (getitem_total tickers ra (shares_col t)) as [s Hs];
      [done|by apply shares_col_record_keys|].
    destruct (getitem_total tickers ra (price_col t)) as [p Hp];
      [done|by apply price_col_record_keys|].
    rewrite Hv, Hs, Hp. eexists. split; [done|].
    rewrite dom_setitem; [done|]. rewrite Ha. apply portfolio_value_record_keys.
  - rewrite dom_setitem; [done|]. rewrite HK. apply portfolio_value_record_keys.
Qed.

Lemma update_prices_total tickers df day row r :
  dom (fields r) = record_keys tickers →
  loc df day = Ok row →
  (∀ t, t ∈ tickers.*1 → is_Some (row !! price_col t)) →
  ∃ r', update_prices tickers df day r = Ok r' ∧
        dom (fields r') = record_keys tickers.
Proof.
  intros HK Hloc Hrow. unfold update_prices. apply (foldM_total (λ r, dom (fields r) = record_keys tickers)); [|done].
  intros ra t Ht Ha. rewrite Hloc. destruct (Hrow t Ht) as [p Hp].
  cbn [mbind result_bind]. unfold cell. rewrite Hp. eexists. split; [done|].
  rewrite dom_setitem; [done|]. rewrite Ha. by apply price_col_record_keys.
Qed.

Lemma dom_update_prices tickers df day r r' :
  dom (fields r) = record_keys tickers →
  update_prices tickers df day r = Ok r' →
  dom (fields r') = record_keys tickers.
Proof.
  intros HK. apply foldM_dom; [|done].
  intros ra t rb Ht Ha Hb. inv_ok. rewrite dom_setitem; [done|].
  rewrite Ha. by apply price_col_record_keys.
Qed.

(** The price update fails on the look-up of the day's row or on a
    ticker's column in it. *)
Lemma update_prices_Raise_cases tickers df day r e :
  update_prices tickers df day r = Raise e →
  loc df day = Raise e ∨
  ∃ row t, loc df day = Ok row ∧ t ∈ tickers.*1 ∧
           row !! price_col t = None ∧ e = KeyError (name (price_col t)).
Proof.
  intros (ra & t & Ht & Hr)%foldM_Raise_elem.
  apply bind_Raise in Hr as [Hr|(row & Hloc & Hr)]; [by left|].
  right. exists row, t. split_and!; [done..| |].
  - unfold cell in Hr. by destruct (row !! price_col t).
  - apply bind_Raise in Hr as [Hr|(p & _ & Hr)]; [|done].
    by apply from_option_Raise in Hr.
Qed.

(** After the price update nothing in an iteration can fail. *)
Lemma day_step_after_prices tickers monthly day r1 :
  dom (fields r1) = record_keys tickers →
  ∃ r', (r2 ← (if decide (day_of_month day = 1)
               then rb ← buy_shares tickers monthly r1;
                    add_amount_invested monthly rb
               else Ok r1);
         update_portfolio_value tickers r2) = Ok r' ∧
        dom (fields r') = record_keys tickers.
Proof.
  intros HK1.
  assert (∃ r2, (if decide (day_of_month day = 1)
                 then rb ← buy_shares tickers monthly r1;
                      add_amount_invested monthly rb
                 else Ok r1) = Ok r2 ∧ dom (fields r2) = record_keys tickers)
    as (r2 & -> & HK2).
  { case_decide; [|by exists r1].
    destruct (buy_shares_total tickers monthly r1 HK1) as (rb & -> & HKb).
    by apply add_amount_invested_total. }
  by apply update_portfolio_value_total.
Qed.

Lemma day_step_Raise_cases tickers df monthly r day e :
  dom (fields r) = record_keys tickers →
  day ∈ df.*1 →
  day_step tickers df monthly r day = Raise e →
  e = Unsupported ∨
  ∃ t row, t ∈ tickers.*1 ∧ (day, row) ∈ df ∧ row !! price_col t = None ∧
           e = KeyError (name (price_col t)).
Proof.
  intros HK Hday Hr. unfold day_step in Hr.
  apply bind_Raise in Hr as [Hr|(r1 & H1 & Hr)].
  - apply update_prices_Raise_cases in Hr
      as [Hr|(row & t & Hloc & Ht & Hrow & ->)].
    + left. by eapply loc_Raise_index.
    + right. exists t, row. split_and!; [done| |done..]. by apply loc_elem_of.
  - apply dom_update_prices in H1; [|done].
    destruct (day_step_after_prices tickers monthly day r1 H1) as (r' & Hok & _).
    congruence.
Qed.

Lemma day_step_total tickers df monthly r day row :
  dom (fields r) = record_keys tickers →
  loc df day = Ok row →
  (∀ t, t ∈ tickers.*1 → is_Some (row !! price_col t)) →
  ∃ r', day_step tickers df monthly r day = Ok r' ∧
        dom (fields r') = record_keys tickers.
Proof.
  intros HK Hloc Hrow. unfold day_step.
  destruct (update_prices_total tickers df day row (set_date day r) HK Hloc Hrow)
    as (r1 & -> & HK1).
  by apply day_step_after_prices.
Qed.

Lemma initial_record_Raise_cases tickers df initial e :
  initial_record tickers df initial = Raise e →
  (df = [] ∧ e = IndexError) ∨
  ∃ d0 row0 rest t, df = (d0, row0) :: rest ∧ t ∈ tickers.*1 ∧
    row0 !! price_col t = None ∧ e = KeyError (name (price_col t)).
Proof.
  unfold initial_record. destruct df as [|[d0 row0] rest].
  { intros [= <-]. by left. }
  intros Hr. right. exists d0, row0, rest. simpl in Hr.
  assert (Hcell : ∀ t e', cell row0 (price_col t) = Raise e' →
            row0 !! price_col t = None ∧ e' = KeyError (name (price_col t))).
  { intros t e' Hc. unfold cell in Hc.
    destruct (row0 !! price_col t); [done|]. by injection Hc as <-. }
  apply bind_Raise in Hr as [(t & Ht & Hr)%collect_Raise_elem|(prices & _ & Hr)].
  { apply bind_Raise in Hr as [Hr|(p & _ & Hr)]; [|done].
    destruct (Hcell _ _ Hr). by exists t. }
  apply bind_Raise in Hr as [(t & Ht & Hr)%collect_Raise_elem|(shares & _ & Hr)];
    [|done].
  apply bind_Raise in Hr as [Hr|(p & _ & Hr)].
  { destruct (Hcell _ _ Hr). by exists t. }
  destruct (weight_total tickers t Ht) as [w Hw]. rewrite Hw in Hr. done.
Qed.

Lemma initial_record_total tickers d0 row0 rest initial :
  (∀ t, t ∈ tickers.*1 → is_Some (row0 !! price_col t)) →
  ∃ r0, initial_record tickers ((d0, row0) :: rest) initial = Ok r0.
Proof.
  intros Hrow. unfold initial_record. simpl.
  destruct (collect_total (λ ticker,
      p ← cell row0 (price_col ticker); Ok (price_col ticker, p)) tickers.*1)
    as [prices ->].
  { intros t Ht. destruct (Hrow t Ht) as [p Hp]. unfold cell. rewrite Hp.
    by eexists. }
  destruct (collect_total (λ ticker,
      p ← cell row0 (price_col ticker);
      w ← weight tickers ticker;
      Ok (shares_col ticker, get_number_of_shares initial p w)) tickers.*1)
    as [shares ->].
  { intros t Ht. destruct (Hrow t Ht) as [p Hp]. unfold cell. rewrite Hp.
    destruct (weight_total tickers t Ht) as [w ->]. by eexists. }
  by eexists.
Qed.

Lemma ledger_Raise_cases tickers df monthly days : ∀ r e,
  dom (fields r) = record_keys tickers →
  (∀ day, day ∈ days → day ∈ df.*1) →
  ledger tickers df monthly r days = Raise e →
  e = Unsupported ∨
  ∃ t day row, t ∈ tickers.*1 ∧ (day, row) ∈ df ∧ row !! price_col t = None ∧
               e = KeyError (name (price_col t)).
Proof.
  induction days as [|day days IH]; intros r e HK Hdays Hr; simpl in Hr; [done|].
  apply bind_Raise in Hr as [Hr|(r' & Hs & Hr)].
  - apply day_step_Raise_cases in Hr as [->|(t & row & ?)];
      [by left| |done|by apply Hdays; left].
    right. by exists t, day, row.
  - apply bind_Raise in Hr as [Hr|(rs & _ & Hr)]; [|done].
    apply (IH r'); [by eapply dom_day_step| |done].
    intros d Hd. apply Hdays. by right.
Qed.

Lemma ledger_total tickers df monthly days : ∀ r,
  dom (fields r) = record_keys tickers →
  NoDup df.*1 →
  (∀ day, day ∈ days → day ∈ df.*1) →
  (∀ d row t, (d, row) ∈ df → t ∈ tickers.*1 → is_Some (row !! price_col t)) →
  ∃ rs, ledger tickers df monthly r days = Ok rs.
Proof.
  induction days as [|day days IH]; intros r HK Hnd Hdays Hcols; simpl;
    [by eexists|].
  assert (Hday : day ∈ df.*1) by (apply Hdays; by left).
  apply list_elem_of_fmap in Hday as ([d row] & Hd & Hin).
  simpl in Hd. subst d.
  destruct (day_step_total tickers df monthly r day row HK) as (r' & -> & HK').
  { by apply loc_NoDup. }
  { intros t Ht. by apply (Hcols day row). }
  cbn [mbind result_bind].
  destruct (IH r' HK' Hnd) as [rs ->]; [|done|by eexists].
  intros d' Hd'. apply Hdays. by right.
Qed.

(** The ways a run can end in an exception. *)
Lemma get_portfolio_Raise_cases tickers df initial monthly e :
  get_portfolio tickers df initial monthly = Raise e →
  (neq (sum_weights tickers) one = true ∧
   e = ValueError tickers_weights_should_sum_up_to_1) ∨
  (neq (sum_weights tickers) one = false ∧
   ((df = [] ∧ e = IndexError) ∨
    e = Unsupported ∨
    ∃ t day row, t ∈ tickers.*1 ∧ (day, row) ∈ df ∧
                 row !! price_col t = None ∧ e = KeyError (name (price_col t)))).
Proof.
  rewrite get_portfolio_ledger.
  destruct (neq (sum_weights tickers) one); [intros [= <-]; by left|].
  intros Hr. right. split; [done|].
  apply bind_Raise in Hr as [Hr|(r0 & H0 & Hr)].
  - apply initial_record_Raise_cases in Hr
      as [?|(d0 & row0 & rest & t & -> & Ht & Hrow & ->)]; [by left|].
    right. right. exists t, d0, row0. split_and!; [done|by left|done..].
  - right. apply (ledger_Raise_cases tickers df monthly df.*1 r0); [|done..].
    by eapply dom_initial_record.
Qed.

(** X8. The only [KeyError] a run raises is for the price column of a
    ticker that some row of the frame lacks; the run never misses a key
    of its own dictionary, a weight or a date. *)
Theorem missing_price_column tickers df initial monthly k :
  get_portfolio tickers df initial monthly = Raise (KeyError k) →
  ∃ t day row, k = name (price_col t) ∧ t ∈ tickers.*1 ∧
               (day, row) ∈ df ∧ row !! price_col t = None.
Proof.
  intros [[_ [=]]|[_ [[_ [=]]|[[=]|(t & day & row & Ht & Hin & Hrow & [= ->])]]]]
    %get_portfolio_Raise_cases.
  by exists t, day, row.
Qed.

(** X9. A run raises [IndexError] exactly when the weights pass the check
    and the price frame has no row. *)
Theorem empty_frame_IndexError tickers df initial monthly :
  get_portfolio tickers df initial monthly = Raise IndexError
  ↔ neq (sum_weights tickers) one = false ∧ df = [].
Proof.
  split.
  - intros [[_ [=]]|[Hw [[-> _]|[[=]|(t & day & row & _ & _ & _ & [=])]]]]
      %get_portfolio_Raise_cases. done.
  - intros [Hw ->]. rewrite get_portfolio_ledger, Hw. done.
Qed.

(** With a price for every ticker in every row of a frame of distinct
    dates, the display and every iteration go through. *)
Lemma get_portfolio_runs tickers df initial monthly :
  neq (sum_weights tickers) one = false →
  df ≠ [] →
  NoDup df.*1 →
  (∀ d row t, (d, row) ∈ df → t ∈ tickers.*1 → is_Some (row !! price_col t)) →
  ∃ r0 rs, initial_record tickers df initial = Ok r0 ∧
           ledger tickers df monthly r0 df.*1 = Ok rs ∧
           get_portfolio tickers df initial monthly = Ok rs.
Proof.
  intros Hw Hdf Hnd Hcols. rewrite get_portfolio_ledger, Hw.
  destruct df as [|[d0 row0] rest]; [done|].
  destruct (initial_record_total tickers d0 row0 rest initial) as [r0 H0].
  { intros t Ht. apply (Hcols d0 row0); [by left|done]. }
  rewrite H0. cbn [mbind result_bind].
  destruct (ledger_total tickers ((d0, row0) :: rest) monthly
              ((d0, row0) :: rest).*1 r0) as [rs Hl];
    [by eapply dom_initial_record|done..|].
  by exists r0, rs.
Qed.

(** X10. A run returns its rows when the weights pass the check, the
    frame has a row, its dates are distinct and every row has a price for
    every ticker. *)
Theorem get_portfolio_returns tickers df initial monthly :
  neq (sum_weights tickers) one = false →
  df ≠ [] →
  NoDup df.*1 →
  (∀ d row t, (d, row) ∈ df → t ∈ tickers.*1 → is_Some (row !! price_col t)) →
  ∃ rs, get_portfolio tickers df initial monthly = Ok rs.
Proof.
  intros Hw Hdf Hnd Hcols.
  destruct (get_portfolio_runs tickers df initial monthly Hw Hdf Hnd Hcols)
    as (r0 & rs & _ & _ & Hrun).
  by exists rs.
Qed.

End LedgerFailures.

(** The three days around New Year 2021. *)
Lemma rows_follow_frame_witness :
  length (rows new_year_run_Q) = length (flat_prices "X" 10%Q new_year_2021) ∧
  ∀ i r, rows new_year_run_Q !! i = Some r →
    ∃ row, flat_prices "X" 10%Q new_year_2021 !! i = Some (date r, row) ∧
      ∀ t, t ∈ [("X"%string, 1%Q)].*1 →
        ∃ p, row !! price_col t = Some p ∧ fields r !! price_col t = Some p.
Proof.
  assert (Hrun : get_portfolio [("X"%string, 1%Q)]
            (flat_prices "X" 10%Q new_year_2021) 1000%Q 200%Q
            = Ok (rows new_year_run_Q)) by (vm_compute; reflexivity).
  exact (rows_follow_frame _ _ _ _ _ Hrun).
Defined.

Lemma rows_columns_witness :
  dom (fields (row_at new_year_run_Q 1)) = record_keys [("X"%string, 1%Q)].
Proof.
  assert (Hrun : get_portfolio [("X"%string, 1%Q)]
            (flat_prices "X" 10%Q new_year_2021) 1000%Q 200%Q
            = Ok (rows new_year_run_Q)) by (vm_compute; reflexivity).
  assert (Hin : row_at new_year_run_Q 1 ∈ rows new_year_run_Q).
  { apply (list_elem_of_lookup_2 _ 1%nat). vm_compute; reflexivity. }
  exact (rows_columns _ _ _ _ _ _ Hrun Hin).
Defined.

Lemma portfolio_value_is_holdings_witness :
  ∃ v, holdings_value (row_at new_year_run_Q 1) [("X"%string, 1%Q)].*1 zero
         = Ok v ∧
       fields (row_at new_year_run_Q 1) !! "portfolio_value" = Some v.
Proof.
  assert (Hrun : get_portfolio [("X"%string, 1%Q)]
            (flat_prices "X" 10%Q new_year_2021) 1000%Q 200%Q
            = Ok (rows new_year_run_Q)) by (vm_compute; reflexivity).
  assert (Hin : row_at new_year_run_Q 1 ∈ rows new_year_run_Q).
  { apply (list_elem_of_lookup_2 _ 1%nat). vm_compute; reflexivity. }
  exact (portfolio_value_is_holdings _ _ _ _ _ _ Hrun Hin).
Defined.

(** From 2020-12-31 to 2021-01-01. *)
Lemma shares_purchase_witness :
  ∃ s1 p2,
    fields (row_at new_year_run_Q 0) !! shares_col "X" = Some s1 ∧
    fields (row_at new_year_run_Q 1) !! price_col "X" = Some p2 ∧
    fields (row_at new_year_run_Q 1) !! shares_col "X" =
      Some (if decide (day_of_month (date (row_at new_year_run_Q 1)) = 1)
            then add s1 (get_number_of_shares 200%Q p2 1%Q) else s1).
Proof.
  assert (Hnd : NoDup [("X"%string, 1%Q)].*1)
    by (apply NoDup_singleton).
  assert (Hrun : get_portfolio [("X"%string, 1%Q)]
            (flat_prices "X" 10%Q new_year_2021) 1000%Q 200%Q
            = Ok (rows new_year_run_Q)) by (vm_compute; reflexivity).
  assert (H1 : rows new_year_run_Q !! 0%nat = Some (row_at new_year_run_Q 0))
    by (vm_compute; reflexivity).
  assert (H2 : rows new_year_run_Q !! 1%nat = Some (row_at new_year_run_Q 1))
    by (vm_compute; reflexivity).
  assert (Hin : ("X"%string, 1%Q) ∈ [("X"%string, 1%Q)]) by (by left).
  exact (shares_purchase _ _ _ _ _ _ _ _ _ _ Hnd Hrun H1 H2 Hin).
Defined.

Lemma amount_invested_total_witness :
  fields (row_at new_year_run_Q 2) !! "amount_invested" =
    Some (Nat.iter
            (contributions (take 3 (flat_prices "X" 10%Q new_year_2021).*1))
            (λ a, add a 200%Q) 1000%Q).
Proof.
  assert (Hrun : get_portfolio [("X"%string, 1%Q)]
            (flat_prices "X" 10%Q new_year_2021) 1000%Q 200%Q
            = Ok (rows new_year_run_Q)) by (vm_compute; reflexivity).
  assert (H2 : rows new_year_run_Q !! 2%nat = Some (row_at new_year_run_Q 2))
    by (vm_compute; reflexivity).
  exact (amount_invested_total _ _ _ _ _ _ _ Hrun H2).
Defined.

Lemma contribution_is_spent_witness :
  (purchase_cost [("X"%string, 1%Q)].*1
     (row_at new_year_run_Q 0) (row_at new_year_run_Q 1) == 200)%Q.
Proof.
  assert (Hnd : NoDup [("X"%string, 1%Q)].*1)
    by (apply NoDup_singleton).
  assert (Hrun : get_portfolio [("X"%string, 1%Q)]
            (flat_prices "X" 10%Q new_year_2021) 1000%Q 200%Q
            = Ok (rows new_year_run_Q)) by (vm_compute; reflexivity).
  assert (H1 : rows new_year_run_Q !! 0%nat = Some (row_at new_year_run_Q 0))
    by (vm_compute; reflexivity).
  assert (H2 : rows new_year_run_Q !! 1%nat = Some (row_at new_year_run_Q 1))
    by (vm_compute; reflexivity).
  assert (Hday : day_of_month (date (row_at new_year_run_Q 1)) = 1)
    by (vm_compute; reflexivity).
  assert (Hp : ∀ t p, t ∈ [("X"%string, 1%Q)].*1 →
             fields (row_at new_year_run_Q 1) !! price_col t = Some p →
             ¬ (p == 0)%Q).
  { intros t p ->%list_elem_of_singleton Hp. vm_compute in Hp.
    injection Hp as <-. done. }
  exact (contribution_is_spent _ _ _ _ _ _ _ _ Hnd Hrun H1 H2 Hday Hp).
Defined.

Lemma constant_prices_value_witness :
  ∃ v a, fields (row_at new_year_run_Q 2) !! "portfolio_value" = Some v ∧
         fields (row_at new_year_run_Q 2) !! "amount_invested" = Some a ∧
         (v == a)%Q.
Proof.
  assert (Hnd : NoDup [("X"%string, 1%Q)].*1)
    by (apply NoDup_singleton).
  assert (Hflat : ∀ d row t,
            (d, row) ∈ flat_prices "X" 10%Q new_year_2021 →
            t ∈ [("X"%string, 1%Q)].*1 →
            row !! price_col t = Some ((λ _, 10%Q) t)).
  { intros d row t (d' & [= -> ->] & _)%list_elem_of_fmap
      ->%list_elem_of_singleton. apply lookup_singleton_eq. }
  assert (Hne : ∀ t, t ∈ [("X"%string, 1%Q)].*1 → ¬ ((λ _, 10%Q) t == 0)%Q)
    by done.
  assert (Hrun : get_portfolio [("X"%string, 1%Q)]
            (flat_prices "X" 10%Q new_year_2021) 1000%Q 200%Q
            = Ok (rows new_year_run_Q)) by (vm_compute; reflexivity).
  assert (Hin : row_at new_year_run_Q 2 ∈ rows new_year_run_Q).
  { apply (list_elem_of_lookup_2 _ 2%nat). vm_compute; reflexivity. }
  exact (constant_prices_value _ _ _ _ _ _ _ Hnd Hflat Hne Hrun Hin).
Defined.

(** A ticker ["Y"] that the frame has no column for. *)
Lemma missing_price_column_witness :
  ∃ t day row, name "Y_price" = name (price_col t) ∧
    t ∈ [("X"%string, 1%Q); ("Y"%string, 0%Q)].*1 ∧
    (day, row) ∈ flat_prices "X" 10%Q new_year_2021 ∧
    row !! price_col t = None.
Proof.
  assert (Hrun : get_portfolio [("X"%string, 1%Q); ("Y"%string, 0%Q)]
            (flat_prices "X" 10%Q new_year_2021) 1000%Q 200%Q
            = Raise (KeyError (name "Y_price"))) by (vm_compute; reflexivity).
  exact (missing_price_column _ _ _ _ _ Hrun).
Defined.

Lemma get_portfolio_returns_witness :
  ∃ rs, get_portfolio [("X"%string, 1%Q)]
          (flat_prices "X" 10%Q new_year_2021) 1000%Q 200%Q = Ok rs.
Proof.
  assert (Hw : neq (sum_weights [("X"%string, 1%Q)]) one = false)
    by (vm_compute; reflexivity).
  assert (Hdf : flat_prices "X" 10%Q new_year_2021 ≠ []) by done.
  assert (Hnd : NoDup (flat_prices "X" 10%Q new_year_2021).*1).
  { rewrite flat_prices_dates. apply NoDup_seqZ. }
  assert (Hcols : ∀ d row t,
            (d, row) ∈ flat_prices "X" 10%Q new_year_2021 →
            t ∈ [("X"%string, 1%Q)].*1 → is_Some (row !! price_col t)).
  { intros d row t (d' & [= -> ->] & _)%list_elem_of_fmap
      ->%list_elem_of_singleton. rewrite lookup_singleton_eq. by eexists. }
  exact (get_portfolio_returns _ _ 1000%Q 200%Q Hw Hdf Hnd Hcols).
Defined.

(** ** The resampler: days, columns and cells *)

Lemma foldr_min_elem (d : Z) (ds : list Z) : foldr Z.min d ds ∈ d :: ds.
Proof.
  induction ds as [|y ds IH]; [by left|]. simpl.
  destruct (Z.min_spec y (foldr Z.min d ds)) as [[_ ->]|[_ ->]].
  - right; by left.
  - apply elem_of_cons in IH as [->|IH]; [by left|by do 2 right].
Qed.

Lemma foldr_max_elem (d : Z) (ds : list Z) : foldr Z.max d ds ∈ d :: ds.
Proof.
  induction ds as [|y ds IH]; [by left|]. simpl.
  destruct (Z.max_spec y (foldr Z.max d ds)) as [[_ ->]|[_ ->]].
  - apply elem_of_cons in IH as [->|IH]; [by left|by do 2 right].
  - right; by left.
Qed.

Section ResampleMore.
Context {A : Type}.
Implicit Types (df : DataFrame (option A)) (row : gmap string (option A)).
Implicit Types (bin : list (gmap string (option A))) (col : string).

Lemma elem_of_date_range df day :
  day ∈ date_range df ↔ ∃ a b, a ∈ df.*1 ∧ b ∈ df.*1 ∧ a ≤ day ≤ b.
Proof.
  split.
  - unfold date_range. destruct (df.*1) as [|d ds] eqn:Hdates.
    { by intros ?%elem_of_nil. }
    intros Hday%elem_of_seqZ.
    exists (foldr Z.min d ds), (foldr Z.max d ds).
    split_and!; [apply foldr_min_elem|apply foldr_max_elem|lia|lia].
  - intros (a & b & Ha & Hb & Hday).
    destruct (date_range_lookup df a b day Ha Hb Hday) as [i Hi].
    by eapply list_elem_of_lookup_2.
Qed.

(** X11. The resampled frame has one row for each calendar day from the
    earliest to the latest date of the input, no other row, and its rows
    are in calendar order, each one day after the row before. *)
Theorem resample_data_calendar df :
  NoDup (resample_data df).*1 ∧
  (∀ day, day ∈ (resample_data df).*1 ↔
          ∃ a b, a ∈ df.*1 ∧ b ∈ df.*1 ∧ a ≤ day ≤ b) ∧
  (∀ i day, (resample_data df).*1 !! S i = Some day →
            (resample_data df).*1 !! i = Some (day - 1)).
Proof.
  rewrite resample_data_dates. split_and!.
  - apply NoDup_date_range.
  - apply elem_of_date_range.
  - apply date_range_lookup_S.
Qed.


(** A bin's last valid value is one of its cells, or the bin has none. *)
Lemma foldl_last_valid_cases (cells : list (option A)) : ∀ acc,
  (foldl last_valid acc cells = acc ∧ ∀ c, c ∈ cells → c = None) ∨
  (∃ x, foldl last_valid acc cells = Some x ∧ Some x ∈ cells).
Proof.
  induction cells as [|c cells IH]; intros acc.
  - left. split; [done|]. by intros c ?%elem_of_nil.
  - simpl. destruct (IH (last_valid acc c)) as [[Heq Hnone]|(x & Heq & Hin)].
    + destruct c as [x|]; simpl in *.
      * right. exists x. split; [done|by left].
      * left. split; [done|]. intros c [->|Hc]%elem_of_cons; eauto.
    + right. exists x. split; [done|by right].
Qed.

(** The bins of [resample_last], row by row. *)
Lemma resample_last_lookup df (i : nat) day :
  date_range df !! i = Some day →
  resample_last df !! i =
    Some (day, agg_last (columns df) (snd <$> filter (λ r, r.1 = day) df)).
Proof. intros Hi. unfold resample_last. by rewrite list_lookup_fmap, Hi. Qed.

Lemma resample_data_lookup_date df (i : nat) day row :
  resample_data df !! i = Some (day, row) → date_range df !! i = Some day.
Proof. intros Hi. by rewrite <- resample_data_dates, list_lookup_fmap, Hi. Qed.

(** A cell of the resampled frame: the last valid value of the day's bin,
    or else the cell above it. *)
Lemma resample_data_cell df (i : nat) day row col :
  resample_data df !! i = Some (day, row) →
  col ∈ columns df →
  ∃ prev,
    row !! col =
      Some (last_valid prev
              (foldl last_valid None
                 ((λ row, row !! col ≫= id) <$>
                    (snd <$> filter (λ r, r.1 = day) df)))) ∧
    match i with
    | O => prev = None
    | S i' => ∃ row', resample_data df !! i' = Some (day - 1, row') ∧
                      prev = row' !! col ≫= id
    end.
Proof.
  intros Hi Hcol. pose proof (resample_data_lookup_date _ _ _ _ Hi) as Hday.
  destruct (ffill_lookup _ ∅ _ _ _ (resample_last_lookup _ _ _ Hday))
    as (above & Hrow & Habove).
  fold (resample_data df) in Hrow, Habove.
  rewrite Hi in Hrow. injection Hrow as ->.
  exists (above !! col ≫= id). split.
  - unfold ffill_row. by rewrite map_lookup_imap, agg_last_lookup.
  - destruct i as [|i']; [by subst above|].
    destruct Habove as [day' Habove]. exists above. split; [|done].
    apply date_range_lookup_S in Hday.
    apply resample_data_lookup_date in Habove as Hday'. congruence.
Qed.

Lemma resample_data_cell_None df (i : nat) day row col :
  resample_data df !! i = Some (day, row) →
  col ∉ columns df → row !! col = None.
Proof.
  intros Hi Hcol. pose proof (resample_data_lookup_date _ _ _ _ Hi) as Hday.
  destruct (ffill_lookup _ ∅ _ _ _ (resample_last_lookup _ _ _ Hday))
    as (above & Hrow & _).
  fold (resample_data df) in Hrow. rewrite Hi in Hrow. injection Hrow as ->.
  unfold ffill_row. rewrite map_lookup_imap, agg_last_lookup_None; [done..|].
  intros row ([d row'] & -> & [_ Hin]%list_elem_of_filter)%list_elem_of_fmap.
  apply eq_None_not_Some. intros Hs. apply Hcol, elem_of_columns. eauto.
Qed.

(** X12. Every row of the resampled frame has exactly the columns of the
    input: a column some input row carries is in every output row, a
    missing observation as a missing cell. *)
Theorem resample_data_columns df day row :
  (day, row) ∈ resample_data df → dom row = columns df.
Proof.
  intros [i Hi]%list_elem_of_lookup_1. apply set_eq. intros col.
  rewrite elem_of_dom. destruct (decide (col ∈ columns df)) as [Hcol|Hcol].
  - destruct (resample_data_cell _ _ _ _ _ Hi Hcol) as (prev & -> & _).
    split; [done|by eexists].
  - rewrite (resample_data_cell_None _ _ _ _ _ Hi Hcol).
    split; [by intros [? [=]]|done].
Qed.

Lemma date_range_first df day d :
  date_range df !! 0%nat = Some day → d ∈ df.*1 → day ≤ d.
Proof.
  unfold date_range. intros Hday Hd.
  destruct (df.*1) as [|d0 ds]; [done|].
  rewrite lookup_seqZ in Hday. destruct Hday as [Hday _].
  pose proof (foldr_min_le _ _ _ Hd). lia.
Qed.

(** The cells of the resampled frame, by induction down the rows. *)
Lemma resample_data_cell_origin df col : ∀ (i : nat) day row,
  resample_data df !! i = Some (day, row) →
  col ∈ columns df →
  ∃ c, row !! col = Some c ∧
    match c with
    | Some x =>
        ∃ d' row', d' ≤ day ∧ (d', row') ∈ df ∧ row' !! col = Some (Some x) ∧
          ∀ d'' row'', d' < d'' ≤ day → (d'', row'') ∈ df →
                      row'' !! col ≫= id = None
    | None =>
        ∀ d' row', d' ≤ day → (d', row') ∈ df → row' !! col ≫= id = None
    end.
Proof.
  induction i as [|i IH]; intros day row Hi Hcol;
    destruct (resample_data_cell _ _ _ _ _ Hi Hcol) as (prev & Hrow & Hprev);
    (destruct (foldl_last_valid_cases
       ((λ row, row !! col ≫= id) <$> (snd <$> filter (λ r, r.1 = day) df)) None)
       as [[Hagg Hnone]|(x & Hagg & Hin)]; rewrite Hagg in Hrow;
     [|exists (Some x); split; [done|];
       apply elem_of_bin_cells in Hin as (row' & Hin & Hx);
       exists day, row'; split_and!; [lia|done| |intros; lia];
       by destruct (row' !! col) as [[y|]|]; simpl in Hx; simplify_eq]).
  - subst prev. exists None. split; [done|]. intros d' row' Hle Hin.
    assert (day ≤ d').
    { eapply date_range_first; [by eapply resample_data_lookup_date|].
      by apply (list_elem_of_fmap_2 fst _ (d', row')). }
    apply Hnone, elem_of_bin_cells. exists row'.
    by replace day with d' by lia.
  - destruct Hprev as (row1 & Hi1 & ->).
    destruct (IH _ _ Hi1 Hcol) as (c & Hc & Horigin). rewrite Hc in Hrow.
    simpl in Hrow. exists c. split; [done|].
    assert (Htoday : ∀ row', (day, row') ∈ df → row' !! col ≫= id = None).
    { intros row' Hin. apply Hnone, elem_of_bin_cells. eauto. }
    destruct c as [x|].
    + destruct Horigin as (d' & row' & Hle & Hin & Hx & Hgap).
      exists d', row'. split_and!; [lia|done..|].
      intros d'' row'' Hd'' Hin''.
      destruct (decide (d'' = day)) as [->|Hne]; [by apply Htoday|].
      apply (Hgap d''); [lia|done].
    + intros d' row' Hle Hin.
      destruct (decide (d' = day)) as [->|Hne]; [by apply Htoday|].
      apply (Horigin d'); [lia|done].
Qed.

(** X13. A cell of the resampled frame is never invented and never taken
    from a later day: a value in a column was observed in that column on
    the latest day up to the row's date that has an observation; a
    missing cell means the column has no observation up to that date. *)
Theorem filled_value_is_latest df day row col :
  (day, row) ∈ resample_data df →
  (∀ x, row !! col = Some (Some x) →
     ∃ d' row', d' ≤ day ∧ (d', row') ∈ df ∧ row' !! col = Some (Some x) ∧
       ∀ d'' row'', d' < d'' ≤ day → (d'', row'') ∈ df →
                   row'' !! col ≫= id = None) ∧
  (row !! col = Some None →
     ∀ d' row', d' ≤ day → (d', row') ∈ df → row' !! col ≫= id = None).
Proof.
  intros [i Hi]%list_elem_of_lookup_1.
  destruct (decide (col ∈ columns df)) as [Hcol|Hcol].
  - destruct (resample_data_cell_origin _ _ _ _ _ Hi Hcol) as (c & -> & Hc).
    split; [intros x [= ->]|intros [= ->]]; done.
  - rewrite (resample_data_cell_None _ _ _ _ _ Hi Hcol). done.
Qed.

End ResampleMore.

Section ResampleTwice.
Context {A : Type}.
Implicit Types (df : DataFrame (option A)) (row : gmap string (option A)).

Lemma last_valid_idemp (prev c : option A) :
  last_valid prev (last_valid prev c) = last_valid prev c.
Proof. by destruct c, prev. Qed.

Lemma ffill_row_idemp prev row :
  ffill_row prev (ffill_row prev row) = ffill_row prev row.
Proof.
  apply map_eq. intros col. unfold ffill_row. rewrite !map_lookup_imap.
  destruct (row !! col) as [c|]; [|done]. simpl. by rewrite last_valid_idemp.
Qed.

(** Filling a filled frame changes nothing. *)
Lemma ffill_idemp df : ∀ prev, ffill prev (ffill prev df) = ffill prev df.
Proof.
  induction df as [|[day row] df IH]; intros prev; [done|].
  simpl. by rewrite ffill_row_idemp, IH.
Qed.

Lemma date_range_consecutive df :
  ∃ d0, date_range df = seqZ d0 (Z.of_nat (length (date_range df))).
Proof.
  unfold date_range. destruct (df.*1) as [|d ds]; [by exists 0|].
  exists (foldr Z.min d ds). rewrite length_seqZ. f_equal.
  assert (Hd : d ∈ d :: ds) by (by left).
  pose proof (foldr_min_le d ds d Hd). pose proof (foldr_max_ge d ds d Hd). lia.
Qed.

Lemma columns_resample_data df : columns (resample_data df) = columns df.
Proof.
  apply set_eq. intros col. rewrite !elem_of_columns. split.
  - intros (day & row & [i Hi]%list_elem_of_lookup_1 & Hcol).
    destruct (decide (col ∈ columns df)) as [Hc|Hc]; [by apply elem_of_columns|].
    rewrite (resample_data_cell_None _ _ _ _ _ Hi Hc) in Hcol.
    by destruct Hcol.
  - intros (day & row & Hin & Hcol).
    assert (Hc : col ∈ columns df) by (apply elem_of_columns; eauto).
    assert (Hday : day ∈ (resample_data df).*1).
    { rewrite resample_data_dates. apply elem_of_date_range.
      assert (day ∈ df.*1) by (by apply (list_elem_of_fmap_2 fst _ (day, row))).
      exists day, day. split_and!; [done..|lia|lia]. }
    apply list_elem_of_fmap in Hday as ([d row'] & Hd & Hin').
    simpl in Hd. subst d. exists day, row'. split; [done|].
    apply list_elem_of_lookup_1 in Hin' as [i Hi].
    destruct (resample_data_cell _ _ _ _ _ Hi Hc) as (prev & -> & _). by eexists.
Qed.

(** On the resampled frame every bin holds one row, and its aggregate is
    that row. *)
Lemma resample_last_resample_data df :
  resample_last (resample_data df) = resample_data df.
Proof.
  destruct (date_range_consecutive df) as [d0 Hdates].
  rewrite <- resample_data_dates, length_fmap in Hdates.
  unfold resample_last at 1. rewrite (date_range_seqZ _ _ Hdates).
  rewrite <- list_fmap_compose.
  transitivity (id <$> resample_data df); [|apply list_fmap_id].
  apply list_fmap_ext. intros i [day row] Hi. simpl. f_equal.
  rewrite (filter_date_NoDup _ day row);
    [|rewrite resample_data_dates; apply NoDup_date_range
     |by eapply list_elem_of_lookup_2].
  simpl. rewrite columns_resample_data. apply map_eq. intros col.
  destruct (decide (col ∈ columns df)) as [Hcol|Hcol].
  - rewrite agg_last_lookup by done. simpl.
    destruct (resample_data_cell _ _ _ _ _ Hi Hcol) as (prev & -> & _).
    simpl. f_equal. by destruct (last_valid prev _).
  - rewrite (resample_data_cell_None _ _ _ _ _ Hi Hcol).
    apply agg_last_lookup_None; [done|].
    intros row' ->%list_elem_of_singleton.
    by apply (resample_data_cell_None _ _ _ _ _ Hi).
Qed.

(** X14. Resampling is idempotent: resampling a resampled frame returns
    it unchanged, whatever the input. *)
Theorem resample_data_idempotent df :
  resample_data (resample_data df) = resample_data df.
Proof.
  unfold resample_data at 1. rewrite resample_last_resample_data.
  apply ffill_idemp.
Qed.

End ResampleTwice.

Section ResampleOrder.
Context {A : Type}.
Implicit Types (df : DataFrame (option A)) (row : gmap string (option A)).

(** The bins depend on the set of dates only. *)
Lemma date_range_Permutation df df' : df.*1 ≡ₚ df'.*1 → date_range df = date_range df'.
Proof.
  unfold date_range. intros Hperm.
  destruct (df.*1) as [|d ds], (df'.*1) as [|d' ds'];
    [done|by apply Permutation_nil_cons in Hperm
     |by symmetry in Hperm; apply Permutation_nil_cons in Hperm|].
  assert (foldr Z.min d ds = foldr Z.min d' ds') as ->.
  { pose proof (foldr_min_elem d ds) as H1. rewrite Hperm in H1.
    pose proof (foldr_min_elem d' ds') as H2. rewrite <- Hperm in H2.
    apply foldr_min_le in H1, H2. lia. }
  assert (foldr Z.max d ds = foldr Z.max d' ds') as ->; [|done].
  pose proof (foldr_max_elem d ds) as H1. rewrite Hperm in H1.
  pose proof (foldr_max_elem d' ds') as H2. rewrite <- Hperm in H2.
  apply foldr_max_ge in H1, H2. lia.
Qed.

(** X15. With distinct dates, the order of the input rows does not
    matter: two frames with the same rows in any order resample to the
    same frame. *)
Theorem resample_data_order df df' :
  df ≡ₚ df' → NoDup df.*1 → resample_data df = resample_data df'.
Proof.
  intros Hperm Hnd.
  assert (Hnd' : NoDup df'.*1) by (by rewrite <- Hperm).
  assert (Hcols : columns df = columns df').
  { apply set_eq. intros col. rewrite !elem_of_columns.
    by setoid_rewrite Hperm. }
  unfold resample_data. f_equal. unfold resample_last.
  rewrite <- (date_range_Permutation df df') by (by rewrite Hperm).
  apply list_fmap_ext. intros i day Hi. f_equal. rewrite <- Hcols. do 2 f_equal.
  destruct (decide (day ∈ df.*1)) as [Hin|Hnin].
  - apply list_elem_of_fmap in Hin as ([d row] & Hd & Hin).
    simpl in Hd. subst d.
    rewrite (filter_date_NoDup df day row Hnd Hin).
    rewrite Hperm in Hin. by rewrite (filter_date_NoDup df' day row Hnd' Hin).
  - rewrite !filter_none; [done|..]; intros [d row] Hin Hd; simpl in Hd;
      subst d; apply Hnin; apply (list_elem_of_fmap_2 fst _ (day, row));
      [by rewrite Hperm|done].
Qed.

End ResampleOrder.

(** ** The loader: order of failure, and the frame it builds *)

Lemma union_list_lookup_unique {C} (ms : list (gmap string C)) m i (x : C) :
  m ∈ ms → m !! i = Some x →
  (∀ m' y, m' ∈ ms → m' !! i = Some y → y = x) →
  (⋃ ms) !! i = Some x.
Proof.
  intros Hm Hx Hall. destruct ((⋃ ms) !! i) as [y|] eqn:Hy.
  - apply lookup_union_list_Some_1 in Hy as (m' & Hm' & Hy).
    f_equal. by apply (Hall m').
  - apply lookup_union_list_None_1 in Hy. rewrite Forall_forall in Hy.
    specialize (Hy m Hm). congruence.
Qed.

Section LoaderMore.
Context {num : Type} `{!Arith num}.
Variable history : string → Z → Z → result (list (Z * option num)).
Variable round2 : num → num.
Variable nan : num.
Variables start_date end_date : Z.

(** The frames a loop that ends has appended: one per ticker, in order,
    each the fetched history of its ticker, none of them starting after
    [start_date]. *)
Lemma load_loop_Ok (ts : list string) : ∀ data data',
  foldM (load_ticker history start_date end_date) data ts = Ok data' →
  ∃ frames, data' = data ++ frames ∧
    Forall2 (λ t frame, ∃ series,
        history t start_date end_date = Ok series ∧
        frame = (price_col t, ticker_frame t series) ∧
        ∀ first_date, index_min series.*1 = Some first_date →
                      first_date ≤ start_date) ts frames.
Proof.
  induction ts as [|t ts IH]; intros data data' Hf; simpl in Hf.
  - inv_ok. exists []. split; [by rewrite app_nil_r|constructor].
  - apply bind_Ok in Hf as (data1 & H1 & Hf).
    unfold load_ticker in H1. apply bind_Ok in H1 as (series & Hh & H1).
    rewrite ticker_frame_dates in H1.
    assert (data1 = data ++ [(price_col t, ticker_frame t series)] ∧
            ∀ first_date, index_min series.*1 = Some first_date →
                          first_date ≤ start_date) as [-> Hcov].
    { destruct (index_min series.*1) as [f|].
      - case_bool_decide; [done|]. inv_ok. split; [done|].
        intros f' [= <-]. lia.
      - inv_ok. done. }
    destruct (IH _ _ Hf) as (frames & -> & Hframes).
    exists ((price_col t, ticker_frame t series) :: frames).
    split; [by rewrite <- app_assoc|].
    constructor; [|done]. by exists series.
Qed.

(** X16. The loader stops at the first ticker, in the order of the
    request, on which the provider fails or whose history starts after
    [start_date]: it raises the provider's exception, or the
    [ValueError] naming that ticker and the first date of its history,
    whatever the provider holds for the tickers after it. *)
Theorem load_data_stops_at_first (tickers : list (string * num))
    (before after : list string) (t : string) :
  tickers.*1 = before ++ t :: after →
  (∀ t', t' ∈ before → ∃ series,
      history t' start_date end_date = Ok series ∧
      ∀ first_date, index_min series.*1 = Some first_date →
                    first_date ≤ start_date) →
  (∀ e, history t start_date end_date = Raise e →
        load_data history round2 tickers start_date end_date = Raise e) ∧
  (∀ series first_date,
      history t start_date end_date = Ok series →
      index_min series.*1 = Some first_date → start_date < first_date →
      load_data history round2 tickers start_date end_date =
        Raise (ValueError (data_only_available_from t first_date))).
Proof.
  intros Hts Hbefore. unfold load_data. rewrite Hts.
  assert (Hloop : ∀ data, ∃ data',
            foldM (load_ticker history start_date end_date) data
              (before ++ t :: after) =
            (data1 ← load_ticker history start_date end_date data' t;
             foldM (load_ticker history start_date end_date) data1 after)).
  { clear Hts. induction before as [|t0 before IH]; intros data.
    - by exists data.
    - destruct (Hbefore t0) as (series0 & Hh0 & Hcov0); [by left|].
      cbn [app foldM].
      rewrite (load_ticker_Ok history start_date end_date _ _ _ Hh0).
      destruct (IH (λ t' Ht', Hbefore t' (list_elem_of_further _ _ _ Ht'))
                  (data ++ [(price_col t0, ticker_frame t0 series0)]))
        as [data' Hdata'].
      exists data'. rewrite <- Hdata'.
      destruct (index_min series0.*1) as [f0|] eqn:Hmin0; [|done].
      specialize (Hcov0 f0 eq_refl). by rewrite bool_decide_false by lia. }
  destruct (Hloop []) as [data' ->]. split.
  - intros e He. unfold load_ticker. by rewrite He.
  - intros series f Hh Hmin Hlt.
    rewrite (load_ticker_Ok history start_date end_date _ _ _ Hh), Hmin.
    by rewrite bool_decide_true.
Qed.

(** X17. With a provider that answers for every ticker, [load_data]
    raises the [ValueError] of [pd.concat] exactly when no ticker is
    requested. *)
Theorem load_data_no_tickers (tickers : list (string * num)) :
  (∀ t, t ∈ tickers.*1 → ∃ series, history t start_date end_date = Ok series) →
  load_data history round2 tickers start_date end_date =
    Raise (ValueError no_objects_to_concatenate)
  ↔ tickers = [].
Proof.
  intros Hfetch. split; [|by intros ->].
  unfold load_data. intros Hr.
  apply bind_Raise in Hr as [Hr|(data & Hdata & Hr)].
  - apply foldM_Raise_elem in Hr as (data & t & Ht & Hr).
    destruct (Hfetch t Ht) as [series Hh].
    rewrite (load_ticker_Ok history start_date end_date _ _ _ Hh) in Hr.
    destruct (index_min _); [case_bool_decide|]; done.
  - apply load_loop_Ok in Hdata as (frames & -> & Hframes).
    apply Forall2_length in Hframes. rewrite length_fmap in Hframes.
    destruct tickers; [done|]. destruct frames; [done|]. done.
Qed.

End LoaderMore.

Section LoadedFrame.
Context {num : Type} `{!Arith num}.
Variable history : string → Z → Z → result (list (Z * option num)).
Variable round2 : num → num.
Variables start_date end_date : Z.

Lemma ticker_frame_lookup t (series : list (Z * option num)) day row k c :
  (day, row) ∈ ticker_frame t series → row !! k = Some c →
  k = price_col t ∧ (day, c) ∈ series.
Proof.
  intros ([d v] & [= -> ->] & Hin)%list_elem_of_fmap Hk.
  apply lookup_singleton_Some in Hk as [<- <-]. done.
Qed.

(** The cells a ticker's frame contributes to the row of a date are in
    the column of its ticker, and there is one on every date. *)
Lemma row_on_lookup t (series : list (Z * option num)) day k c :
  row_on day (price_col t) (ticker_frame t series) !! k = Some c →
  k = price_col t.
Proof.
  unfold row_on.
  destruct (list_find _ _) as [[i [d row]]|] eqn:Hf; simpl.
  - apply list_find_Some in Hf as (Hi%list_elem_of_lookup_2 & _ & _).
    intros Hk. by destruct (ticker_frame_lookup _ _ _ _ _ _ Hi Hk).
  - by intros [<- _]%lookup_singleton_Some.
Qed.

Lemma row_on_column t (series : list (Z * option num)) day :
  is_Some (row_on day (price_col t) (ticker_frame t series) !! price_col t).
Proof.
  unfold row_on.
  destruct (list_find _ _) as [[i [d row]]|] eqn:Hf; simpl.
  - apply list_find_Some in Hf as (Hi%list_elem_of_lookup_2 & _ & _).
    apply list_elem_of_fmap in Hi as ([d' v] & [= -> ->] & _).
    rewrite lookup_singleton_eq. by eexists.
  - rewrite lookup_singleton_eq. by eexists.
Qed.

Lemma row_on_observed t (series : list (Z * option num)) day v :
  NoDup series.*1 → (day, v) ∈ series →
  row_on day (price_col t) (ticker_frame t series) !! price_col t = Some v.
Proof.
  intros Hnd Hin. unfold row_on.
  destruct (list_find (λ r, r.1 = day) (ticker_frame t series))
    as [[i [d row]]|] eqn:Hf; simpl.
  - apply list_find_Some in Hf as (Hi%list_elem_of_lookup_2 & Hd & _).
    simpl in Hd. subst d.
    apply list_elem_of_fmap in Hi as ([d v'] & [= -> ->] & Hin').
    rewrite (NoDup_fst_functional _ _ _ _ Hnd Hin Hin').
    apply lookup_singleton_eq.
  - apply list_find_None in Hf. rewrite Forall_forall in Hf.
    destruct (Hf (day, {[price_col t := v]})); [|done].
    apply list_elem_of_fmap. by exists (day, v).
Qed.

Lemma concat_columns_Ok (data : list (string * DataFrame (option num))) df :
  concat_columns data = Ok df →
  NoDup df.*1 ∧
  (∀ day, day ∈ df.*1 ↔ ∃ cf, cf ∈ data ∧ day ∈ cf.2.*1) ∧
  (∀ day row, (day, row) ∈ df →
              row = ⋃ ((λ cf, row_on day cf.1 cf.2) <$> data)).
Proof.
  unfold concat_columns. destruct data as [|frame0 data0] eqn:Hdata; [done|].
  rewrite <- Hdata. clear Hdata. intros [= <-].
  rewrite <- list_fmap_compose.
  assert (Hdates :
    (fst ∘ (λ day : Z, (day, ⋃ ((λ cf, row_on day cf.1 cf.2) <$> data))) <$>
       merge_sort Z.le (remove_dups (data ≫= λ cf, cf.2.*1)))
    = merge_sort Z.le (remove_dups (data ≫= λ cf, cf.2.*1))).
  { apply list_fmap_id. }
  rewrite Hdates. split_and!.
  - rewrite merge_sort_Permutation. apply NoDup_remove_dups.
  - intros day. rewrite merge_sort_Permutation, elem_of_remove_dups.
    rewrite list_elem_of_bind. split; intros (frame & ? & ?); by exists frame.
  - intros day row (d & [= -> ->] & _)%list_elem_of_fmap. done.
Qed.

Lemma round_frame_dates (df : DataFrame (option num)) :
  (round_frame round2 df).*1 = df.*1.
Proof.
  unfold round_frame. rewrite <- list_fmap_compose. by apply list_fmap_ext.
Qed.

(** The frame of a run of the loader that returns: the rounded join of the
    fetched histories, one frame per ticker in order. *)
Lemma load_data_Ok (tickers : list (string * num)) df :
  load_data history round2 tickers start_date end_date = Ok df →
  ∃ frames df0,
    df = round_frame round2 df0 ∧
    Forall2 (λ t frame, ∃ series,
        history t start_date end_date = Ok series ∧
        frame = (price_col t, ticker_frame t series) ∧
        ∀ first_date, index_min series.*1 = Some first_date →
                      first_date ≤ start_date) tickers.*1 frames ∧
    NoDup df0.*1 ∧
    (∀ day, day ∈ df0.*1 ↔ ∃ cf, cf ∈ frames ∧ day ∈ cf.2.*1) ∧
    (∀ day row, (day, row) ∈ df0 →
                row = ⋃ ((λ cf, row_on day cf.1 cf.2) <$> frames)).
Proof.
  unfold load_data. intros Hf.
  apply bind_Ok in Hf as (data & Hdata & Hf).
  apply bind_Ok in Hf as (df0 & Hcat & Hf). injection Hf as <-.
  apply load_loop_Ok in Hdata as (frames & -> & Hframes). simpl in Hcat.
  apply concat_columns_Ok in Hcat as (Hnd & Hdates & Hrows).
  by exists frames, df0.
Qed.

(** In the join every ticker has its column on every date, and on a date
    of its history the cell is the observation of that date. *)
Lemma joined_cell (ts : list string)
    (frames : list (string * DataFrame (option num))) t series day :
  Forall2 (λ t frame, ∃ series,
      history t start_date end_date = Ok series ∧
      frame = (price_col t, ticker_frame t series) ∧
      ∀ first_date, index_min series.*1 = Some first_date →
                    first_date ≤ start_date) ts frames →
  t ∈ ts →
  history t start_date end_date = Ok series →
  (price_col t, ticker_frame t series) ∈ frames ∧
  is_Some ((⋃ ((λ cf, row_on day cf.1 cf.2) <$> frames)) !! price_col t) ∧
  ∀ v, NoDup series.*1 → (day, v) ∈ series →
       (⋃ ((λ cf, row_on day cf.1 cf.2) <$> frames)) !! price_col t = Some v.
Proof.
  intros Hframes Ht Hh.
  assert (Hframe : (price_col t, ticker_frame t series) ∈ frames).
  { apply list_elem_of_lookup_1 in Ht as [i Hi].
    destruct (Forall2_lookup_l _ _ _ _ _ Hframes Hi)
      as (frame & Hframe & series' & Hh' & -> & _).
    assert (series' = series) as -> by congruence.
    by eapply list_elem_of_lookup_2. }
  assert (Hin : row_on day (price_col t) (ticker_frame t series)
                ∈ (λ cf, row_on day cf.1 cf.2) <$> frames).
  { apply list_elem_of_fmap. by exists (price_col t, ticker_frame t series). }
  split_and!; [done| |].
  - apply not_eq_None_Some. intros Hnone%lookup_union_list_None_1.
    rewrite Forall_forall in Hnone. specialize (Hnone _ Hin).
    destruct (row_on_column t series day) as [c Hc]. congruence.
  - intros v Hnds Hobs.
    apply (union_list_lookup_unique _
             (row_on day (price_col t) (ticker_frame t series))); [done|..].
    + by apply row_on_observed.
    + intros m' y (frame & -> & [i Hi]%list_elem_of_lookup_1)%list_elem_of_fmap Hy.
      destruct (Forall2_lookup_r _ _ _ _ _ Hframes Hi)
        as (t' & _ & series' & Hh' & -> & _).
      simpl in Hy.
      apply row_on_lookup in Hy as Ht'. apply (inj price_col) in Ht'. subst t'.
      assert (series' = series) as -> by congruence.
      rewrite (row_on_observed _ _ _ _ Hnds Hobs) in Hy. congruence.
Qed.

Lemma load_data_cell (tickers : list (string * num)) df t series day v :
  load_data history round2 tickers start_date end_date = Ok df →
  t ∈ tickers.*1 →
  history t start_date end_date = Ok series →
  NoDup series.*1 →
  (day, v) ∈ series →
  NoDup df.*1 ∧
  ∃ row, (day, row) ∈ df ∧ row !! price_col t = Some (round2 <$> v).
Proof.
  intros (frames & df0 & -> & Hframes & Hnd & Hdates & Hrows)%load_data_Ok
    Ht Hh Hnds Hin.
  destruct (joined_cell _ _ _ _ day Hframes Ht Hh) as (Hframe & _ & Hcell).
  rewrite round_frame_dates. split; [done|].
  assert (Hday : day ∈ df0.*1).
  { apply Hdates. exists (price_col t, ticker_frame t series). split; [done|].
    simpl. rewrite ticker_frame_dates.
    by apply (list_elem_of_fmap_2 fst _ (day, v)). }
  apply list_elem_of_fmap in Hday as ([d row] & Hd & Hrow).
  simpl in Hd. subst d. pose proof (Hrows _ _ Hrow) as ->.
  eexists. split.
  - apply list_elem_of_fmap. eexists. split; [|exact Hrow]. done.
  - simpl. by rewrite lookup_fmap, (Hcell v Hnds Hin).
Qed.

(** Every row of the loaded frame has the price column of every requested
    ticker. *)
Lemma load_data_columns (tickers : list (string * num)) df t day row :
  load_data history round2 tickers start_date end_date = Ok df →
  t ∈ tickers.*1 → (day, row) ∈ df → is_Some (row !! price_col t).
Proof.
  intros (frames & df0 & -> & Hframes & Hnd & Hdates & Hrows)%load_data_Ok
    Ht ([d row0] & [= -> ->] & Hin)%list_elem_of_fmap.
  apply list_elem_of_lookup_1 in Ht as Hi. destruct Hi as [i Hi].
  destruct (Forall2_lookup_l _ _ _ _ _ Hframes Hi)
    as (frame & _ & series & Hh & _).
  destruct (joined_cell _ _ _ _ d Hframes Ht Hh) as (_ & [c Hc] & _).
  rewrite (Hrows _ _ Hin). simpl. rewrite lookup_fmap, Hc. by eexists.
Qed.

(** X18. When the loader returns, with histories that list a date once,
    its frame has each date once, and its dates are the dates some
    requested ticker's history has. *)
Theorem loaded_dates (tickers : list (string * num)) df :
  (∀ t series, t ∈ tickers.*1 → history t start_date end_date = Ok series →
               NoDup series.*1) →
  load_data history round2 tickers start_date end_date = Ok df →
  NoDup df.*1 ∧
  ∀ day, day ∈ df.*1 ↔
    ∃ t series, t ∈ tickers.*1 ∧
      history t start_date end_date = Ok series ∧ day ∈ series.*1.
Proof.
  intros _ (frames & df0 & -> & Hframes & Hnd & Hdates & _)%load_data_Ok.
  rewrite round_frame_dates. split; [done|]. intros day. rewrite Hdates. split.
  - intros (frame & Hin & Hday).
    apply list_elem_of_lookup_1 in Hin as [i Hi].
    destruct (Forall2_lookup_r _ _ _ _ _ Hframes Hi)
      as (t & Ht & series & Hh & -> & _).
    exists t, series. split_and!; [by eapply list_elem_of_lookup_2|done|].
    simpl in Hday. by rewrite ticker_frame_dates in Hday.
  - intros (t & series & [i Hi]%list_elem_of_lookup_1 & Hh & Hday).
    destruct (Forall2_lookup_l _ _ _ _ _ Hframes Hi)
      as (frame & Hframe & series' & Hh' & -> & _).
    assert (series' = series) as -> by congruence.
    exists (price_col t, ticker_frame t series).
    split; [by eapply list_elem_of_lookup_2|].
    simpl. by rewrite ticker_frame_dates.
Qed.

(** X19. When the loader returns, with histories that list a date once,
    every observation of a requested ticker's history is in its frame:
    the row of the observation's date has it, rounded to two decimals, in
    the ticker's price column (a missing observation as a missing
    cell). *)
Theorem loaded_prices (tickers : list (string * num)) df t series day v :
  (∀ t series, t ∈ tickers.*1 → history t start_date end_date = Ok series →
               NoDup series.*1) →
  load_data history round2 tickers start_date end_date = Ok df →
  t ∈ tickers.*1 →
  history t start_date end_date = Ok series →
  (day, v) ∈ series →
  ∃ row, loc df day = Ok row ∧ row !! price_col t = Some (round2 <$> v).
Proof.
  intros Hnds Hload Ht Hh Hin.
  destruct (load_data_cell _ _ _ _ _ _ Hload Ht Hh (Hnds _ _ Ht Hh) Hin)
    as (Hnd & row & Hrow & Hcell).
  exists row. split; [by apply loc_NoDup|done].
Qed.

End LoadedFrame.

(** ** The whole pipeline *)

Lemma get_portfolio_dates {num} `{!Arith num} (tickers : list (string * num))
    (df : DataFrame num) initial monthly rs :
  get_portfolio tickers df initial monthly = Ok rs → date <$> rs = df.*1.
Proof.
  intros (_ & r0 & _ & Hl)%get_portfolio_Ok.
  apply list_eq. intros i. rewrite list_lookup_fmap.
  destruct (rs !! i) as [r|] eqn:Hi; simpl.
  - by destruct (ledger_lookup _ _ _ _ _ _ _ _ Hl Hi) as [_ ->].
  - symmetry. apply lookup_ge_None. apply lookup_ge_None in Hi.
    by rewrite <- (ledger_length _ _ _ _ _ _ Hl).
Qed.

Section Pipeline.
Context {num : Type} `{!Arith num}.
Variable history : string → Z → Z → result (list (Z * option num)).
Variable round2 : num → num.
Variable nan : num.
Variables start_date end_date : Z.

Lemma as_floats_dates (df : DataFrame (option num)) :
  (as_floats nan df).*1 = df.*1.
Proof.
  unfold as_floats. rewrite <- list_fmap_compose. by apply list_fmap_ext.
Qed.

(** X20. The ledger the pipeline returns has one row for each calendar
    day from the earliest to the latest date of the loaded frame, in
    calendar order. *)
Theorem simulate_portfolio_days (tickers : list (string * num))
    initial monthly rs :
  simulate_portfolio history round2 nan tickers start_date end_date
    initial monthly = Ok rs →
  ∃ df, load_data history round2 tickers start_date end_date = Ok df ∧
    date <$> rs = date_range df ∧
    (∀ day, day ∈ date <$> rs ↔ ∃ a b, a ∈ df.*1 ∧ b ∈ df.*1 ∧ a ≤ day ≤ b) ∧
    (∀ i day, (date <$> rs) !! S i = Some day →
              (date <$> rs) !! i = Some (day - 1)).
Proof.
  unfold simulate_portfolio. intros Hf.
  apply bind_Ok in Hf as (df & Hload & Hrun). exists df. split; [done|].
  apply get_portfolio_dates in Hrun.
  rewrite as_floats_dates, resample_data_dates in Hrun. rewrite Hrun.
  split_and!; [done|apply elem_of_date_range|apply date_range_lookup_S].
Qed.

(** X21. The pipeline checks the weights only after it has loaded the
    data: it raises the weights' [ValueError] when the loader returns a
    frame and the weights do not sum to 1, and otherwise only when the
    loader itself raised it. *)
Theorem simulate_portfolio_weights_after_load (tickers : list (string * num))
    initial monthly :
  simulate_portfolio history round2 nan tickers start_date end_date
    initial monthly = Raise (ValueError tickers_weights_should_sum_up_to_1)
  ↔ load_data history round2 tickers start_date end_date
      = Raise (ValueError tickers_weights_should_sum_up_to_1) ∨
    ((∃ df, load_data history round2 tickers start_date end_date = Ok df) ∧
     neq (sum_weights tickers) one = true).
Proof.
  unfold simulate_portfolio.
  destruct (load_data history round2 tickers start_date end_date) as [df|e];
    cbn [mbind result_bind].
  - rewrite get_portfolio_ValueError. split.
    + intros Hw. right. split; [by exists df|done].
    + by intros [[=]|[_ Hw]].
  - split; [intros [= ->]; by left|]. by intros [[= ->]|[[df [=]] _]].
Qed.

(** X22. The pipeline returns a ledger when the weights pass the check,
    the provider answers every requested ticker with a history that lists
    a date once and does not start after [start_date], and one of these
    histories at least has an observation. *)
Theorem simulate_portfolio_returns (tickers : list (string * num))
    initial monthly t0 series0 :
  neq (sum_weights tickers) one = false →
  (∀ t, t ∈ tickers.*1 → ∃ series,
      history t start_date end_date = Ok series ∧ NoDup series.*1 ∧
      ∀ first_date, index_min series.*1 = Some first_date →
                    first_date ≤ start_date) →
  t0 ∈ tickers.*1 →
  history t0 start_date end_date = Ok series0 →
  series0 ≠ [] →
  ∃ rs, simulate_portfolio history round2 nan tickers start_date end_date
          initial monthly = Ok rs.
Proof.
  intros Hw Hhist Ht0 Hh0 Hs0.
  assert (∃ df, load_data history round2 tickers start_date end_date = Ok df)
    as [df Hload].
  { unfold load_data.
    destruct (load_loop_covered history start_date end_date tickers.*1 [])
      as (data & -> & Hlen).
    - intros t Ht. destruct (Hhist t Ht) as (series & Hh & _). by exists series.
    - intros t series f Ht Hh Hmin.
      destruct (Hhist t Ht) as (series' & Hh' & _ & Hcov).
      assert (series' = series) as -> by congruence. by apply Hcov.
    - cbn [mbind result_bind]. unfold concat_columns.
      destruct data as [|frame data]; [|by eexists].
      rewrite length_fmap in Hlen. destruct tickers; [|done].
      by apply elem_of_nil in Ht0. }
  assert (Hrow0 : ∃ day row, (day, row) ∈ df).
  { destruct series0 as [|[day v] series0]; [done|].
    destruct (Hhist t0 Ht0) as (series & Hh & Hnds & _).
    assert (series = (day, v) :: series0) as -> by congruence.
    destruct (load_data_cell history round2 start_date end_date
                _ _ _ _ day v Hload Ht0 Hh0 Hnds)
      as (_ & row & Hrow & _); [by left|].
    by exists day, row. }
  destruct Hrow0 as (day0 & row0 & Hrow0).
  unfold simulate_portfolio. rewrite Hload. cbn [mbind result_bind].
  enough (∃ r0 rs,
            initial_record tickers (as_floats nan (resample_data df)) initial
              = Ok r0 ∧
            ledger tickers (as_floats nan (resample_data df)) monthly r0
              (as_floats nan (resample_data df)).*1 = Ok rs ∧
            get_portfolio tickers (as_floats nan (resample_data df))
              initial monthly = Ok rs) as (r0 & rs & _ & _ & Hrun)
    by (by exists rs).
  apply get_portfolio_runs; [done| | |].
  - assert (Hin : day0 ∈ (as_floats nan (resample_data df)).*1).
    { rewrite as_floats_dates, resample_data_dates. apply elem_of_date_range.
      assert (day0 ∈ df.*1) by (by apply (list_elem_of_fmap_2 fst _ (day0, row0))).
      exists day0, day0. split_and!; [done..|lia|lia]. }
    intros Hnil. rewrite Hnil in Hin. by apply elem_of_nil in Hin.
  - rewrite as_floats_dates, resample_data_dates. apply NoDup_date_range.
  - intros d row t ([d' row'] & [= -> ->] & Hin)%list_elem_of_fmap Ht.
    apply list_elem_of_lookup_1 in Hin as [i Hi].
    assert (Hcol : price_col t ∈ columns df).
    { apply elem_of_columns. exists day0, row0. split; [done|].
      by eapply load_data_columns. }
    destruct (resample_data_cell _ _ _ _ _ Hi Hcol) as (prev & Hrow & _).
    simpl. rewrite lookup_fmap, Hrow. by eexists.
Qed.

End Pipeline.

(** The Saturday of the weekend frame. *)
Lemma resample_data_columns_witness :
  dom ({["A_price" := Some 10%Q; "B_price" := Some 7%Q]}
         : gmap string (option Q))
  = columns weekend_frame.
Proof.
  assert (Hin : (18629, {["A_price" := Some 10%Q; "B_price" := Some 7%Q]})
                ∈ resample_data weekend_frame).
  { apply (list_elem_of_lookup_2 _ 1%nat). vm_compute; reflexivity. }
  exact (resample_data_columns _ _ _ Hin).
Defined.

Lemma filled_value_is_latest_witness :
  (∀ x, ({["A_price" := Some 10%Q; "B_price" := Some 7%Q]}
           : gmap string (option Q)) !! "A_price" = Some (Some x) →
     ∃ d' row', d' ≤ 18629 ∧ (d', row') ∈ weekend_frame ∧
       row' !! "A_price" = Some (Some x) ∧
       ∀ d'' row'', d' < d'' ≤ 18629 → (d'', row'') ∈ weekend_frame →
                   row'' !! "A_price" ≫= id = None) ∧
  (({["A_price" := Some 10%Q; "B_price" := Some 7%Q]}
      : gmap string (option Q)) !! "A_price" = Some None →
     ∀ d' row', d' ≤ 18629 → (d', row') ∈ weekend_frame →
                row' !! "A_price" ≫= id = None).
Proof.
  assert (Hin : (18629, {["A_price" := Some 10%Q; "B_price" := Some 7%Q]})
                ∈ resample_data weekend_frame).
  { apply (list_elem_of_lookup_2 _ 1%nat). vm_compute; reflexivity. }
  exact (filled_value_is_latest _ _ _ "A_price" Hin).
Defined.

(** The weekend frame with Monday before Friday. *)
Lemma resample_data_order_witness :
  resample_data weekend_frame = resample_data (reverse weekend_frame).
Proof.
  assert (Hperm : weekend_frame ≡ₚ reverse weekend_frame)
    by (symmetry; apply reverse_Permutation).
  assert (Hnd : NoDup weekend_frame.*1)
    by (apply (bool_decide_unpack (NoDup _)); vm_compute; exact I).
  exact (resample_data_order _ _ Hperm Hnd).
Defined.

(** Requested from 2021-01-01: ["E"] has no observation and passes,
    ["A"] starts on 2021-01-04. *)
Lemma load_data_stops_at_first_witness :
  load_data float_histories round2_binary64
    [("E"%string, 0%float); ("A"%string, 1%float)] 18628 18635
  = Raise (ValueError (data_only_available_from "A" 18631)).
Proof.
  assert (Hts : [("E"%string, 0%float); ("A"%string, 1%float)].*1
                = ["E"%string] ++ "A"%string :: []) by reflexivity.
  assert (Hbefore : ∀ t', t' ∈ ["E"%string] → ∃ series,
            float_histories t' 18628 18635 = Ok series ∧
            ∀ first_date, index_min series.*1 = Some first_date →
                          first_date ≤ 18628).
  { intros t' ->%list_elem_of_singleton. exists []. split; [reflexivity|].
    by intros f [=]. }
  assert (Hh : float_histories "A" 18628 18635
               = Ok [(18631, Some 1.115%float); (18632, Some 2.5%float)])
    by (vm_compute; reflexivity).
  assert (Hmin : index_min
                   [(18631, Some 1.115%float); (18632, Some 2.5%float)].*1
                 = Some 18631) by (vm_compute; reflexivity).
  assert (Hlt : 18628 < 18631) by lia.
  exact (proj2 (load_data_stops_at_first float_histories round2_binary64
                  18628 18635 _ _ _ _ Hts Hbefore) _ _ Hh Hmin Hlt).
Defined.

Lemma float_histories_fetch (t : string) (start_date end_date : Z) :
  t ∈ [("A"%string, 1%float); ("E"%string, 0%float)].*1 →
  ∃ series, float_histories t start_date end_date = Ok series.
Proof.
  intros [->|[->|[]%elem_of_nil]%elem_of_cons]%elem_of_cons; by eexists.
Qed.

Lemma load_data_no_tickers_witness :
  load_data float_histories round2_binary64
    [("A"%string, 1%float); ("E"%string, 0%float)] 18631 18635
    = Raise (ValueError no_objects_to_concatenate)
  ↔ [("A"%string, 1%float); ("E"%string, 0%float)] = [].
Proof.
  exact (load_data_no_tickers float_histories round2_binary64 18631 18635 _
           (λ t, float_histories_fetch t 18631 18635)).
Defined.

(** The histories of that provider list a date once. *)
Lemma float_histories_NoDup (t : string) (start_date end_date : Z) series :
  float_histories t start_date end_date = Ok series → NoDup series.*1.
Proof.
  unfold float_histories. intros Hh.
  assert (Hfilter : ∀ l : list (Z * option float),
            NoDup l.*1 →
            NoDup (filter (λ dp, start_date ≤ dp.1 < end_date) l).*1).
  { intros l. induction l as [|[d v] l IH]; [done|].
    intros [Hnin Hnd]%NoDup_cons. rewrite filter_cons. simpl.
    destruct (decide (start_date ≤ d < end_date)); [|eauto].
    simpl. apply NoDup_cons. split; [|eauto].
    intros ([d' v'] & Hd & [_ Hin]%list_elem_of_filter)%list_elem_of_fmap.
    simpl in Hd. subst d'. apply Hnin.
    by apply (list_elem_of_fmap_2 fst _ (d, v')). }
  repeat case_decide; inv_ok; [|constructor].
  apply Hfilter. apply (bool_decide_unpack (NoDup _)). vm_compute. exact I.
Qed.

(** Requested from 2021-01-04. *)
Lemma loaded_dates_witness :
  NoDup float_histories_frame.*1 ∧
  ∀ day, day ∈ float_histories_frame.*1 ↔
    ∃ t series,
      t ∈ [("A"%string, 1%float); ("E"%string, 0%float)].*1 ∧
      float_histories t 18631 18635 = Ok series ∧ day ∈ series.*1.
Proof.
  assert (Hnds : ∀ t series,
            t ∈ [("A"%string, 1%float); ("E"%string, 0%float)].*1 →
            float_histories t 18631 18635 = Ok series → NoDup series.*1).
  { intros t series _. apply float_histories_NoDup. }
  assert (Hload : load_data float_histories round2_binary64
            [("A"%string, 1%float); ("E"%string, 0%float)] 18631 18635
            = Ok float_histories_frame) by (vm_compute; reflexivity).
  exact (loaded_dates float_histories round2_binary64 18631 18635 _ _
           Hnds Hload).
Defined.

(** The price 1.115 of ["A"] on 2021-01-04 is loaded as 1.12. *)
Lemma loaded_prices_witness :
  ∃ row, loc float_histories_frame 18631 = Ok row ∧
         row !! price_col "A" = Some (round2_binary64 <$> Some 1.115%float).
Proof.
  assert (Hnds : ∀ t series,
            t ∈ [("A"%string, 1%float); ("E"%string, 0%float)].*1 →
            float_histories t 18631 18635 = Ok series → NoDup series.*1).
  { intros t series _. apply float_histories_NoDup. }
  assert (Hload : load_data float_histories round2_binary64
            [("A"%string, 1%float); ("E"%string, 0%float)] 18631 18635
            = Ok float_histories_frame) by (vm_compute; reflexivity).
  assert (Ht : "A"%string
               ∈ [("A"%string, 1%float); ("E"%string, 0%float)].*1)
    by (by left).
  assert (Hh : float_histories "A" 18631 18635
               = Ok [(18631, Some 1.115%float); (18632, Some 2.5%float)])
    by (vm_compute; reflexivity).
  assert (Hin : (18631, Some 1.115%float)
                ∈ [(18631, Some 1.115%float); (18632, Some 2.5%float)])
    by (by left).
  exact (loaded_prices float_histories round2_binary64 18631 18635 _ _ _ _ _ _
           Hnds Hload Ht Hh Hin).
Defined.

Lemma simulate_portfolio_days_witness :
  ∃ df, load_data float_histories round2_binary64
          [("A"%string, 1%float); ("E"%string, 0%float)] 18631 18635
        = Ok df ∧
    date <$> rows float_histories_run = date_range df ∧
    (∀ day, day ∈ date <$> rows float_histories_run ↔
            ∃ a b, a ∈ df.*1 ∧ b ∈ df.*1 ∧ a ≤ day ≤ b) ∧
    (∀ i day, (date <$> rows float_histories_run) !! S i = Some day →
              (date <$> rows float_histories_run) !! i = Some (day - 1)).
Proof.
  assert (Hrun : simulate_portfolio float_histories round2_binary64
            PrimFloat.nan [("A"%string, 1%float); ("E"%string, 0%float)]
            18631 18635 1000%float 200%float = Ok (rows float_histories_run))
    by (vm_compute; reflexivity).
  exact (simulate_portfolio_days float_histories round2_binary64
           PrimFloat.nan 18631 18635 _ _ _ _ Hrun).
Defined.

(** One of the two histories has no observation. *)
Lemma simulate_portfolio_returns_witness :
  ∃ rs, simulate_portfolio float_histories round2_binary64 PrimFloat.nan
          [("A"%string, 1%float); ("E"%string, 0%float)] 18631 18635
          1000%float 200%float = Ok rs.
Proof.
  assert (Hw : neq (sum_weights
                      [("A"%string, 1%float); ("E"%string, 0%float)]) one
               = false) by (vm_compute; reflexivity).
  assert (Hhist : ∀ t,
            t ∈ [("A"%string, 1%float); ("E"%string, 0%float)].*1 →
            ∃ series,
              float_histories t 18631 18635 = Ok series ∧ NoDup series.*1 ∧
              ∀ first_date, index_min series.*1 = Some first_date →
                            first_date ≤ 18631).
  { intros t Ht.
    assert (∃ series, float_histories t 18631 18635 = Ok series ∧
              ∀ first_date, index_min series.*1 = Some first_date →
                            first_date ≤ 18631) as (series & Hh & Hcov).
    { apply elem_of_cons in Ht as [->|[->|[]%elem_of_nil]%elem_of_cons];
        (eexists; split; [reflexivity|];
         intros f Hf; vm_compute in Hf; by simplify_eq). }
    exists series. split_and!; [done| |done].
    by eapply float_histories_NoDup. }
  assert (Ht0 : "A"%string
                ∈ [("A"%string, 1%float); ("E"%string, 0%float)].*1)
    by (by left).
  assert (Hh0 : float_histories "A" 18631 18635
                = Ok [(18631, Some 1.115%float); (18632, Some 2.5%float)])
    by (vm_compute; reflexivity).
  assert (Hs0 : [(18631, Some 1.115%float); (18632, Some 2.5%float)] ≠ [])
    by done.
  exact (simulate_portfolio_returns float_histories round2_binary64
           PrimFloat.nan 18631 18635 _ 1000%float 200%float _ _
           Hw Hhist Ht0 Hh0 Hs0).
Defined.
